(** * Dataset partitioner: split and corruption notebook

    A shallow embedding of the dataset notebook (the eight code cells that
    read [dataset.csv], drop unused columns, carve out the held-out rows,
    write the three held-out files, inject missing values into the training
    rows and write [train.csv]), and of the submission cell of the tutorial
    notebook.

    Conventions of the embedding.
    - A [DataFrame] is pandas' labelled table: ordered column labels with
      their declared dtype, and rows that carry their index label and their
      cells by column label.
    - A float64 payload other than [nan] is kept abstract as an integer code
      that orders the way the double does.  The notebook compares payloads
      ([nlargest], [min], [max]); the one piece of arithmetic on them is the
      range [high - low] that [np.random.uniform] computes and checks, and
      whether that range is a finite double is the part [finite_range] of
      the interface of the generator.  The missing-value marker is the
      separate constructor [NaN].
    - The legacy global generator of numpy is an interface [RandomState]
      (state, [permutation], [binomial], [uniform], [finite_range]) with the
      contract numpy documents for each draw;
      [np.random.choice(a, size, replace=False)] is
      [a[permutation(len(a))[:size]]], as in numpy.
    - The iteration order of a Python [set] of strings is not fixed by the
      language (string hashes are salted per process); it is the interface
      [SetOrder].
    - A raised exception stops the notebook; the files written before it
      stay written.
    - The input is the table [pd.read_csv] returns; parsing the text of the
      file is pandas' business, not the notebook's. *)

From Stdlib Require Import QArith.
From stdpp Require Import gmap strings list sorting.

Local Open Scope string_scope.
Local Open Scope list_scope.
Local Open Scope nat_scope.

(** ** Data model *)

Inductive dtype := Float64 | Int64 | Object.

Inductive cell :=
  | Float (x : Z)    (* float64 payload *)
  | Int (n : Z)      (* int64 *)
  | Str (s : string) (* object (string) *)
  | NaN.             (* missing-value marker *)

#[global] Instance dtype_eq_dec : EqDecision dtype.
Proof. solve_decision. Defined.

#[global] Instance cell_eq_dec : EqDecision cell.
Proof. solve_decision. Defined.

#[global] Instance cell_inhabited : Inhabited cell := populate NaN.

(** A row: its index label and its cells, by column label. *)
Abbreviation row := (nat * gmap string cell)%type.

Record DataFrame := mkDataFrame {
  columns : list (string * dtype);
  rows : list row
}.

(** [df.index], [df.columns] as label lists, [len(df)]. *)
Definition index (df : DataFrame) : list nat := (rows df).*1.
Definition names (df : DataFrame) : list string := (columns df).*1.
Definition len (df : DataFrame) : nat := length (rows df).

(** The column [df[c]] as a list of cells ([None] where a row has none). *)
Definition series (c : string) (df : DataFrame) : list (option cell) :=
  (λ r : row, r.2 !! c) <$> rows df.

(** The parsed contents of a CSV file, and the file [to_csv(index=False)]
    produces: header, then one record per row in row order.  A missing cell
    and [NaN] are both written as the empty field. *)
Record csv := mkCsv {
  header : list string;
  body : list (list cell)
}.

#[global] Instance csv_eq_dec : EqDecision csv.
Proof. solve_decision. Defined.

Definition record_of (cols : list string) (r : row) : list cell :=
  (λ c, default NaN (r.2 !! c)) <$> cols.

Definition csv_of (df : DataFrame) : csv :=
  {| header := names df; body := record_of (names df) <$> rows df |}.

(** The input file as [pd.read_csv] parses it: typed columns and records. *)
Record dataset := mkDataset {
  ds_columns : list (string * dtype);
  ds_records : list (gmap string cell)
}.

(** [pd.read_csv]: the frame gets the default index 0 .. N-1. *)
Definition read_csv (ds : dataset) : DataFrame :=
  {| columns := ds_columns ds;
     rows := zip (seq 0 (length (ds_records ds))) (ds_records ds) |}.

(** ** Exceptions *)

Inductive label := Col (c : string) | Idx (i : nat).

Inductive exn :=
  | KeyError (k : label)
  | TypeError
  | ValueError
  | OverflowError
  | AssertionError (msg : string).

Inductive outcome (A : Type) :=
  | Ok (a : A)
  | Raise (e : exn).
Arguments Ok {A} a.
Arguments Raise {A} e.

(** ** Pure pandas operations *)

(** [df[c].dtype]: the declared dtype of the (first) column labelled [c]. *)
Definition lookup_dtype (c : string) (cols : list (string * dtype))
    : option dtype :=
  snd <$> head (filter (λ cd, cd.1 = c) cols).

Definition dtype_of (c : string) (df : DataFrame) : option dtype :=
  lookup_dtype c (columns df).

(** [df.drop(labels, axis=1)]: every label must be a column. *)
Definition drop_columns (labels : list string) (df : DataFrame)
    : outcome DataFrame :=
  match list_find (λ c, c ∉ names df) labels with
  | Some (_, c) => Raise (KeyError (Col c))
  | None =>
      Ok {| columns := filter (λ cd, cd.1 ∉ labels) (columns df);
            rows := (λ r : row,
                       (r.1, filter (λ kv, kv.1 ∉ labels) r.2)) <$> rows df |}
  end.

(** [df[[c1; ...; cn]]]: the listed columns, in the listed order. *)
Definition select_columns (labels : list string) (df : DataFrame)
    : outcome DataFrame :=
  match list_find (λ c, c ∉ names df) labels with
  | Some (_, c) => Raise (KeyError (Col c))
  | None =>
      Ok {| columns := omap (λ c, (c,.) <$> dtype_of c df) labels;
            rows := (λ r : row,
                       (r.1, filter (λ kv, kv.1 ∈ labels) r.2)) <$> rows df |}
  end.

(** Declared dtype of [df[c] = ...]: an existing column keeps its place. *)
Fixpoint set_dtype (c : string) (dt : dtype) (cols : list (string * dtype))
    : list (string * dtype) :=
  match cols with
  | [] => [(c, dt)]
  | cd :: cols' =>
      if decide (cd.1 = c) then (c, dt) :: cols'
      else cd :: set_dtype c dt cols'
  end.

(** [df[c] = values]: one value per row, by position. *)
Definition setitem (c : string) (dt : dtype) (values : list cell)
    (df : DataFrame) : outcome DataFrame :=
  if decide (length values = len df) then
    Ok {| columns := set_dtype c dt (columns df);
          rows := zip_with (λ (r : row) v, (r.1, <[c := v]> r.2))
                    (rows df) values |}
  else Raise ValueError.

(** Numeric payload of a cell; [None] for [NaN], strings and absent cells. *)
Definition payload (oc : option cell) : option Z :=
  match oc with
  | Some (Float x) => Some x
  | Some (Int n) => Some n
  | _ => None
  end.

Definition value_at (c : string) (r : row) : option Z := payload (r.2 !! c).

(** Stable descending order on a column: a row goes behind the rows with a
    strictly larger value only, so equal values keep their file order. *)
Fixpoint insert_desc (c : string) (x : row) (l : list row) : list row :=
  match l with
  | [] => [x]
  | y :: l' =>
      if decide (default 0%Z (value_at c x) < default 0%Z (value_at c y))%Z
      then y :: insert_desc c x l'
      else x :: l
  end.

Definition sort_desc (c : string) (l : list row) : list row :=
  foldr (insert_desc c) [] l.

(** Rows of [df] from the largest value of column [c] down, rows without a
    value last in file order: the order [nlargest] cuts its result from. *)
Definition ranked (c : string) (df : DataFrame) : list row :=
  sort_desc c (filter (λ r, is_Some (value_at c r)) (rows df))
  ++ filter (λ r, ¬ is_Some (value_at c r)) (rows df).

(** [df.nlargest(n, c)] (keep = "first"): [KeyError] for an absent column,
    [TypeError] for an object column.  (For [n >= len(df)] pandas sorts the
    whole column instead, with an order among equal values that numpy does
    not fix; the notebook then fails in the sampling that follows, whatever
    that order is.) *)
Definition nlargest (n : nat) (c : string) (df : DataFrame)
    : outcome DataFrame :=
  match dtype_of c df with
  | None => Raise (KeyError (Col c))
  | Some Object => Raise TypeError
  | Some _ => Ok {| columns := columns df; rows := take n (ranked c df) |}
  end.

(** [df[k:]]: positional slice. *)
Definition slice_from (k : nat) (df : DataFrame) : DataFrame :=
  {| columns := columns df; rows := drop k (rows df) |}.

(** [df.loc[labels]]: the rows carrying each label, label by label. *)
Fixpoint loc_rows (labels : list nat) (rs : list row) : outcome (list row) :=
  match labels with
  | [] => Ok []
  | i :: labels' =>
      match filter (λ r : row, r.1 = i) rs with
      | [] => Raise (KeyError (Idx i))
      | hit =>
          match loc_rows labels' rs with
          | Ok rest => Ok (hit ++ rest)
          | Raise e => Raise e
          end
      end
  end.

Definition loc (labels : list nat) (df : DataFrame) : outcome DataFrame :=
  match loc_rows labels (rows df) with
  | Ok rs => Ok {| columns := columns df; rows := rs |}
  | Raise e => Raise e
  end.

(** [df.drop(index=labels)]: every label must be in the index. *)
Definition drop_rows (labels : list nat) (df : DataFrame)
    : outcome DataFrame :=
  match list_find (λ i, i ∉ index df) labels with
  | Some (_, i) => Raise (KeyError (Idx i))
  | None =>
      Ok {| columns := columns df;
            rows := filter (λ r : row, r.1 ∉ labels) (rows df) |}
  end.

(** [df.index.difference(other)]: unique labels not in [other], sorted. *)
Definition index_difference (idx other : list nat) : list nat :=
  merge_sort le (remove_dups (filter (λ i, i ∉ other) idx)).

(** [df[c].min()] and [df[c].max()], skipping missing values; [None] is
    the [nan] pandas returns when no row has a value. *)
Definition series_min (c : string) (df : DataFrame) : option Z :=
  match omap (value_at c) (rows df) with
  | [] => None
  | x :: l => Some (foldr Z.min x l)
  end.

Definition series_max (c : string) (df : DataFrame) : option Z :=
  match omap (value_at c) (rows df) with
  | [] => None
  | x :: l => Some (foldr Z.max x l)
  end.

(** [df.select_dtypes(exclude=[dt]).columns.tolist()]. *)
Definition select_dtypes_exclude (dt : dtype) (df : DataFrame) : list string :=
  (filter (λ cd, cd.2 ≠ dt) (columns df)).*1.

(** [df.loc[i, cols] = v]: the cells of the rows labelled [i].  The
    notebook assigns at labels drawn from [df.index] and at columns drawn
    from [df.columns] only, so pandas' enlargement of the frame at an absent
    label does not arise; here such an assignment changes nothing. *)
Definition set_cells (cols : list string) (v : cell) (m : gmap string cell)
    : gmap string cell :=
  foldr (λ c m', <[c := v]> m') m cols.

Definition loc_set (i : nat) (cols : list string) (v : cell) (df : DataFrame)
    : DataFrame :=
  {| columns := columns df;
     rows := (λ r : row,
                if decide (r.1 = i) then (r.1, set_cells cols v r.2) else r)
             <$> rows df |}.

(** ** The random generator and the order of a Python set *)

(** One call to the generator, as the notebook issues it. *)
Inductive draw :=
  | DrawPermutation (n : nat)
  | DrawBinomial (n : nat) (p : Q)
  | DrawUniform (low high : Z) (size : nat).

(** numpy's legacy global [RandomState]: [permutation(n)] returns a
    permutation of [0 .. n-1], [binomial(n, p)] a count in [0 .. n],
    [uniform(low, high, size)] an array of [size] payloads.  Before it
    draws, [uniform] computes the range [high - low] in double arithmetic
    and refuses a range that is not finite (an infinite bound, or two
    finite bounds too far apart for a double); [finite_range low high] says
    whether the range of the doubles coded [low] and [high] is finite. *)
Class RandomState := {
  G : Type;
  seed : Z → G;
  permutation : G → nat → list nat * G;
  binomial : G → nat → Q → nat * G;
  uniform : G → Z → Z → nat → list Z * G;
  finite_range : Z → Z → bool;
  permutation_spec g n : (permutation g n).1 ≡ₚ seq 0 n;
  binomial_spec g n p : (binomial g n p).1 ≤ n;
  uniform_spec g lo hi n : length (uniform g lo hi n).1 = n
}.

(** [list(s)] for a Python set [s] of strings: its elements, each once, in
    an order that the interpreter chooses. *)
Class SetOrder := {
  set_to_list : gset string → list string;
  set_to_list_spec X : set_to_list X ≡ₚ elements X
}.

(** ** The notebook *)

Definition target : string := "highUptake_mol".

Definition categorical_features : list string :=
  [ "bond_type"; "dimensions"; "linkerA"; "linkerB"; "net";
    "chemical_formula"; "vertices"; "edges"; "genus" ].

Definition target_variables : list string :=
  [ "heatDesorptionHigh"; "heatDesorptionHigh_Error"; "highUptake_molec";
    "highUptakeError_molec"; "highUptakeError_mol"; "heatDesorptionLow";
    "heatDesorptionLow_error"; "lowUptake_molec"; "lowUptakeError_molec";
    "lowUptake_mol"; "lowUptakeError_mol"; "surface_area"; "del_capacity" ].

Definition solution_csv : string := "./data/solution.csv".
Definition test_csv : string := "./data/test.csv".
Definition sample_submission_csv : string := "./data/sample_submission.csv".
Definition train_csv : string := "./data/train.csv".

Section Notebook.
Context {RS : RandomState} {SO : SetOrder}.

(** What a run acts on: the generator, the files written so far (oldest
    first) and the draws requested so far (oldest first). *)
Record world := mkWorld {
  gen : G;
  written : list (string * csv);
  draws : list draw
}.

(** A computation either returns or raises; the world survives both. *)
Definition M (A : Type) : Type := world → outcome A * world.

#[global] Instance M_ret : MRet M := λ A a w, (Ok a, w).
#[global] Instance M_bind : MBind M := λ A B f m w,
  match m w with
  | (Ok a, w') => f a w'
  | (Raise e, w') => (Raise e, w')
  end.

Definition raise {A} (e : exn) : M A := λ w, (Raise e, w).
Definition lift {A} (o : outcome A) : M A := λ w, (o, w).

Definition assert (P : Prop) `{Decision P} (msg : string) : M unit :=
  if decide P then mret () else raise (AssertionError msg).

Definition log (d : draw) (g : G) (w : world) : world :=
  {| gen := g; written := written w; draws := draws w ++ [d] |}.

Definition rand_permutation (n : nat) : M (list nat) := λ w,
  let r := permutation (gen w) n in (Ok r.1, log (DrawPermutation n) r.2 w).

Definition rand_binomial (n : nat) (p : Q) : M nat := λ w,
  let r := binomial (gen w) n p in (Ok r.1, log (DrawBinomial n p) r.2 w).

Definition rand_uniform (low high : Z) (size : nat) : M (list Z) := λ w,
  let r := uniform (gen w) low high size in
  (Ok r.1, log (DrawUniform low high size) r.2 w).

(** [np.random.choice(n, size, replace=False)] on an integer population:
    positions.  A sample larger than the population is a [ValueError]. *)
Definition choice_positions (n size : nat) : M (list nat) :=
  if decide (n < size) then raise ValueError
  else idx ← rand_permutation n; mret (take size idx).

(** [np.random.choice(a, size, replace=False)]: [a[idx]]. *)
Definition np_choice {A} (a : list A) (size : nat) : M (list A) :=
  idx ← choice_positions (length a) size;
  mret (omap (λ i, a !! i) idx).

(** [df.sample(n)]: [df.take(np.random.choice(len(df), n, replace=False))]. *)
Definition sample (n : nat) (df : DataFrame) : M DataFrame :=
  idx ← choice_positions (len df) n;
  mret {| columns := columns df; rows := omap (λ i, rows df !! i) idx |}.

(** [np.random.uniform(low, high, size)]: numpy raises
    [OverflowError('Range exceeds valid bounds')] unless [high - low] is a
    finite double, and draws only then.  A [nan] bound (the [min] or [max]
    of a column without a value) makes the range [nan]; an infinite bound,
    or bounds too far apart, make it infinite. *)
Definition np_uniform (low high : option Z) (size : nat) : M (list Z) :=
  match low, high with
  | Some lo, Some hi =>
      if finite_range lo hi then rand_uniform lo hi size
      else raise OverflowError
  | _, _ => raise OverflowError
  end.

(** [df.to_csv(path, index=False)]. *)
Definition to_csv (path : string) (df : DataFrame) : M unit := λ w,
  (Ok (), {| gen := gen w;
             written := written w ++ [(path, csv_of df)];
             draws := draws w |}).

(** Cells 2-5: read the file and drop the unused columns. *)
Definition cleaner (ds : dataset) : M DataFrame :=
  let df := read_csv ds in
  df ← lift (drop_columns ["Unnamed: 0"] df);
  df ← lift (drop_columns categorical_features df);
  lift (drop_columns target_variables df).

(** Cell 6, first half: the labels of the held-out rows. *)
Definition combined_indices (df : DataFrame) : M (list nat) :=
  best ← lift (nlargest 1 target df);
  let best_row := index best in
  top ← lift (nlargest 15 target df);
  great ← sample 5 (slice_from 5 top);
  let great_rows := index great in
  let best_rows := best_row ++ great_rows in
  additional_rows ← np_choice (index_difference (index df) best_rows)
                       (100 - length best_rows);
  mret (best_rows ++ additional_rows).

(** Cell 6: returns the training frame and the held-out frame. *)
Definition splitter (df : DataFrame) : M (DataFrame * DataFrame) :=
  let df_len := len df in
  df ← lift (setitem "id" Int64 ((λ i, Int (Z.of_nat i)) <$> index df) df);
  combined ← combined_indices df;
  df_test ← lift (loc combined df);
  solution ← lift (select_columns ["id"; target] df_test);
  solution ← lift (setitem "Usage" Object
                     (replicate (len solution) (Str "Public")) solution);
  to_csv solution_csv solution;;
  test ← lift (drop_columns [target] df_test);
  to_csv test_csv test;;
  let minimum := series_min target df in
  let maximum := series_max target df in
  sample_submission ← lift (select_columns ["id"] df_test);
  predictions ← np_uniform minimum maximum (len df_test);
  sample_submission ← lift (setitem target Float64 (Float <$> predictions)
                              sample_submission);
  to_csv sample_submission_csv sample_submission;;
  df ← lift (drop_rows combined df);
  assert (len df + len df_test = df_len) "";;
  assert (NoDup (series "id" df)) "IDs in df are not unique";;
  assert (NoDup (series "id" df_test)) "IDs in df_test are not unique";;
  assert (Forall (λ i, i ∉ series "id" df_test) (series "id" df))
    "IDs in df and df_test intersect";;
  mret (df, df_test).

(** Cell 7.  [int(0.125 * len(df))] is [len(df) / 8]: 0.125 is a power
    of two, the product is exact and [int] truncates.  The success
    probability [0.1] is passed to the generator as the literal it is. *)
Definition float64_columns (df : DataFrame) : list string :=
  set_to_list (list_to_set (names df)
               ∖ list_to_set (select_dtypes_exclude Float64 df)).

Definition corrupt_row (cols : list string) (df : DataFrame) (idx : nat)
    : M DataFrame :=
  b ← rand_binomial (length (columns df)) (1 # 10)%Q;
  let num_nans := b + 1 in
  nan_columns ← np_choice cols num_nans;
  mret (loc_set idx nan_columns NaN df).

Fixpoint corrupt_rows (cols : list string) (nan_indices : list nat)
    (df : DataFrame) : M DataFrame :=
  match nan_indices with
  | [] => mret df
  | idx :: rest => df' ← corrupt_row cols df idx; corrupt_rows cols rest df'
  end.

Definition nan_indices (df : DataFrame) : M (list nat) :=
  np_choice (index df) (len df / 8).

Definition corruptor (df : DataFrame) : M DataFrame :=
  let cols := float64_columns df in
  selected ← nan_indices df;
  corrupt_rows cols selected df.

(** Cell 8. *)
Definition persist (df : DataFrame) : M unit := to_csv train_csv df.

(** Cell 1 seeds the generator; then the cells run in order. *)
Definition world0 : world := {| gen := seed 42; written := []; draws := [] |}.

Definition notebook (ds : dataset) : M unit :=
  df ← cleaner ds;
  '(df, df_test) ← splitter df;
  df ← corruptor df;
  persist df.

Definition run (ds : dataset) : outcome unit * world := notebook ds world0.

End Notebook.

(** ** The tutorial notebook: the first submission

    The submission cell of the tutorial reads [test.csv], keeps its [id]
    column, predicts the constant 50.0 for every row and writes
    [submission.csv].  It runs in a process of its own, on whatever
    [test.csv] it is given. *)

Definition submission_csv : string := "./submission.csv".

(** The payload code of the double 50.0. *)
Definition constant_prediction : Z := 50.

Section Tutorial.
Context {RS : RandomState}.

Definition submission (test_file : dataset) : M unit :=
  let df_test := read_csv test_file in
  submission ← lift (select_columns ["id"] df_test);
  submission ← lift (setitem target Float64
                       (replicate (len submission) (Float constant_prediction))
                       submission);
  to_csv submission_csv submission.

End Tutorial.

(** ** Concrete environments

    A generator that replays a tape of numbers: [permutation(n)] is
    [0 .. n-1] rotated by the next number, [binomial(n, p)] is the next
    number capped at [n], and [uniform] returns its lower bound.  Seeding
    rewinds the tape.  The payload codes of this environment are the values
    themselves (integer-valued doubles): the range [hi - lo] is a finite
    double when it rounds below [2^1024], that is when its magnitude is
    below [2^1024 - 2^970]. *)

Definition tape_permutation (g : list nat) (n : nat) : list nat * list nat :=
  (rotate (hd 0 g) (seq 0 n), tl g).
Definition tape_binomial (g : list nat) (n : nat) (p : Q) : nat * list nat :=
  (hd 0 g `min` n, tl g).
Definition tape_uniform (g : list nat) (lo hi : Z) (n : nat)
    : list Z * list nat :=
  (replicate n lo, g).

Definition tape_finite_range (lo hi : Z) : bool :=
  bool_decide (Z.abs (hi - lo) < 2 ^ 1024 - 2 ^ 970)%Z.

Lemma tape_permutation_spec g n : (tape_permutation g n).1 ≡ₚ seq 0 n.
Proof.
  simpl. unfold rotate. rewrite Permutation_app_comm. by rewrite take_drop.
Qed.

Lemma tape_binomial_spec g n p : (tape_binomial g n p).1 ≤ n.
Proof. simpl. lia. Qed.

Lemma tape_uniform_spec g lo hi n : length (tape_uniform g lo hi n).1 = n.
Proof. simpl. apply length_replicate. Qed.

Definition TapeRandom (tape : list nat) : RandomState :=
  {| G := list nat;
     seed := λ _, tape;
     permutation := tape_permutation;
     binomial := tape_binomial;
     uniform := tape_uniform;
     finite_range := tape_finite_range;
     permutation_spec := tape_permutation_spec;
     binomial_spec := tape_binomial_spec;
     uniform_spec := tape_uniform_spec |}.

(** Two iteration orders for a set of labels: one order and its reverse. *)
Lemma elements_order_spec (X : gset string) : elements X ≡ₚ elements X.
Proof. done. Qed.
Lemma reverse_order_spec (X : gset string) : reverse (elements X) ≡ₚ elements X.
Proof. apply reverse_Permutation. Qed.

Definition ElementsOrder : SetOrder :=
  {| set_to_list := elements; set_to_list_spec := elements_order_spec |}.
Definition ReverseOrder : SetOrder :=
  {| set_to_list := λ X, reverse (elements X);
     set_to_list_spec := reverse_order_spec |}.

(** ** A small dataset

    108 rows with every column the notebook drops, two float64 features, one
    int64 count and the target; row 30 alone carries the largest target. *)

Definition demo_columns : list (string * dtype) :=
  [("Unnamed: 0", Int64)] ++ ((λ c, (c, Object)) <$> categorical_features)
  ++ [("voidFraction", Float64); ("density", Float64); ("num_carbon", Int64)]
  ++ ((λ c, (c, Float64)) <$> target_variables)
  ++ [(target, Float64)].

Definition demo_record (i : nat) : gmap string cell :=
  list_to_map
    ([("Unnamed: 0", Int (Z.of_nat i))]
     ++ ((λ c, (c, Str "x")) <$> categorical_features)
     ++ [("voidFraction", Float (Z.of_nat ((i * 7) `mod` 13)));
         ("density", Float (Z.of_nat ((i * 3) `mod` 11)));
         ("num_carbon", Int (Z.of_nat (i `mod` 5)))]
     ++ ((λ c, (c, Float 0)) <$> target_variables)
     ++ [(target, Float (Z.of_nat ((i * 37) `mod` 101)))]).

Definition demo : dataset :=
  {| ds_columns := demo_columns; ds_records := demo_record <$> seq 0 108 |}.

(** The same file with the [voidFraction] field of its first record empty. *)
Definition demo_gap : dataset :=
  {| ds_columns := demo_columns;
     ds_records := <["voidFraction" := NaN]> (demo_record 0)
                   :: (demo_record <$> seq 1 107) |}.

(** Generators: the held-out draws, one selected row, then a binomial draw
    of 0 and the eligible column at position 0 or 2, or a binomial draw of
    3. *)
Definition quiet : RandomState := TapeRandom [1; 2; 3; 0; 0].
Definition quiet2 : RandomState := TapeRandom [1; 2; 3; 0; 2].
Definition greedy : RandomState := TapeRandom [1; 2; 3; 3].

(** The first 100 records of the small dataset: every row is held out. *)
Definition demo100 : dataset :=
  {| ds_columns := demo_columns; ds_records := demo_record <$> seq 0 100 |}.

(** The same file with the targets of its first two records as far apart as
    two doubles can be without a finite difference. *)
Definition demo_wide : dataset :=
  {| ds_columns := demo_columns;
     ds_records := <[target := Float (2 ^ 1023)]> (demo_record 0)
                   :: <[target := Float (- 2 ^ 1023)]> (demo_record 1)
                   :: (demo_record <$> seq 2 106) |}.

(** ** Vocabulary of the statements *)

(** The [id] cell of the row labelled [i], and a row with its [id] cell. *)
Definition id_cell (i : nat) : option cell := Some (Int (Z.of_nat i)).

Definition with_id (r : row) : row := (r.1, <["id" := Int (Z.of_nat r.1)]> r.2).

(** The frame of cell 6 once [df["id"] = df.index] has run. *)
Definition indexed (df : DataFrame) : DataFrame :=
  {| columns := set_dtype "id" Int64 (columns df);
     rows := with_id <$> rows df |}.

(** How a row of the training frame relates to the same row after the
    loop over [sel] has run with the eligible columns [cols]. *)
Definition blanked (sel : list nat) (cols : list string) (r r' : row) : Prop :=
  r'.1 = r.1
  ∧ (r.1 ∉ sel → r' = r)
  ∧ (r.1 ∈ sel → ∃ c, c ∈ cols ∧ r'.2 !! c = Some NaN)
  ∧ (∀ c, r'.2 !! c ≠ r.2 !! c →
          c ∈ cols ∧ r.1 ∈ sel ∧ r'.2 !! c = Some NaN).

(** A column read back from a written file. *)
Definition csv_column (c : string) (f : csv) : list cell :=
  match list_find (λ h, h = c) (header f) with
  | Some (k, _) => (λ rec : list cell, default NaN (rec !! k)) <$> body f
  | None => []
  end.

(** Computations that write no file. *)
Definition silent `{RandomState} {A} (m : M A) : Prop :=
  ∀ w, written (m w).2 = written w.

(** The file names a computation appends to the files written so far:
    [ok] on return, [err] when it raises. *)
Definition appends `{RandomState} {A} (m : M A)
    (ok err : list string → Prop) : Prop :=
  ∀ w, ∃ fs,
    written (m w).2 = written w ++ fs
    ∧ match (m w).1 with Ok _ => ok fs.*1 | Raise _ => err fs.*1 end.

(** The order in which the notebook writes its files. *)
Definition held_out_files : list string :=
  [solution_csv; test_csv; sample_submission_csv].

Definition output_files : list string := held_out_files ++ [train_csv].

(** Whether a computation returned. *)
Definition is_ok {A} (o : outcome A) : bool :=
  match o with Ok _ => true | Raise _ => false end.

(** The columns cells 3-5 drop. *)
Definition dropped_columns : list string :=
  ["Unnamed: 0"] ++ categorical_features ++ target_variables.

(** The column labels of the file that the cleaner keeps, in file order. *)
Definition kept_columns (ds : dataset) : list string :=
  filter (λ c, c ∉ dropped_columns) (ds_columns ds).*1.

(** The target column of the file is numeric. *)
Definition numeric_target (ds : dataset) : Prop :=
  lookup_dtype target (ds_columns ds) = Some Float64
  ∨ lookup_dtype target (ds_columns ds) = Some Int64.

(** The target value of each record, in file order. *)
Definition targets (ds : dataset) : list (option Z) :=
  (λ rec : gmap string cell, payload (rec !! target)) <$> ds_records ds.

(** The smallest and the largest target value of the file, when a record
    has one: the bounds that cell 6 passes to [np.random.uniform]. *)
Definition target_range (ds : dataset) : option (Z * Z) :=
  match omap id (targets ds) with
  | [] => None
  | x :: l => Some (foldr Z.min x l, foldr Z.max x l)
  end.

(** Record [i] alone carries the largest target value [v]. *)
Definition below (v : Z) (i : nat) (ju : nat * option Z) : Prop :=
  ju.1 = i ∨ match ju.2 with Some u => (u < v)%Z | None => True end.

#[global] Instance below_dec v i ju : Decision (below v i ju).
Proof. unfold below. destruct ju as [j [u|]]; simpl; apply _. Defined.

Definition sole_maximum (i : nat) (v : Z) (ts : list (option Z)) : Prop :=
  ts !! i = Some (Some v) ∧ Forall (below v i) (zip (seq 0 (length ts)) ts).

(** Every record has a value in every column that the cleaner keeps. *)
Definition complete (ds : dataset) : Prop :=
  Forall (λ rec : gmap string cell,
            Forall (λ c, default NaN (rec !! c) ≠ NaN) (kept_columns ds))
    (ds_records ds).

(** A written record with a missing value. *)
Definition has_missing (rec : list cell) : Prop := NaN ∈ rec.

#[global] Instance has_missing_dec rec : Decision (has_missing rec).
Proof. unfold has_missing. apply _. Defined.

(** The trial counts of the binomial draws among [ds]. *)
Definition binomial_trials (ds : list draw) : list nat :=
  omap (λ d, match d with DrawBinomial n _ => Some n | _ => None end) ds.

(** Run the stages up to the Splitter, or up to the Corruptor, and report
    [f] of the frames they produced. *)
Definition after_split `{RandomState} {A} (ds : dataset)
    (f : DataFrame → DataFrame → DataFrame → A) : M A :=
  df ← cleaner ds;
  '(train, test) ← splitter df;
  mret (f df train test).

Definition after_corruption `{RandomState} `{SetOrder} {A} (ds : dataset)
    (f : DataFrame → DataFrame → DataFrame → A) : M A :=
  df ← cleaner ds;
  '(train, test) ← splitter df;
  train' ← corruptor train;
  mret (f df train train').

(** ** Vocabulary of the further properties *)

(** The cell of record [i] of the input in column [c], and the cell a
    written file shows for that row once cell 6 has set its [id]. *)
Definition input_cell (ds : dataset) (i : nat) (c : string) : option cell :=
  ds_records ds !! i ≫= (λ rec : gmap string cell, rec !! c).

Definition indexed_cell (ds : dataset) (i : nat) (c : string) : cell :=
  if decide (c = "id") then Int (Z.of_nat i)
  else default NaN (input_cell ds i c).

(** The column labels of the frame once cell 6 has set [id], and its
    columns with their dtypes. *)
Definition frame_columns (ds : dataset) : list string :=
  if decide ("id" ∈ kept_columns ds) then kept_columns ds
  else kept_columns ds ++ ["id"].

Definition frame_schema (ds : dataset) : list (string * dtype) :=
  set_dtype "id" Int64
    (filter (λ cd, cd.1 ∉ dropped_columns) (ds_columns ds)).

(** How many columns of that frame the Corruptor draws from. *)
Definition eligible_count `{SetOrder} (ds : dataset) : nat :=
  length (float64_columns {| columns := frame_schema ds; rows := [] |}).

(** The target value of record [i], if it has one. *)
Definition target_value (ds : dataset) (i : nat) : option Z :=
  payload (input_cell ds i target).

(** The positions of the records in the order [nlargest] ranks them. *)
Definition ranking (ds : dataset) : list nat :=
  (ranked target (read_csv ds)).*1.

(** Record [i] ranks before record [j]: a larger target value first, equal
    values in file order, records without a value last in file order. *)
Definition precedes (ds : dataset) (i j : nat) : Prop :=
  match target_value ds i, target_value ds j with
  | Some a, Some b => (b < a)%Z ∨ (a = b ∧ i < j)
  | Some _, None => True
  | None, Some _ => False
  | None, None => i < j
  end.

#[global] Instance precedes_dec ds i j : Decision (precedes ds i j).
Proof.
  unfold precedes.
  destruct (target_value ds i), (target_value ds j); apply _.
Defined.

(** An exception that pandas or numpy raises, as opposed to a failed
    [assert] of the notebook. *)
Definition library_error (e : exn) : Prop :=
  match e with AssertionError _ => False | _ => True end.

(** The draws of the loop of cell 7 over [k] rows: a binomial draw over [n]
    trials, then the permutation of the [m] eligible columns. *)
Definition loop_draws (k n m : nat) : list draw :=
  mjoin (replicate k [DrawBinomial n (1 # 10)%Q; DrawPermutation m]).

(** A table whose [id] column reads back the [id] column of a written
    file. *)
Definition reads_id (f : csv) (t : dataset) : Prop :=
  "id" ∈ (ds_columns t).*1
  ∧ (λ rec : gmap string cell, default NaN (rec !! "id")) <$> ds_records t
    = csv_column "id" f.

(** The ranking order on the rows of a frame, by column [c]. *)
Definition row_precedes (c : string) (x y : row) : Prop :=
  match value_at c x, value_at c y with
  | Some a, Some b => (b < a)%Z ∨ (a = b ∧ x.1 < y.1)
  | Some _, None => True
  | None, Some _ => False
  | None, None => x.1 < y.1
  end.

(** The table of the [id] column of a written file alone. *)
Definition id_table (f : csv) : dataset :=
  {| ds_columns := [("id", Int64)];
     ds_records := (λ x : cell, {["id" := x]}) <$> csv_column "id" f |}.

(** [a[idx]] for an array [idx] of positions, as [np.random.choice] and
    [DataFrame.sample] take their sample. *)
Definition pick {A} (a : list A) (idx : list nat) : list A :=
  omap (λ i, a !! i) idx.

(** * Properties *)

(** ** Lists *)

Section list_facts.
Context {A : Type}.
Implicit Types (a l : list A) (idx : list nat).

Lemma length_omap_lookup a idx :
  Forall (λ i, i < length a) idx →
  length (omap (λ i, a !! i) idx) = length idx.
Proof.
  induction 1 as [|i idx Hi _ IH]; [done|]. cbn.
  destruct (lookup_lt_is_Some_2 a i Hi) as [x ->]. cbn. by rewrite IH.
Qed.

Lemma elem_of_omap_lookup a idx x :
  x ∈ omap (λ i, a !! i) idx → x ∈ a.
Proof.
  rewrite list_elem_of_omap. intros (i & _ & Hi).
  by eapply list_elem_of_lookup_2.
Qed.

Lemma NoDup_omap_lookup a idx :
  NoDup a → NoDup idx → NoDup (omap (λ i, a !! i) idx).
Proof.
  intros Ha. induction 1 as [|i idx Hi _ IH]; cbn; [constructor|].
  destruct (a !! i) as [x|] eqn:Hx; [|exact IH]. constructor; [|exact IH].
  rewrite list_elem_of_omap. intros (j & Hj & Hjx).
  simpl in Hjx. by rewrite (NoDup_lookup a i j x Ha Hx Hjx) in Hi.
Qed.

(** Two pieces cut from a duplicate-free list at disjoint positions. *)
Lemma take_drop_take_disjoint l m k n x :
  NoDup l → m ≤ k → x ∈ take m l → x ∉ drop k (take n l).
Proof.
  intros Hl Hmk Hx Hx'.
  apply elem_of_take in Hx as (i & Hi & Him).
  apply list_elem_of_lookup in Hx' as (j & Hj).
  rewrite lookup_drop in Hj. apply lookup_take_Some in Hj as [Hj _].
  assert (i = k + j) by (eapply NoDup_lookup; eauto). lia.
Qed.

End list_facts.

(** ** Running a computation *)

Section run_facts.
Context {RS : RandomState} {SO : SetOrder}.

Lemma bind_unfold {A B} (m : M A) (f : A → M B) w :
  (m ≫= f) w =
  match m w with
  | (Ok a, w') => f a w'
  | (Raise e, w') => (Raise e, w')
  end.
Proof. done. Qed.

Lemma bind_Ok {A B} (m : M A) (f : A → M B) w b w' :
  (m ≫= f) w = (Ok b, w') →
  ∃ a w1, m w = (Ok a, w1) ∧ f a w1 = (Ok b, w').
Proof. rewrite bind_unfold. destruct (m w) as [[a|e] w1]; [eauto|done]. Qed.

Lemma lift_Ok {A} (o : outcome A) w a w' :
  lift o w = (Ok a, w') → o = Ok a ∧ w' = w.
Proof. unfold lift. by intros [= -> ->]. Qed.

Lemma assert_Ok (P : Prop) `{Decision P} msg w u w' :
  assert P msg w = (Ok u, w') → P ∧ w' = w.
Proof. unfold assert. case_decide; [by intros [= <-]|done]. Qed.

Lemma choice_positions_spec n size w :
  (n < size ∧ choice_positions n size w = (Raise ValueError, w))
  ∨ (size ≤ n ∧ ∃ idx,
       choice_positions n size w
         = (Ok idx, log (DrawPermutation n) (permutation (gen w) n).2 w)
       ∧ length idx = size ∧ NoDup idx ∧ Forall (λ i, i < n) idx).
Proof.
  unfold choice_positions. case_decide as Hn; [by left|]. right.
  split; [lia|]. eexists. split; [done|].
  pose proof (permutation_spec (gen w) n) as Hp.
  assert (length (permutation (gen w) n).1 = n) as Hlen
    by by rewrite Hp, length_seq.
  split_and!.
  - rewrite length_take. lia.
  - eapply sublist_NoDup; [|apply sublist_take].
    rewrite Hp. apply NoDup_seq.
  - apply Forall_take. rewrite Hp. apply Forall_seq. lia.
Qed.

Lemma np_choice_spec {A} (a : list A) size w :
  (length a < size ∧ np_choice a size w = (Raise ValueError, w))
  ∨ (size ≤ length a ∧ ∃ l,
       np_choice a size w
         = (Ok l, log (DrawPermutation (length a))
                    (permutation (gen w) (length a)).2 w)
       ∧ length l = size ∧ (∀ x, x ∈ l → x ∈ a) ∧ (NoDup a → NoDup l)).
Proof.
  unfold np_choice. rewrite bind_unfold.
  destruct (choice_positions_spec (length a) size w)
    as [[? ->]|(? & idx & -> & Hlen & Hnd & Hlt)]; [by left|right].
  split; [done|]. eexists. split; [done|]. split_and!.
  - by rewrite length_omap_lookup.
  - intros x. apply elem_of_omap_lookup.
  - intros Ha. by apply NoDup_omap_lookup.
Qed.

End run_facts.

(** ** Frames *)

Lemma set_cells_lookup cols v (m : gmap string cell) c :
  set_cells cols v m !! c = if decide (c ∈ cols) then Some v else m !! c.
Proof.
  induction cols as [|c' cols IH].
  - by rewrite decide_False by apply not_elem_of_nil.
  - change (set_cells (c' :: cols) v m) with (<[c' := v]> (set_cells cols v m)).
    destruct (decide (c' = c)) as [->|Hne].
    + rewrite lookup_insert_eq. by rewrite decide_True by left.
    + rewrite lookup_insert_ne by done. rewrite IH.
      destruct (decide (c ∈ cols)) as [Hc|Hc].
      * by rewrite decide_True by by right.
      * rewrite decide_False; [done|]. by intros [?|?]%elem_of_cons.
Qed.

Lemma lookup_dtype_cons c cd cols :
  lookup_dtype c (cd :: cols)
  = if decide (cd.1 = c) then Some cd.2 else lookup_dtype c cols.
Proof.
  unfold lookup_dtype. case_decide.
  - by rewrite filter_cons_True by done.
  - by rewrite filter_cons_False by done.
Qed.

Lemma dtype_of_Some c df dt :
  dtype_of c df = Some dt → (c, dt) ∈ columns df.
Proof.
  unfold dtype_of. induction (columns df) as [|[c' dt'] cols IH]; [done|].
  rewrite lookup_dtype_cons. case_decide; simplify_eq/=.
  - intros [= ->]. by left.
  - intros ?. right. by apply IH.
Qed.

Lemma dtype_of_first c df :
  c ∈ names df → ∃ dt, dtype_of c df = Some dt.
Proof.
  unfold names, dtype_of.
  induction (columns df) as [|[c' dt'] cols IH]; [by intros ?%elem_of_nil|].
  rewrite fmap_cons, elem_of_cons, lookup_dtype_cons. simpl.
  case_decide; [by eauto|]. intros [?|?]; [done|by apply IH].
Qed.

(** Under a label that no column of another dtype carries, the declared
    dtype is that of the first (hence every) column so labelled. *)
Lemma dtype_of_not_excluded c dt df :
  c ∈ names df → c ∉ select_dtypes_exclude dt df → dtype_of c df = Some dt.
Proof.
  intros Hc Hex. destruct (dtype_of_first c df Hc) as [dt' Hdt].
  rewrite Hdt. f_equal. destruct (decide (dt' = dt)) as [|Hne]; [done|].
  exfalso. apply Hex. unfold select_dtypes_exclude.
  apply list_elem_of_fmap. exists (c, dt'). split; [done|].
  apply list_elem_of_filter. split; [done|]. by apply dtype_of_Some.
Qed.

Section corruptor_facts.
Context {RS : RandomState} {SO : SetOrder}.

Lemma elem_of_float64_columns c df :
  c ∈ float64_columns df ↔
  c ∈ names df ∧ c ∉ select_dtypes_exclude Float64 df.
Proof.
  unfold float64_columns. rewrite set_to_list_spec, elem_of_elements.
  rewrite elem_of_difference, !elem_of_list_to_set. done.
Qed.

Lemma NoDup_float64_columns df : NoDup (float64_columns df).
Proof.
  unfold float64_columns. rewrite set_to_list_spec. apply NoDup_elements.
Qed.

Lemma float64_columns_dtype c df :
  c ∈ float64_columns df → dtype_of c df = Some Float64.
Proof.
  intros [? ?]%elem_of_float64_columns. by apply dtype_of_not_excluded.
Qed.

(** One iteration of the loop, whatever it does. *)
Lemma corrupt_row_spec cols df idx w :
  let n := length (columns df) in
  let b := binomial (gen w) n (1 # 10)%Q in
  let w1 := log (DrawBinomial n (1 # 10)%Q) b.2 w in
  (length cols < b.1 + 1
   ∧ corrupt_row cols df idx w = (Raise ValueError, w1))
  ∨ (b.1 + 1 ≤ length cols ∧ ∃ nan_columns,
       corrupt_row cols df idx w
         = (Ok (loc_set idx nan_columns NaN df),
            log (DrawPermutation (length cols))
              (permutation (gen w1) (length cols)).2 w1)
       ∧ length nan_columns = b.1 + 1
       ∧ (∀ c, c ∈ nan_columns → c ∈ cols)
       ∧ (NoDup cols → NoDup nan_columns)).
Proof.
  intros n b w1. unfold corrupt_row. rewrite bind_unfold.
  unfold rand_binomial. fold n. fold b. simpl. fold w1. rewrite bind_unfold.
  destruct (np_choice_spec cols (b.1 + 1) w1)
    as [[? ->]|(? & l & -> & ? & ? & ?)]; [by left|right].
  split; [done|]. by exists l.
Qed.

End corruptor_facts.

Section corruptor_loop.
Context {RS : RandomState} {SO : SetOrder}.

Lemma draws_log d g (w : world) : draws (log d g w) = draws w ++ [d].
Proof. done. Qed.

Lemma written_log d g (w : world) : written (log d g w) = written w.
Proof. done. Qed.

Lemma corrupt_rows_Ok cols sel df w df' w' :
  corrupt_rows cols sel df w = (Ok df', w') →
  columns df' = columns df
  ∧ Forall2 (blanked sel cols) (rows df) (rows df').
Proof.
  revert df w. induction sel as [|idx sel IH]; intros df w Hrun.
  - injection Hrun as <- <-. split; [done|].
    apply Forall_Forall2_diag, Forall_true. intros r.
    split_and!; [done|done|by intros ?%elem_of_nil|done].
  - simpl in Hrun. rewrite bind_unfold in Hrun.
    destruct (corrupt_row_spec cols df idx w)
      as [[_ Hr]|(_ & nc & Hr & Hlen & Hsub & _)];
      rewrite Hr in Hrun; [done|].
    apply IH in Hrun as [Hcols Hrows]. split; [done|].
    simpl in Hrows. rewrite Forall2_fmap_l in Hrows.
    eapply Forall2_impl; [exact Hrows|]. clear Hrows.
    intros r r' (Hlab & Hkeep & Hhit & Hchg). simpl in *.
    destruct (decide (r.1 = idx)) as [Hidx|Hidx]; simpl in *.
    + split_and!.
      * done.
      * intros Hn. exfalso. apply Hn. rewrite Hidx. by left.
      * intros _. destruct (decide (r.1 ∈ sel)) as [Hin|Hin]; [by auto|].
        rewrite (Hkeep Hin). simpl.
        destruct nc as [|c nc]; [simpl in Hlen; lia|].
        exists c. split; [apply Hsub; by left|].
        rewrite set_cells_lookup. by rewrite decide_True by left.
      * intros c Hc. destruct (decide (r'.2 !! c = set_cells nc NaN r.2 !! c))
          as [Heq|Hne].
        -- rewrite Heq in Hc |- *. rewrite set_cells_lookup in Hc |- *.
           case_decide as Hcn; [|done].
           split_and!; [by apply Hsub|rewrite Hidx; by left|done].
        -- destruct (Hchg c Hne) as (? & ? & ?).
           split_and!; [done|by right|done].
    + split_and!.
      * done.
      * intros Hn. apply Hkeep. intros Hin. apply Hn. by right.
      * intros [?|Hin]%elem_of_cons; [done|]. by apply Hhit.
      * intros c Hc. destruct (Hchg c Hc) as (? & ? & ?).
        split_and!; [done|by right|done].
Qed.

(** The loop writes no file, and its binomial draws all ask for as many
    trials as the frame has columns, with success probability 0.1. *)
Lemma corrupt_rows_draws cols sel df w r w' :
  corrupt_rows cols sel df w = (r, w') →
  written w' = written w
  ∧ ∃ ds, draws w' = draws w ++ ds
     ∧ ∀ n p, DrawBinomial n p ∈ ds →
              n = length (columns df) ∧ p = (1 # 10)%Q.
Proof.
  revert df w. induction sel as [|idx sel IH]; intros df w Hrun.
  - injection Hrun as <- <-. split; [done|]. exists [].
    split; [by rewrite app_nil_r|]. by intros n p ?%elem_of_nil.
  - simpl in Hrun. rewrite bind_unfold in Hrun.
    destruct (corrupt_row_spec cols df idx w)
      as [[_ Hr]|(_ & nc & Hr & _)]; rewrite Hr in Hrun.
    + injection Hrun as <- <-. split; [done|]. eexists. split; [done|].
      by intros n p [= -> ->]%list_elem_of_singleton.
    + apply IH in Hrun as (Hw & ds & Hds & Hb). split; [done|].
      eexists. split.
      { rewrite Hds, !draws_log, <-!(assoc_L (++)). done. }
      intros n p [[=]|[[= -> ->]|Hin]%elem_of_cons]%elem_of_cons; [done|].
      by apply Hb.
Qed.

Lemma nan_indices_spec df w :
  (len df < len df / 8
   ∧ nan_indices df w = (Raise ValueError, w))
  ∨ ∃ sel,
      nan_indices df w
        = (Ok sel, log (DrawPermutation (len df))
                     (permutation (gen w) (len df)).2 w)
      ∧ length sel = len df / 8
      ∧ (∀ i, i ∈ sel → i ∈ index df)
      ∧ (NoDup (index df) → NoDup sel).
Proof.
  unfold nan_indices.
  assert (length (index df) = len df) as Hlen
    by (unfold index, len; apply length_fmap).
  pose proof (np_choice_spec (index df) (len df / 8) w) as Hc.
  rewrite Hlen in Hc. destruct Hc as [[? ?]|(? & l & ? & ? & ? & ?)].
  - by left.
  - right. by exists l.
Qed.

Lemma corruptor_Ok df w df' w' :
  corruptor df w = (Ok df', w') →
  ∃ sel w1,
    nan_indices df w = (Ok sel, w1)
    ∧ length sel = len df / 8
    ∧ (∀ i, i ∈ sel → i ∈ index df)
    ∧ (NoDup (index df) → NoDup sel)
    ∧ columns df' = columns df
    ∧ Forall2 (blanked sel (float64_columns df)) (rows df) (rows df').
Proof.
  unfold corruptor. intros (sel & w1 & Hsel & Hrun)%bind_Ok.
  exists sel, w1. split; [done|].
  destruct (nan_indices_spec df w) as [[_ Hr]|(sel' & Hr & ? & ? & ?)];
    rewrite Hr in Hsel; [done|]. simplify_eq.
  apply corrupt_rows_Ok in Hrun as [? ?]. done.
Qed.

End corruptor_loop.

(** ** The [id] column *)

#[global] Instance id_cell_inj : Inj (=) (=) id_cell.
Proof. intros i j [= ?]. lia. Qed.

Lemma names_set_dtype c dt cols :
  (set_dtype c dt cols).*1
  = if decide (c ∈ cols.*1) then cols.*1 else cols.*1 ++ [c].
Proof.
  induction cols as [|[c' dt'] cols IH].
  - by rewrite decide_False by apply not_elem_of_nil.
  - cbn [set_dtype fst]. rewrite !fmap_cons. cbn [fst].
    destruct (decide (c' = c)) as [->|Hc].
    + by rewrite decide_True by left.
    + rewrite fmap_cons, IH. cbn [fst].
      destruct (decide (c ∈ cols.*1)) as [Hin|Hin].
      * by rewrite decide_True by by right.
      * rewrite decide_False; [done|].
        by intros [?|?]%elem_of_cons.
Qed.

Lemma setitem_id df :
  setitem "id" Int64 ((λ i, Int (Z.of_nat i)) <$> index df) df
  = Ok {| columns := set_dtype "id" Int64 (columns df);
          rows := with_id <$> rows df |}.
Proof.
  unfold setitem, index, len. rewrite decide_True by by rewrite !length_fmap.
  do 2 f_equal. rewrite !zip_with_fmap_r. by rewrite zip_with_diag.
Qed.

Lemma index_with_id (rs : list row) : (with_id <$> rs).*1 = rs.*1.
Proof. rewrite <-list_fmap_compose. by apply list_fmap_ext. Qed.

Lemma series_id (rs : list row) :
  Forall (λ r : row, r.2 !! "id" = id_cell r.1) rs →
  (λ r : row, r.2 !! "id") <$> rs = id_cell <$> rs.*1.
Proof.
  intros Hrs. rewrite <-list_fmap_compose.
  apply Forall_fmap_ext_1. eapply Forall_impl; [exact Hrs|]. by intros r ->.
Qed.

Lemma with_id_cells (rs : list row) :
  Forall (λ r : row, r.2 !! "id" = id_cell r.1) (with_id <$> rs).
Proof.
  apply Forall_fmap, Forall_true. intros r. simpl. by rewrite lookup_insert_eq.
Qed.

(** ** Ranking by a column *)

Lemma insert_desc_Permutation c x l : insert_desc c x l ≡ₚ x :: l.
Proof.
  induction l as [|y l IH]; simpl; [done|].
  case_decide; [|done]. rewrite IH. apply Permutation_swap.
Qed.

Lemma sort_desc_Permutation c l : sort_desc c l ≡ₚ l.
Proof.
  induction l as [|x l IH]; simpl; [done|].
  by rewrite insert_desc_Permutation, IH.
Qed.

Lemma ranked_Permutation c df : ranked c df ≡ₚ rows df.
Proof.
  unfold ranked. rewrite sort_desc_Permutation. apply filter_app_complement.
Qed.

(** A row whose value is strictly above that of every other row heads the
    descending order. *)
Lemma sort_desc_head c l r0 :
  r0 ∈ l →
  (∀ r, r ∈ l → r ≠ r0 →
        (default 0 (value_at c r) < default 0 (value_at c r0))%Z) →
  head (sort_desc c l) = Some r0.
Proof.
  induction l as [|x l IH]; intros Hin Hmax; [by apply elem_of_nil in Hin|].
  simpl. destruct (decide (x = r0)) as [->|Hx].
  - destruct (sort_desc c l) as [|y l'] eqn:Hs; [done|]. simpl.
    rewrite decide_False; [done|].
    destruct (decide (y = r0)) as [->|Hy]; [lia|].
    assert (y ∈ l) as Hyl.
    { rewrite <-(sort_desc_Permutation c l), Hs. by left. }
    specialize (Hmax y (list_elem_of_further _ _ _ Hyl) Hy). lia.
  - apply elem_of_cons in Hin as [?|Hin]; [done|].
    assert (head (sort_desc c l) = Some r0) as Hh.
    { apply IH; [done|]. intros r Hr. apply Hmax. by right. }
    apply head_Some in Hh as [l' ->]. simpl.
    rewrite decide_True; [done|]. apply Hmax; [by left|done].
Qed.

(** ** Selecting and dropping rows by label *)

Lemma filter_label_NoDup (rs : list row) i :
  NoDup rs.*1 →
  filter (λ r : row, r.1 = i) rs = []
  ∨ ∃ r, filter (λ r : row, r.1 = i) rs = [r] ∧ r.1 = i ∧ r ∈ rs.
Proof.
  induction rs as [|r rs IH]; [by left|].
  rewrite fmap_cons, NoDup_cons. intros [Hr Hnd].
  destruct (decide (r.1 = i)) as [Hi|Hi].
  - right. exists r. rewrite filter_cons_True by done.
    split_and!; [|done|by left]. f_equal.
    destruct (filter (λ r : row, r.1 = i) rs) as [|r' ?] eqn:Hf; [done|].
    exfalso. apply Hr.
    assert (r' ∈ filter (λ r : row, r.1 = i) rs) as Hr'
      by (rewrite Hf; by left).
    apply list_elem_of_filter in Hr' as [Hr'i Hr'].
    rewrite Hi, <-Hr'i. by apply list_elem_of_fmap_2.
  - rewrite filter_cons_False by done.
    destruct (IH Hnd) as [?|(r' & ? & ? & ?)]; [by left|right].
    exists r'. split_and!; [done|done|by right].
Qed.

Lemma loc_rows_Ok labels (rs out : list row) :
  NoDup rs.*1 →
  loc_rows labels rs = Ok out →
  out.*1 = labels ∧ ∀ r, r ∈ out → r ∈ rs.
Proof.
  intros Hnd. revert out.
  induction labels as [|i labels IH]; intros out Hloc; simpl in Hloc.
  - injection Hloc as <-. split; [done|]. by intros r ?%elem_of_nil.
  - destruct (filter_label_NoDup rs i Hnd) as [Hf|(r & Hf & Hi & Hr)];
      rewrite Hf in Hloc; [done|].
    destruct (loc_rows labels rs) as [rest|] eqn:Hrest; [|done].
    injection Hloc as <-. destruct (IH rest eq_refl) as [Hl Hin].
    split; [by rewrite fmap_cons, Hl, Hi|].
    intros r' [->|?]%elem_of_cons; auto.
Qed.

Lemma loc_rows_total labels (rs : list row) :
  (∀ i, i ∈ labels → i ∈ rs.*1) → ∃ out, loc_rows labels rs = Ok out.
Proof.
  induction labels as [|i labels IH]; intros Hin; simpl; [by eexists|].
  destruct IH as [rest ->]; [intros j ?; apply Hin; by right|].
  destruct (filter (λ r : row, r.1 = i) rs) as [|r hit] eqn:Hf.
  - exfalso. assert (i ∈ rs.*1) as Hi by (apply Hin; by left).
    apply list_elem_of_fmap in Hi as (r & -> & Hr).
    by eapply (filter_nil_not_elem_of _ _ r) in Hf.
  - by eexists.
Qed.

Lemma drop_rows_Ok labels df df' :
  drop_rows labels df = Ok df' →
  columns df' = columns df
  ∧ rows df' = filter (λ r : row, r.1 ∉ labels) (rows df).
Proof.
  unfold drop_rows. destruct (list_find _ _) as [[? ?]|]; [done|].
  by intros [= <-].
Qed.

Lemma drop_rows_total labels df :
  (∀ i, i ∈ labels → i ∈ index df) → ∃ df', drop_rows labels df = Ok df'.
Proof.
  intros Hin. unfold drop_rows.
  destruct (list_find _ _) as [[k i]|] eqn:Hf; [|by eexists].
  apply list_find_Some in Hf as (Hk & Hi & _).
  destruct Hi. apply Hin. by eapply list_elem_of_lookup_2.
Qed.

Lemma index_drop_labels (labels : list nat) (rs : list row) :
  (filter (λ r : row, r.1 ∉ labels) rs).*1 = filter (λ i, i ∉ labels) rs.*1.
Proof.
  induction rs as [|r rs IH]; [done|]. rewrite fmap_cons.
  destruct (decide (r.1 ∉ labels)).
  - rewrite !filter_cons_True by done. by rewrite fmap_cons, IH.
  - by rewrite !filter_cons_False by done.
Qed.

(** Removing the rows of a duplicate-free list of labels of the index
    shortens the frame by exactly that many rows. *)
Lemma length_drop_labels (labels idx : list nat) :
  NoDup labels → NoDup idx → (∀ i, i ∈ labels → i ∈ idx) →
  length (filter (λ i, i ∉ labels) idx) + length labels = length idx.
Proof.
  intros Hl Hi Hsub.
  assert (idx ≡ₚ filter (λ i, i ∉ labels) idx ++ labels) as Hp.
  { apply NoDup_Permutation; [done| |].
    - apply NoDup_app. split_and!; [by apply NoDup_filter| |done].
      by intros i [? _]%list_elem_of_filter.
    - intros i. rewrite elem_of_app, list_elem_of_filter.
      destruct (decide (i ∈ labels)); split; auto; intros [[? ?]|?]; auto. }
  rewrite <-length_app. symmetry. by apply Permutation_length.
Qed.

(** ** Computations that write no file *)
Create HintDb silent.

Section silent_facts.
Context {RS : RandomState} {SO : SetOrder}.

Lemma silent_run {A} (m : M A) w r w' :
  silent m → m w = (r, w') → written w' = written w.
Proof. intros Hm Hr. specialize (Hm w). by rewrite Hr in Hm. Qed.

Lemma silent_ret {A} (a : A) : silent (mret a).
Proof. done. Qed.

Lemma silent_raise {A} e : silent (@raise _ A e).
Proof. done. Qed.

Lemma silent_lift {A} (o : outcome A) : silent (lift o).
Proof. done. Qed.

Lemma silent_bind {A B} (m : M A) (f : A → M B) :
  silent m → (∀ a, silent (f a)) → silent (m ≫= f).
Proof.
  intros Hm Hf w. rewrite bind_unfold. specialize (Hm w).
  destruct (m w) as [[a|e] w1]; simpl in *; [|done].
  by rewrite Hf.
Qed.

Lemma silent_assert (P : Prop) `{Decision P} msg : silent (assert P msg).
Proof. unfold assert. by case_decide. Qed.

Lemma silent_rand_permutation n : silent (rand_permutation n).
Proof. done. Qed.

Lemma silent_rand_binomial n p : silent (rand_binomial n p).
Proof. done. Qed.

Lemma silent_rand_uniform lo hi n : silent (rand_uniform lo hi n).
Proof. done. Qed.

Lemma silent_choice_positions n size : silent (choice_positions n size).
Proof.
  unfold choice_positions. case_decide; [done|].
  apply silent_bind; [done|]. by intros idx.
Qed.

Lemma silent_np_choice {A} (a : list A) size : silent (np_choice a size).
Proof.
  apply silent_bind; [apply silent_choice_positions|]. by intros idx.
Qed.

Lemma silent_sample n df : silent (sample n df).
Proof.
  apply silent_bind; [apply silent_choice_positions|]. by intros idx.
Qed.

Lemma silent_np_uniform lo hi n : silent (np_uniform lo hi n).
Proof.
  destruct lo as [lo|], hi as [hi|]; try done.
  unfold np_uniform. by destruct (finite_range lo hi).
Qed.

Hint Resolve silent_ret silent_raise silent_lift silent_assert
  silent_rand_permutation silent_rand_binomial silent_rand_uniform
  silent_choice_positions silent_np_choice silent_sample silent_np_uniform
  : silent.

Lemma silent_cleaner ds : silent (cleaner ds).
Proof.
  unfold cleaner. repeat (apply silent_bind; [auto with silent|intros ?]).
  auto with silent.
Qed.

Lemma silent_combined_indices df : silent (combined_indices df).
Proof.
  unfold combined_indices.
  repeat (apply silent_bind; [auto with silent|intros ?]).
  auto with silent.
Qed.

Lemma silent_corruptor df : silent (corruptor df).
Proof.
  intros w. unfold corruptor. rewrite bind_unfold.
  pose proof (silent_np_choice (index df) (len df / 8) w) as Hs.
  unfold nan_indices. destruct (np_choice _ _ w) as [[sel|e] w1]; [|done].
  simpl in Hs. rewrite <-Hs.
  destruct (corrupt_rows _ sel df w1) as [r w'] eqn:Hr.
  by apply corrupt_rows_draws in Hr as [? _].
Qed.

End silent_facts.

#[global] Hint Resolve silent_ret silent_raise silent_lift silent_assert
  silent_rand_permutation silent_rand_binomial silent_rand_uniform
  silent_choice_positions silent_np_choice silent_sample silent_np_uniform
  silent_cleaner silent_combined_indices silent_corruptor : silent.

(** ** The held-out labels *)

Lemma fmap_omap_lookup {A B} (f : A → B) (a : list A) (idx : list nat) :
  f <$> omap (λ i, a !! i) idx = omap (λ i, (f <$> a) !! i) idx.
Proof.
  induction idx as [|i idx IH]; [done|]. cbn.
  rewrite list_lookup_fmap. destruct (a !! i); cbn; by rewrite IH.
Qed.

Lemma NoDup_index_difference idx other : NoDup (index_difference idx other).
Proof.
  unfold index_difference. rewrite merge_sort_Permutation.
  apply NoDup_remove_dups.
Qed.

Lemma elem_of_index_difference idx other i :
  i ∈ index_difference idx other ↔ i ∈ idx ∧ i ∉ other.
Proof.
  unfold index_difference.
  rewrite merge_sort_Permutation, elem_of_remove_dups, list_elem_of_filter.
  tauto.
Qed.

Lemma length_index_difference idx other :
  NoDup idx → NoDup other → (∀ i, i ∈ other → i ∈ idx) →
  length (index_difference idx other) + length other = length idx.
Proof.
  intros Hi Ho Hsub. rewrite <-(length_drop_labels other idx) by done.
  f_equal. apply Permutation_length. unfold index_difference.
  rewrite merge_sort_Permutation.
  apply NoDup_Permutation;
    [apply NoDup_remove_dups|by apply NoDup_filter|].
  intros i. by rewrite elem_of_remove_dups.
Qed.

Lemma nlargest_Ok n c df d :
  nlargest n c df = Ok d →
  columns d = columns df ∧ rows d = take n (ranked c df).
Proof.
  unfold nlargest. destruct (dtype_of c df) as [[]|]; by intros [= <-].
Qed.

Lemma nlargest_total n c df :
  (dtype_of c df = Some Float64 ∨ dtype_of c df = Some Int64) →
  nlargest n c df
  = Ok {| columns := columns df; rows := take n (ranked c df) |}.
Proof. unfold nlargest. by intros [-> | ->]. Qed.

Section splitter_facts.
Context {RS : RandomState} {SO : SetOrder}.

Lemma sample_Ok n df w d w' :
  sample n df w = (Ok d, w') →
  columns d = columns df
  ∧ length (index d) = n
  ∧ (∀ i, i ∈ index d → i ∈ index df)
  ∧ (NoDup (index df) → NoDup (index d)).
Proof.
  unfold sample. intros (idx & w1 & Hidx & [= <- <-])%bind_Ok.
  destruct (choice_positions_spec (len df) n w)
    as [[_ Hr]|(_ & idx' & Hr & Hlen & Hnd & Hlt)];
    rewrite Hr in Hidx; [done|]. simplify_eq. unfold index. simpl.
  rewrite fmap_omap_lookup. split_and!.
  - done.
  - rewrite length_omap_lookup; [done|]. by rewrite length_fmap.
  - intros i. apply elem_of_omap_lookup.
  - intros Hdf. by apply NoDup_omap_lookup.
Qed.

Lemma sample_total n df w :
  n ≤ len df → ∃ d w', sample n df w = (Ok d, w').
Proof.
  intros Hn. unfold sample. rewrite bind_unfold.
  destruct (choice_positions_spec (len df) n w)
    as [[? _]|(_ & idx & -> & _)]; [lia|]. by eexists _, _.
Qed.

Lemma combined_indices_Ok df w comb w' :
  NoDup (index df) →
  combined_indices df w = (Ok comb, w') →
  NoDup comb
  ∧ (∀ i, i ∈ comb → i ∈ index df)
  ∧ length comb = 100
  ∧ ∃ rest, comb = (take 1 (ranked target df)).*1 ++ rest.
Proof.
  intros Hnd. unfold combined_indices.
  intros (best & w1 & [Hbest ->]%lift_Ok & Hrun)%bind_Ok.
  apply bind_Ok in Hrun as (top & w2 & [Htop ->]%lift_Ok & Hrun).
  apply bind_Ok in Hrun as (great & w3 & Hgreat & Hrun).
  apply bind_Ok in Hrun as (extra & w4 & Hextra & [= <- <-]).
  apply nlargest_Ok in Hbest as [_ Hbest].
  apply nlargest_Ok in Htop as [_ Htop].
  apply sample_Ok in Hgreat as (_ & Hglen & Hgin & Hgnd).
  set (ranks := (ranked target df).*1) in *.
  assert (NoDup ranks) as Hranks.
  { unfold ranks. by rewrite ranked_Permutation. }
  assert (∀ i, i ∈ ranks ↔ i ∈ index df) as Hrin.
  { intros i. unfold ranks. by rewrite ranked_Permutation. }
  assert (index best = take 1 ranks) as Hb
    by (unfold index; by rewrite Hbest, fmap_take).
  assert (index (slice_from 5 top) = drop 5 (take 15 ranks)) as Hpool
    by (unfold index; simpl; by rewrite Htop, fmap_drop, fmap_take).
  rewrite Hpool in Hgin, Hgnd.
  assert (NoDup (index great)) as Hgnd'.
  { apply Hgnd. eapply sublist_NoDup; [exact Hranks|].
    etrans; [apply sublist_drop|apply sublist_take]. }
  assert (∀ i, i ∈ index great → i ∈ ranks) as Hgsub.
  { intros i Hi%Hgin. eapply elem_of_sublist; [exact Hi|].
    etrans; [apply sublist_drop|apply sublist_take]. }
  assert (NoDup (index best ++ index great)) as Hbr.
  { apply NoDup_app. split_and!; [|intros i Hi Hi'|done].
    - rewrite Hb. eapply sublist_NoDup; [exact Hranks|apply sublist_take].
    - rewrite Hb in Hi. apply Hgin in Hi'.
      exact (take_drop_take_disjoint ranks 1 5 15 i Hranks ltac:(lia) Hi Hi'). }
  assert (∀ i, i ∈ index best ++ index great → i ∈ index df) as Hbrin.
  { intros i [Hi|Hi]%elem_of_app; apply Hrin; [|by apply Hgsub].
    rewrite Hb in Hi. eapply elem_of_sublist; [exact Hi|apply sublist_take]. }
  assert (length (index best ++ index great) ≤ 100) as Hbrlen.
  { rewrite length_app, Hb, length_take, Hglen. lia. }
  destruct (np_choice_spec
              (index_difference (index df) (index best ++ index great))
              (100 - length (index best ++ index great)) w3)
    as [[_ Hr]|(_ & l & Hr & Hllen & Hlin & Hlnd)];
    rewrite Hr in Hextra; [done|]. simplify_eq.
  specialize (Hlnd (NoDup_index_difference _ _)).
  split_and!.
  - apply NoDup_app. split_and!; [done| |done].
    intros i Hi Hi'%Hlin. by apply elem_of_index_difference in Hi' as [_ ?].
  - intros i [Hi|Hi%Hlin]%elem_of_app; [by apply Hbrin|].
    by apply elem_of_index_difference in Hi as [? _].
  - rewrite length_app, Hllen. lia.
  - eexists. rewrite <-(assoc_L (++)). f_equal.
    unfold index. by rewrite Hbest.
Qed.

Lemma combined_indices_total df w :
  NoDup (index df) → 100 ≤ len df →
  (dtype_of target df = Some Float64 ∨ dtype_of target df = Some Int64) →
  ∃ comb w', combined_indices df w = (Ok comb, w').
Proof.
  intros Hnd Hlen Hdt. unfold combined_indices.
  rewrite bind_unfold. unfold lift at 1. rewrite nlargest_total by done.
  rewrite bind_unfold. unfold lift at 1. rewrite nlargest_total by done.
  rewrite bind_unfold.
  set (best := {| columns := columns df; rows := take 1 (ranked target df) |}).
  set (top := {| columns := columns df; rows := take 15 (ranked target df) |}).
  assert (length (ranked target df) = len df) as Hrk
    by by rewrite ranked_Permutation.
  destruct (sample_total 5 (slice_from 5 top) w) as (great & w1 & Hg).
  { unfold len. simpl. rewrite length_drop, length_take. lia. }
  rewrite Hg. rewrite bind_unfold.
  pose proof Hg as (_ & Hglen & Hgin & Hgnd)%sample_Ok.
  set (ranks := (ranked target df).*1) in *.
  assert (NoDup ranks) as Hranks
    by (unfold ranks; by rewrite ranked_Permutation).
  assert (∀ i, i ∈ ranks ↔ i ∈ index df) as Hrin
    by (intros i; unfold ranks; by rewrite ranked_Permutation).
  assert (index best = take 1 ranks) as Hb
    by (unfold index; simpl; by rewrite fmap_take).
  assert (index (slice_from 5 top) = drop 5 (take 15 ranks)) as Hpool
    by (unfold index; simpl; by rewrite fmap_drop, fmap_take).
  rewrite Hpool in Hgin, Hgnd.
  assert (NoDup (index best ++ index great)) as Hbr.
  { apply NoDup_app. split_and!; [|intros i Hi Hi'|].
    - rewrite Hb. eapply sublist_NoDup; [exact Hranks|apply sublist_take].
    - rewrite Hb in Hi. apply Hgin in Hi'.
      exact (take_drop_take_disjoint ranks 1 5 15 i Hranks ltac:(lia) Hi Hi').
    - apply Hgnd. eapply sublist_NoDup; [exact Hranks|].
      etrans; [apply sublist_drop|apply sublist_take]. }
  assert (∀ i, i ∈ index best ++ index great → i ∈ index df) as Hbrin.
  { intros i [Hi|Hi%Hgin]%elem_of_app; apply Hrin.
    - rewrite Hb in Hi. eapply elem_of_sublist; [exact Hi|apply sublist_take].
    - eapply elem_of_sublist; [exact Hi|].
      etrans; [apply sublist_drop|apply sublist_take]. }
  pose proof (length_index_difference (index df) _ Hnd Hbr Hbrin) as Hdiff.
  assert (length (index df) = len df) as Hil
    by (unfold index, len; apply length_fmap).
  assert (length (index best ++ index great) = 6) as Hsix.
  { rewrite length_app, Hb, length_take, Hglen.
    unfold ranks. rewrite length_fmap.
    lia. }
  destruct (np_choice_spec
              (index_difference (index df) (index best ++ index great))
              (100 - length (index best ++ index great)) w1)
    as [[? _]|(_ & l & -> & _)]; [lia|]. by eexists _, _.
Qed.

End splitter_facts.

(** ** The partition *)

Lemma index_indexed df : index (indexed df) = index df.
Proof. apply index_with_id. Qed.

Lemma len_indexed df : len (indexed df) = len df.
Proof. unfold len. simpl. apply length_fmap. Qed.

Lemma dtype_of_indexed c df :
  c ≠ "id" → dtype_of c (indexed df) = dtype_of c df.
Proof.
  intros Hc. unfold dtype_of, indexed. simpl.
  induction (columns df) as [|[c' dt'] cols IH]; simpl.
  - rewrite lookup_dtype_cons. by rewrite decide_False by done.
  - destruct (decide (c' = "id")) as [->|Hc'].
    + rewrite !lookup_dtype_cons. simpl. by rewrite !decide_False by done.
    + rewrite !lookup_dtype_cons. simpl. by rewrite IH.
Qed.

Lemma dtype_of_indexed_id df : dtype_of "id" (indexed df) = Some Int64.
Proof.
  unfold dtype_of, indexed. simpl.
  induction (columns df) as [|[c' dt'] cols IH]; simpl; [done|].
  destruct (decide (c' = "id")) as [->|Hc']; rewrite lookup_dtype_cons; simpl.
  - done.
  - by rewrite decide_False by done.
Qed.

Lemma value_at_with_id c r : c ≠ "id" → value_at c (with_id r) = value_at c r.
Proof. intros Hc. unfold value_at. simpl. by rewrite lookup_insert_ne. Qed.

Lemma split_invariants dfi comb test train :
  NoDup (index dfi) →
  Forall (λ r : row, r.2 !! "id" = id_cell r.1) (rows dfi) →
  NoDup comb →
  loc comb dfi = Ok test →
  drop_rows comb dfi = Ok train →
  index test = comb
  ∧ index train = filter (λ i, i ∉ comb) (index dfi)
  ∧ series "id" test = id_cell <$> index test
  ∧ series "id" train = id_cell <$> index train
  ∧ (( ∀ i, i ∈ comb → i ∈ index dfi) → len train + len test = len dfi)
  ∧ NoDup (series "id" train)
  ∧ NoDup (series "id" test)
  ∧ Forall (λ i, i ∉ series "id" test) (series "id" train).
Proof.
  intros Hnd Hid Hcomb Hloc Hdrop. unfold loc in Hloc.
  destruct (loc_rows comb (rows dfi)) as [rs|] eqn:Hrs; [|done].
  injection Hloc as <-. apply loc_rows_Ok in Hrs as [Hlab Hsub]; [|done].
  apply drop_rows_Ok in Hdrop as [_ Htrain].
  assert (index train = filter (λ i, i ∉ comb) (index dfi)) as Hit.
  { unfold index. rewrite Htrain. apply index_drop_labels. }
  assert (series "id" {| columns := columns dfi; rows := rs |}
          = id_cell <$> comb) as Hst.
  { unfold series. simpl. rewrite <-Hlab. apply series_id.
    apply Forall_forall. intros r Hr%Hsub.
    by eapply Forall_forall in Hid. }
  assert (series "id" train = id_cell <$> index train) as Hstr.
  { unfold series, index. apply series_id. rewrite Htrain.
    apply Forall_forall. intros r [_ Hr]%list_elem_of_filter.
    by eapply Forall_forall in Hid. }
  split_and!.
  - done.
  - done.
  - rewrite Hst. unfold index. simpl. by rewrite Hlab.
  - done.
  - intros Hin. unfold len. simpl.
    rewrite <-(length_fmap fst (rows train)), <-(length_fmap fst rs).
    rewrite <-(length_fmap fst (rows dfi)). fold (index train).
    rewrite Hit, Hlab. by apply length_drop_labels.
  - rewrite Hstr, Hit. apply (NoDup_fmap_2 _). by apply NoDup_filter.
  - rewrite Hst. by apply (NoDup_fmap_2 _).
  - rewrite Hstr, Hst, Hit. apply Forall_fmap, Forall_forall.
    intros i [Hi _]%list_elem_of_filter. simpl.
    by rewrite (list_elem_of_fmap_inj id_cell).
Qed.

Section splitter_runs.
Context {RS : RandomState} {SO : SetOrder}.

Lemma to_csv_Ok path df w u w' :
  to_csv path df w = (Ok u, w') →
  written w' = written w ++ [(path, csv_of df)]
  ∧ gen w' = gen w ∧ draws w' = draws w.
Proof. unfold to_csv. by intros [= _ <-]. Qed.

(** What a completed run of cell 6 went through. *)
Lemma splitter_Ok df w train test w' :
  splitter df w = (Ok (train, test), w') →
  ∃ comb w1 sol0 sol tst sub0 u sub,
    combined_indices (indexed df) w = (Ok comb, w1)
    ∧ loc comb (indexed df) = Ok test
    ∧ select_columns ["id"; target] test = Ok sol0
    ∧ setitem "Usage" Object (replicate (len sol0) (Str "Public")) sol0 = Ok sol
    ∧ drop_columns [target] test = Ok tst
    ∧ select_columns ["id"] test = Ok sub0
    ∧ setitem target Float64 (Float <$> u) sub0 = Ok sub
    ∧ drop_rows comb (indexed df) = Ok train
    ∧ written w'
      = written w ++ [(solution_csv, csv_of sol); (test_csv, csv_of tst);
                      (sample_submission_csv, csv_of sub)]
    ∧ len train + len test = len df
    ∧ NoDup (series "id" train)
    ∧ NoDup (series "id" test)
    ∧ Forall (λ i, i ∉ series "id" test) (series "id" train).
Proof.
  unfold splitter. rewrite setitem_id. fold (indexed df).
  intros (dfi & ? & [[= <-] ->]%lift_Ok & H)%bind_Ok.
  apply bind_Ok in H as (comb & w1 & Hcomb & H).
  apply bind_Ok in H as (test' & ? & [Hloc ->]%lift_Ok & H).
  apply bind_Ok in H as (sol0 & ? & [Hsol0 ->]%lift_Ok & H).
  apply bind_Ok in H as (sol & ? & [Hsol ->]%lift_Ok & H).
  apply bind_Ok in H as ([] & w2 & (Hw2 & _ & _)%to_csv_Ok & H).
  apply bind_Ok in H as (tst & ? & [Htst ->]%lift_Ok & H).
  apply bind_Ok in H as ([] & w3 & (Hw3 & _ & _)%to_csv_Ok & H).
  apply bind_Ok in H as (sub0 & ? & [Hsub0 ->]%lift_Ok & H).
  apply bind_Ok in H as (u & w4 & Hu & H).
  apply bind_Ok in H as (sub & ? & [Hsub ->]%lift_Ok & H).
  apply bind_Ok in H as ([] & w5 & (Hw5 & _ & _)%to_csv_Ok & H).
  apply bind_Ok in H as (train' & ? & [Hdrop ->]%lift_Ok & H).
  apply bind_Ok in H as ([] & ? & [Ha1 ->]%assert_Ok & H).
  apply bind_Ok in H as ([] & ? & [Ha2 ->]%assert_Ok & H).
  apply bind_Ok in H as ([] & ? & [Ha3 ->]%assert_Ok & H).
  apply bind_Ok in H as ([] & ? & [Ha4 ->]%assert_Ok & H).
  injection H as <- <- <-.
  exists comb, w1, sol0, sol, tst, sub0, u, sub. split_and!; try done.
  rewrite Hw5, (silent_run _ _ _ _ (silent_np_uniform _ _ _) Hu), Hw3, Hw2.
  rewrite (silent_run _ _ _ _ (silent_combined_indices _) Hcomb).
  by rewrite <-!(assoc_L (++)).
Qed.

End splitter_runs.

Lemma select_columns_total labels df :
  (∀ c, c ∈ labels → c ∈ names df) →
  ∃ d, select_columns labels df = Ok d ∧ len d = len df.
Proof.
  intros Hin. unfold select_columns.
  destruct (list_find _ _) as [[k c]|] eqn:Hf.
  - apply list_find_Some in Hf as (Hk & Hc & _). destruct Hc.
    apply Hin. by eapply list_elem_of_lookup_2.
  - eexists. split; [done|]. unfold len. simpl. apply length_fmap.
Qed.

Lemma drop_columns_total labels df :
  (∀ c, c ∈ labels → c ∈ names df) →
  ∃ d, drop_columns labels df = Ok d ∧ len d = len df.
Proof.
  intros Hin. unfold drop_columns.
  destruct (list_find _ _) as [[k c]|] eqn:Hf.
  - apply list_find_Some in Hf as (Hk & Hc & _). destruct Hc.
    apply Hin. by eapply list_elem_of_lookup_2.
  - eexists. split; [done|]. unfold len. simpl. apply length_fmap.
Qed.

Lemma setitem_total c dt vals df :
  length vals = len df → ∃ d, setitem c dt vals df = Ok d.
Proof. intros Hlen. unfold setitem. rewrite decide_True by done. by eexists. Qed.

Lemma loc_Ok labels df d :
  loc labels df = Ok d →
  columns d = columns df ∧ loc_rows labels (rows df) = Ok (rows d).
Proof.
  unfold loc. destruct (loc_rows _ _) as [rs|]; [|done]. by intros [= <-].
Qed.

Lemma loc_total labels df :
  (∀ i, i ∈ labels → i ∈ index df) → ∃ d, loc labels df = Ok d.
Proof.
  intros Hin. unfold loc.
  destruct (loc_rows_total labels (rows df) Hin) as [rs ->]. by eexists.
Qed.

Lemma names_indexed_id df : "id" ∈ names (indexed df).
Proof.
  unfold names, indexed. simpl. rewrite names_set_dtype.
  case_decide; [done|]. apply elem_of_app. right. by left.
Qed.

Lemma names_indexed c df : c ∈ names df → c ∈ names (indexed df).
Proof.
  unfold names, indexed. simpl. rewrite names_set_dtype.
  case_decide; [done|]. intros ?. apply elem_of_app. by left.
Qed.

Lemma dtype_of_names c df dt : dtype_of c df = Some dt → c ∈ names df.
Proof.
  intros Hc%dtype_of_Some. unfold names.
  apply list_elem_of_fmap. by exists (c, dt).
Qed.

Section splitter_completes.
Context {RS : RandomState} {SO : SetOrder}.

Lemma bind_lift {A B} (o : outcome A) a (f : A → M B) w :
  o = Ok a → (lift o ≫= f) w = f a w.
Proof. by intros ->. Qed.

Lemma bind_run {A B} (m : M A) a w1 (f : A → M B) w :
  m w = (Ok a, w1) → (m ≫= f) w = f a w1.
Proof. intros Hm. by rewrite bind_unfold, Hm. Qed.

Lemma bind_assert {B} (P : Prop) `{Decision P} msg (f : () → M B) w :
  P → (assert P msg ≫= f) w = f () w.
Proof. intros HP. rewrite bind_unfold. unfold assert. by rewrite decide_True. Qed.

Lemma np_uniform_total lo hi n w :
  finite_range lo hi = true →
  ∃ u w', np_uniform (Some lo) (Some hi) n w = (Ok u, w') ∧ length u = n.
Proof.
  intros Hfr. unfold np_uniform. rewrite Hfr.
  eexists _, _. split; [done|]. apply uniform_spec.
Qed.

Lemma target_values_indexed df :
  omap (value_at target) (rows (indexed df)) = omap (value_at target) (rows df).
Proof.
  simpl. induction (rows df) as [|r l IH]; [done|]. cbn.
  by rewrite value_at_with_id, IH.
Qed.

Lemma series_min_indexed df :
  series_min target (indexed df) = series_min target df.
Proof. unfold series_min. by rewrite target_values_indexed. Qed.

Lemma series_max_indexed df :
  series_max target (indexed df) = series_max target df.
Proof. unfold series_max. by rewrite target_values_indexed. Qed.

(** How cell 6 ends on a frame of at least 100 rows whose target column is
    numeric: it runs to completion when the smallest and the largest target
    value span a finite range; otherwise (no target value at all, or a
    range that is not finite) the uniform draw raises [OverflowError] after
    [solution.csv] and [test.csv] were written. *)
Lemma splitter_numeric df w :
  NoDup (index df) →
  100 ≤ len df →
  (dtype_of target df = Some Float64 ∨ dtype_of target df = Some Int64) →
  if match series_min target df, series_max target df with
     | Some lo, Some hi => finite_range lo hi
     | _, _ => false
     end
  then ∃ train test w', splitter df w = (Ok (train, test), w')
  else ∃ w', splitter df w = (Raise OverflowError, w')
             ∧ (written w').*1 = (written w).*1 ++ [solution_csv; test_csv].
Proof.
  intros Hnd Hlen Hdt.
  assert (NoDup (index (indexed df))) as Hndi by by rewrite index_indexed.
  assert (target ∈ names (indexed df)) as Htn.
  { apply names_indexed. destruct Hdt; by eapply dtype_of_names. }
  destruct (combined_indices_total (indexed df) w) as (comb & w1 & Hcomb);
    [done|by rewrite len_indexed|by rewrite dtype_of_indexed|].
  pose proof Hcomb as (Hcnd & Hcin & Hclen & _)%combined_indices_Ok; [|done].
  destruct (loc_total comb (indexed df) Hcin) as [test Hloc].
  pose proof Hloc as [Htc Htr]%loc_Ok.
  assert (names test = names (indexed df)) as Hnt by (unfold names; by rewrite Htc).
  destruct (select_columns_total ["id"; target] test) as (sol0 & Hsol0 & _).
  { intros c [->|[->|[]%elem_of_nil]%elem_of_cons]%elem_of_cons;
      rewrite Hnt; [apply names_indexed_id|done]. }
  destruct (setitem_total "Usage" Object
              (replicate (len sol0) (Str "Public")) sol0) as [sol Hsol];
    [apply length_replicate|].
  destruct (drop_columns_total [target] test) as (tst & Htst & _).
  { intros c ->%list_elem_of_singleton. by rewrite Hnt. }
  destruct (select_columns_total ["id"] test) as (sub0 & Hsub0 & Hsl).
  { intros c ->%list_elem_of_singleton. rewrite Hnt. apply names_indexed_id. }
  destruct (drop_rows_total comb (indexed df) Hcin) as [train Hdrop].
  destruct (split_invariants (indexed df) comb test train)
    as (_ & _ & _ & _ & Hsum & Hn1 & Hn2 & Hdisj);
    [done|apply with_id_cells|done..|].
  specialize (Hsum Hcin). rewrite len_indexed in Hsum.
  unfold splitter. rewrite setitem_id. fold (indexed df).
  rewrite (bind_lift _ _ _ _ eq_refl).
  rewrite (bind_run _ _ _ _ _ Hcomb).
  rewrite (bind_lift _ _ _ _ Hloc).
  rewrite (bind_lift _ _ _ _ Hsol0).
  rewrite (bind_lift _ _ _ _ Hsol).
  rewrite bind_unfold. simpl.
  rewrite (bind_lift _ _ _ _ Htst).
  rewrite bind_unfold. simpl.
  rewrite (bind_lift _ _ _ _ Hsub0).
  rewrite series_min_indexed, series_max_indexed.
  assert ((written w1).*1 = (written w).*1) as Hw1
    by by rewrite (silent_run _ _ _ _ (silent_combined_indices _) Hcomb).
  destruct (series_min target df) as [lo|], (series_max target df) as [hi|];
    [destruct (finite_range lo hi) eqn:Hfr|..].
  - match goal with |- context [(np_uniform _ _ _ ≫= _) ?w0] =>
      destruct (np_uniform_total lo hi (len test) w0 Hfr) as (u & w4 & Hu & Hul)
    end.
    rewrite (bind_run _ _ _ _ _ Hu).
    destruct (setitem_total target Float64 (Float <$> u) sub0) as [sub Hsub];
      [by rewrite length_fmap, Hul, Hsl|].
    rewrite (bind_lift _ _ _ _ Hsub).
    rewrite bind_unfold. simpl.
    rewrite (bind_lift _ _ _ _ Hdrop).
    rewrite (bind_assert _ _ _ _ Hsum).
    rewrite (bind_assert _ _ _ _ Hn1).
    rewrite (bind_assert _ _ _ _ Hn2).
    rewrite (bind_assert _ _ _ _ Hdisj).
    by eexists _, _, _.
  - rewrite bind_unfold. unfold np_uniform. rewrite Hfr. simpl.
    eexists. split; [done|]. simpl.
    by rewrite !fmap_app, Hw1, <-(assoc_L (++)).
  - rewrite bind_unfold. simpl. eexists. split; [done|]. simpl.
    by rewrite !fmap_app, Hw1, <-(assoc_L (++)).
  - rewrite bind_unfold. simpl. eexists. split; [done|]. simpl.
    by rewrite !fmap_app, Hw1, <-(assoc_L (++)).
  - rewrite bind_unfold. simpl. eexists. split; [done|]. simpl.
    by rewrite !fmap_app, Hw1, <-(assoc_L (++)).
Qed.

End splitter_completes.

(** ** Reading a column back from a written file *)
Lemma csv_column_csv_of c df :
  c ∈ names df → csv_column c (csv_of df) = default NaN <$> series c df.
Proof.
  intros Hc. unfold csv_column, csv_of, series. simpl.
  destruct (list_find_elem_of (λ h, h = c) (names df) c Hc eq_refl)
    as [[k c'] Hf].
  rewrite Hf. apply list_find_Some in Hf as (Hk & -> & _).
  rewrite <-!list_fmap_compose. apply list_fmap_ext. intros ? r _.
  unfold compose, record_of. by rewrite list_lookup_fmap, Hk.
Qed.

(** ** Column operations keep the other columns *)

Lemma fmap_zip_with_rows {B D} (h : row → D) (g : row → B → row)
    (l : list row) (k : list B) :
  (∀ x y, h (g x y) = h x) → length k = length l →
  h <$> zip_with g l k = h <$> l.
Proof.
  intros Hg. revert k. induction l as [|x l IH]; intros [|y k] ?;
    simplify_eq/=; [done|]. rewrite Hg. f_equal. by apply IH.
Qed.

Lemma setitem_Ok c dt vals df d :
  setitem c dt vals df = Ok d →
  columns d = set_dtype c dt (columns df)
  ∧ index d = index df
  ∧ ∀ c', c' ≠ c → series c' d = series c' df.
Proof.
  unfold setitem. case_decide as Hlen; [|done]. intros [= <-].
  split_and!; [done|..].
  - unfold index. simpl. by apply fmap_zip_with_rows.
  - intros c' Hc. unfold series. simpl.
    apply (fmap_zip_with_rows (λ r : row, r.2 !! c')); [|done].
    intros r v. simpl. by rewrite lookup_insert_ne.
Qed.

Lemma drop_columns_Ok labels df d :
  drop_columns labels df = Ok d →
  columns d = filter (λ cd, cd.1 ∉ labels) (columns df)
  ∧ index d = index df
  ∧ ∀ c, c ∉ labels → series c d = series c df.
Proof.
  unfold drop_columns. destruct (list_find _ _) as [[? ?]|]; [done|].
  intros [= <-]. split_and!; [done|..].
  - unfold index. simpl. rewrite <-list_fmap_compose. by apply list_fmap_ext.
  - intros c Hc. unfold series. simpl. rewrite <-list_fmap_compose.
    apply list_fmap_ext. intros ? r _. simpl. rewrite map_lookup_filter.
    destruct (r.2 !! c); simpl; [|done]. by rewrite option_guard_True.
Qed.

Lemma select_columns_Ok labels df d :
  select_columns labels df = Ok d →
  names d = labels
  ∧ index d = index df
  ∧ ∀ c, c ∈ labels → series c d = series c df.
Proof.
  unfold select_columns. destruct (list_find _ _) as [[? ?]|] eqn:Hf; [done|].
  intros [= <-]. split_and!.
  - unfold names. simpl. apply list_find_None in Hf.
    induction Hf as [|c labels Hc _ IH]; [done|]. cbn.
    destruct (dtype_of_first c df) as [dt ->]; [by apply dec_stable|].
    cbn. by rewrite IH.
  - unfold index. simpl. rewrite <-list_fmap_compose. by apply list_fmap_ext.
  - intros c Hc. unfold series. simpl. rewrite <-list_fmap_compose.
    apply list_fmap_ext. intros ? r _. simpl. rewrite map_lookup_filter.
    destruct (r.2 !! c); simpl; [|done]. by rewrite option_guard_True.
Qed.

Lemma names_drop_columns labels df d c :
  drop_columns labels df = Ok d → c ∈ names df → c ∉ labels → c ∈ names d.
Proof.
  intros (Hcols & _)%drop_columns_Ok ([c' dt] & -> & Hin)%list_elem_of_fmap Hc.
  unfold names. rewrite Hcols. apply list_elem_of_fmap. exists (c', dt).
  split; [done|]. by apply list_elem_of_filter.
Qed.

Lemma lookup_dtype_filter c (labels : list string) cols :
  c ∉ labels →
  lookup_dtype c (filter (λ cd, cd.1 ∉ labels) cols) = lookup_dtype c cols.
Proof.
  intros Hc. induction cols as [|[c' dt'] cols IH]; [done|].
  destruct (decide (c' ∉ labels)) as [Hc'|Hc'].
  - rewrite filter_cons_True by done. rewrite !lookup_dtype_cons. by rewrite IH.
  - rewrite filter_cons_False by done. rewrite lookup_dtype_cons, IH.
    rewrite decide_False; [done|]. simpl. by intros ->.
Qed.

Lemma dtype_of_drop_columns labels df d c :
  drop_columns labels df = Ok d → c ∉ labels → dtype_of c d = dtype_of c df.
Proof.
  intros (Hcols & _)%drop_columns_Ok Hc. unfold dtype_of.
  rewrite Hcols. by apply lookup_dtype_filter.
Qed.

Lemma index_read_csv ds : index (read_csv ds) = seq 0 (length (ds_records ds)).
Proof. unfold index, read_csv. simpl. apply fst_zip. by rewrite length_seq. Qed.

(** ** The files a run leaves behind *)

Section appends_facts.
Context {RS : RandomState} {SO : SetOrder}.

Lemma appends_ret {A} (a : A) (ok err : list string → Prop) :
  ok [] → appends (mret a) ok err.
Proof. intros Hok w. exists []. by rewrite app_nil_r. Qed.

Lemma appends_silent_bind {A B} (m : M A) (f : A → M B)
    (ok err : list string → Prop) :
  silent m → err [] → (∀ a, appends (f a) ok err) →
  appends (m ≫= f) ok err.
Proof.
  intros Hm Herr Hf w. rewrite bind_unfold. specialize (Hm w).
  destruct (m w) as [[a|e] w1]; simpl in *.
  - rewrite <-Hm. apply Hf.
  - exists []. by rewrite app_nil_r.
Qed.

Lemma appends_to_csv_bind {B} path df (f : () → M B)
    (ok err : list string → Prop) :
  appends (f ()) (λ ns, ok (path :: ns)) (λ ns, err (path :: ns)) →
  appends (to_csv path df ≫= f) ok err.
Proof.
  intros Hf w. rewrite bind_unfold. simpl.
  destruct (Hf {| gen := gen w;
                  written := written w ++ [(path, csv_of df)];
                  draws := draws w |}) as (fs & Hfs & Hpost).
  exists ((path, csv_of df) :: fs). split.
  - rewrite Hfs. simpl. by rewrite <-(assoc_L (++)).
  - by rewrite fmap_cons.
Qed.

Lemma appends_bind {A B} (m : M A) (f : A → M B)
    (ok err ok' err' : list string → Prop) :
  appends m ok err →
  (∀ ns, err ns → err' ns) →
  (∀ a, appends (f a) (λ ns', ∀ ns, ok ns → ok' (ns ++ ns'))
                      (λ ns', ∀ ns, ok ns → err' (ns ++ ns'))) →
  appends (m ≫= f) ok' err'.
Proof.
  intros Hm Herr Hf w. rewrite bind_unfold.
  destruct (Hm w) as (fs & Hfs & Hpost).
  destruct (m w) as [[a|e] w1]; simpl in *.
  - destruct (Hf a w1) as (fs' & Hfs' & Hpost').
    exists (fs ++ fs'). split.
    + by rewrite Hfs', Hfs, (assoc_L (++)).
    + rewrite fmap_app. destruct (f a w1) as [[b|e] w2]; simpl in *; auto.
  - exists fs. auto.
Qed.

Lemma appends_splitter df :
  appends (splitter df) (λ ns, ns = held_out_files)
    (λ ns, ns `prefix_of` held_out_files).
Proof.
  unfold splitter. cbv zeta.
  repeat first
    [ apply appends_to_csv_bind
    | apply appends_silent_bind;
        [auto with silent
        |unfold held_out_files; repeat apply prefix_cons; apply prefix_nil
        |intros ?]
    | by apply appends_ret ].
Qed.

Lemma appends_notebook ds :
  appends (notebook ds) (λ ns, ns = output_files)
    (λ ns, ns `prefix_of` held_out_files).
Proof.
  unfold notebook.
  apply appends_silent_bind; [apply silent_cleaner|apply prefix_nil|].
  intros df. eapply appends_bind; [apply appends_splitter|done|].
  intros [train test].
  apply appends_silent_bind; [apply silent_corruptor|by intros ? ->; rewrite app_nil_r|].
  intros train'. unfold persist. intros w. eexists [_]. split; [done|].
  simpl. by intros ? ->.
Qed.

Lemma series_read_csv c ds :
  series c (read_csv ds)
  = (λ rec : gmap string cell, rec !! c) <$> ds_records ds.
Proof.
  unfold series, read_csv. simpl.
  generalize 0. induction (ds_records ds) as [|rec recs IH]; intros n; [done|].
  simpl. by rewrite IH.
Qed.

Lemma cleaner_Ok ds w df w' :
  cleaner ds w = (Ok df, w') →
  w' = w
  ∧ index df = seq 0 (length (ds_records ds))
  ∧ len df = length (ds_records ds)
  ∧ dtype_of target df = lookup_dtype target (ds_columns ds)
  ∧ ∀ c, c ∉ dropped_columns →
         series c df = (λ rec : gmap string cell, rec !! c) <$> ds_records ds.
Proof.
  unfold cleaner.
  intros (d1 & ? & [H1 ->]%lift_Ok & H)%bind_Ok.
  apply bind_Ok in H as (d2 & ? & [H2 ->]%lift_Ok & [H3 ->]%lift_Ok).
  assert (index df = seq 0 (length (ds_records ds))) as Hidx.
  { apply drop_columns_Ok in H1 as (_ & E1 & _), H2 as (_ & E2 & _),
      H3 as (_ & E3 & _).
    by rewrite E3, E2, E1, index_read_csv. }
  split_and!; [done|done| | |].
  - unfold len. rewrite <-(length_fmap fst). fold (index df).
    by rewrite Hidx, length_seq.
  - rewrite (dtype_of_drop_columns _ _ _ _ H3),
      (dtype_of_drop_columns _ _ _ _ H2),
      (dtype_of_drop_columns _ _ _ _ H1); [done|..];
      apply (bool_decide_unpack _); by vm_compute.
  - intros c Hc. unfold dropped_columns in Hc.
    rewrite !not_elem_of_app in Hc. destruct Hc as (Hc1 & Hc2 & Hc3).
    apply drop_columns_Ok in H1 as (_ & _ & E1), H2 as (_ & _ & E2),
      H3 as (_ & _ & E3).
    by rewrite E3, E2, E1, series_read_csv.
Qed.

Lemma target_not_dropped : target ∉ dropped_columns.
Proof. apply (bool_decide_unpack _). by vm_compute. Qed.

(** The rows of the cleaned frame, position by position. *)
Lemma cleaner_row ds w df w' k r :
  cleaner ds w = (Ok df, w') →
  rows df !! k = Some r →
  r.1 = k ∧ targets ds !! k = Some (value_at target r).
Proof.
  intros (_ & Hidx & _ & _ & Hser)%cleaner_Ok Hr. split.
  - assert (index df !! k = Some r.1) as Hk
      by (unfold index; by rewrite list_lookup_fmap, Hr).
    rewrite Hidx in Hk. apply lookup_seq in Hk as [? _]. lia.
  - specialize (Hser target target_not_dropped).
    assert (series target df !! k = Some (r.2 !! target)) as Hk
      by (unfold series; by rewrite list_lookup_fmap, Hr).
    rewrite Hser, list_lookup_fmap in Hk. unfold targets.
    rewrite list_lookup_fmap.
    destruct (ds_records ds !! k) as [rec|]; simpl in *; [|done].
    injection Hk as Hk. unfold value_at. by rewrite Hk.
Qed.

Lemma returns_inv {A} (m : M A) w :
  is_ok (m w).1 = true → ∃ a w', m w = (Ok a, w').
Proof. destruct (m w) as [[a|e] w']; [by eexists _, _|done]. Qed.

(** A completed run went through the four stages in turn. *)
Lemma run_Ok ds w :
  run ds = (Ok (), w) →
  ∃ df w1 train test w2 train' w3,
    cleaner ds world0 = (Ok df, w1)
    ∧ splitter df w1 = (Ok (train, test), w2)
    ∧ corruptor train w2 = (Ok train', w3)
    ∧ written w = written w3 ++ [(train_csv, csv_of train')].
Proof.
  unfold run, notebook.
  intros (df & w1 & Hc & H)%bind_Ok.
  apply bind_Ok in H as ([train test] & w2 & Hs & H).
  apply bind_Ok in H as (train' & w3 & Hk & H).
  apply to_csv_Ok in H as (? & _). by eexists _, _, _, _, _, _, _.
Qed.

Lemma run_stages ds df w1 train test w2 train' w3 :
  cleaner ds world0 = (Ok df, w1) →
  splitter df w1 = (Ok (train, test), w2) →
  corruptor train w2 = (Ok train', w3) →
  ∃ w, run ds = (Ok (), w)
       ∧ written w = written w3 ++ [(train_csv, csv_of train')].
Proof.
  intros Hc Hs Hk. unfold run, notebook.
  rewrite (bind_run _ _ _ _ _ Hc), (bind_run _ _ _ _ _ Hs).
  rewrite (bind_run _ _ _ _ _ Hk). by eexists.
Qed.

End appends_facts.

(** ** What the Splitter hands over *)

Lemma names_setitem c dt vals df d c' :
  setitem c dt vals df = Ok d → c' ∈ names df → c' ∈ names d.
Proof.
  intros (Hcols & _)%setitem_Ok Hc'. unfold names. rewrite Hcols.
  rewrite names_set_dtype. case_decide; [done|]. apply elem_of_app. by left.
Qed.

Lemma fmap_default_id_cell (l : list nat) :
  default NaN <$> (id_cell <$> l) = (λ i, Int (Z.of_nat i)) <$> l.
Proof. by rewrite <-list_fmap_compose. Qed.

Section splitter_frames.
Context {RS : RandomState} {SO : SetOrder}.

Lemma splitter_frames df w train test w' :
  NoDup (index df) →
  splitter df w = (Ok (train, test), w') →
  ∃ comb fs ft fb,
    NoDup comb
    ∧ length comb = 100
    ∧ (∀ i, i ∈ comb → i ∈ index df)
    ∧ (∃ rest, comb = (take 1 (ranked target (indexed df))).*1 ++ rest)
    ∧ index test = comb
    ∧ columns train = columns (indexed df)
    ∧ rows train = filter (λ r : row, r.1 ∉ comb) (with_id <$> rows df)
    ∧ index train = filter (λ i, i ∉ comb) (index df)
    ∧ series "id" train = id_cell <$> index train
    ∧ len train + 100 = len df
    ∧ written w'
      = written w ++ [(solution_csv, fs); (test_csv, ft);
                      (sample_submission_csv, fb)]
    ∧ csv_column "id" fs = (λ i, Int (Z.of_nat i)) <$> comb
    ∧ csv_column "id" ft = (λ i, Int (Z.of_nat i)) <$> comb
    ∧ csv_column "id" fb = (λ i, Int (Z.of_nat i)) <$> comb.
Proof.
  intros Hnd (comb & w1 & sol0 & sol & tst & sub0 & u & sub & Hcomb & Hloc
              & Hsol0 & Hsol & Htst & Hsub0 & Hsub & Hdrop & Hw & _)%splitter_Ok.
  assert (NoDup (index (indexed df))) as Hndi by by rewrite index_indexed.
  apply combined_indices_Ok in Hcomb as (Hcnd & Hcin & Hclen & Hbest); [|done].
  destruct (split_invariants (indexed df) comb test train)
    as (Hit & Hitr & Hst & Hstr & Hsum & _); [done|apply with_id_cells|done..|].
  specialize (Hsum Hcin). rewrite len_indexed in Hsum.
  rewrite index_indexed in Hitr, Hcin.
  pose proof Hdrop as [Htc Htr]%drop_rows_Ok.
  pose proof Hloc as [Hlc _]%loc_Ok.
  assert ("id" ∈ names test) as Hidt.
  { unfold names. rewrite Hlc. apply names_indexed_id. }
  assert (len test = 100) as Hlt.
  { unfold len. rewrite <-(length_fmap fst). fold (index test).
    by rewrite Hit. }
  pose proof Hsol0 as (Hn0 & _ & Hs0)%select_columns_Ok.
  pose proof Hsol as (_ & _ & Hs1)%setitem_Ok.
  pose proof Htst as (_ & _ & Hs2)%drop_columns_Ok.
  pose proof Hsub0 as (Hn3 & _ & Hs3)%select_columns_Ok.
  pose proof Hsub as (_ & _ & Hs4)%setitem_Ok.
  exists comb, (csv_of sol), (csv_of tst), (csv_of sub).
  split_and!; try done.
  - lia.
  - rewrite csv_column_csv_of.
    + rewrite Hs1 by done. rewrite Hs0 by left.
      by rewrite Hst, Hit, fmap_default_id_cell.
    + eapply names_setitem; [done|]. rewrite Hn0. by left.
  - rewrite csv_column_csv_of.
    + rewrite Hs2 by by intros ?%list_elem_of_singleton.
      by rewrite Hst, Hit, fmap_default_id_cell.
    + eapply names_drop_columns; [done..|]. by intros ?%list_elem_of_singleton.
  - rewrite csv_column_csv_of.
    + rewrite Hs4 by done. rewrite Hs3 by left.
      by rewrite Hst, Hit, fmap_default_id_cell.
    + eapply names_setitem; [done|]. rewrite Hn3. by left.
Qed.

End splitter_frames.

(** ** The row with the largest target *)

Lemma sole_maximum_lookup i v ts j u :
  sole_maximum i v ts → ts !! j = Some (Some u) → j ≠ i → (u < v)%Z.
Proof.
  intros [_ Hall] Hj Hne.
  assert ((j, Some u) ∈ zip (seq 0 (length ts)) ts) as Hin.
  { apply list_elem_of_lookup. exists j. apply lookup_zip_with_Some.
    exists j, (Some u). split_and!; [done| |done].
    apply lookup_seq. split; [done|]. by eapply lookup_lt_Some. }
  eapply Forall_forall in Hall; [|exact Hin].
  destruct Hall as [?|?]; simpl in *; [done|done].
Qed.

Lemma head_app_cons {A} (x : A) (l k : list A) :
  head l = Some x → take 1 (l ++ k) = [x].
Proof. intros [l' ->]%head_Some. done. Qed.

Section best_row.
Context {RS : RandomState} {SO : SetOrder}.

Lemma best_row_label ds w df w' i v :
  cleaner ds w = (Ok df, w') →
  sole_maximum i v (targets ds) →
  (take 1 (ranked target (indexed df))).*1 = [i].
Proof.
  intros Hc Hmax. pose proof Hmax as [Hi _].
  assert (i < len df) as Hlt.
  { pose proof Hc as (_ & _ & -> & _)%cleaner_Ok.
    apply lookup_lt_Some in Hi. unfold targets in Hi.
    by rewrite length_fmap in Hi. }
  destruct (lookup_lt_is_Some_2 (rows df) i Hlt) as [r0 Hr0].
  destruct (cleaner_row _ _ _ _ _ _ Hc Hr0) as [Hlab Hval].
  rewrite Hi in Hval. injection Hval as Hval.
  unfold ranked. erewrite (head_app_cons (with_id r0)).
  { simpl. by rewrite Hlab. }
  apply sort_desc_head.
  - apply list_elem_of_filter. split.
    + rewrite value_at_with_id by done. by rewrite <-Hval.
    + simpl. apply list_elem_of_fmap_2. by eapply list_elem_of_lookup_2.
  - intros r [[u Hu] Hr]%list_elem_of_filter Hne.
    simpl in Hr. apply list_elem_of_fmap in Hr as (r' & -> & Hr').
    apply list_elem_of_lookup in Hr' as [j Hj].
    destruct (cleaner_row _ _ _ _ _ _ Hc Hj) as [Hlab' Hval'].
    rewrite !value_at_with_id in * by done.
    rewrite Hu in Hval'. rewrite Hu, <-Hval. simpl.
    eapply sole_maximum_lookup; [done..|].
    intros ->. apply Hne. f_equal. congruence.
Qed.

End best_row.

(** ** What the Corruptor hands over *)

Lemma Forall2_fmap_eq {A B C} (f : A → C) (g : B → C) l k :
  Forall2 (λ x y, f x = g y) l k → f <$> l = g <$> k.
Proof. induction 1; [done|]. rewrite !fmap_cons. by f_equal. Qed.

Section corruptor_frames.
Context {RS : RandomState} {SO : SetOrder}.

Lemma corruptor_frames df w df' w' :
  corruptor df w = (Ok df', w') →
  columns df' = columns df
  ∧ index df' = index df
  ∧ ∀ c, dtype_of c df ≠ Some Float64 → series c df' = series c df.
Proof.
  intros (sel & w1 & _ & _ & _ & _ & Hcols & Hrows)%corruptor_Ok.
  split_and!; [done|..].
  - unfold index. symmetry. apply Forall2_fmap_eq.
    eapply Forall2_impl; [exact Hrows|]. by intros r r' (-> & _).
  - intros c Hc. unfold series. symmetry. apply Forall2_fmap_eq.
    eapply Forall2_impl; [exact Hrows|]. intros r r' (_ & _ & _ & Hchg).
    destruct (decide (r'.2 !! c = r.2 !! c)) as [|Hne]; [done|].
    destruct (Hchg c Hne) as (Hin & _). destruct Hc.
    by apply float64_columns_dtype.
Qed.

End corruptor_frames.

(** ** The columns of the cleaned frame *)

Lemma names_filter_columns (labels : list string) (cols : list (string * dtype)) :
  (filter (λ cd, cd.1 ∉ labels) cols).*1 = filter (λ c, c ∉ labels) cols.*1.
Proof.
  induction cols as [|cd cols IH]; [done|]. rewrite fmap_cons.
  destruct (decide (cd.1 ∉ labels)).
  - rewrite !filter_cons_True by done. by rewrite fmap_cons, IH.
  - by rewrite !filter_cons_False by done.
Qed.

Lemma filter_not_elem_of_app (l1 l2 ns : list string) :
  filter (λ c, c ∉ l2) (filter (λ c, c ∉ l1) ns)
  = filter (λ c, c ∉ l1 ++ l2) ns.
Proof.
  induction ns as [|c ns IH]; [done|].
  destruct (decide (c ∈ l1)) as [H1|H1].
  - rewrite (filter_cons_False (λ c, c ∉ l1)) by auto.
    rewrite (filter_cons_False (λ c, c ∉ l1 ++ l2)); [done|].
    rewrite elem_of_app. auto.
  - rewrite (filter_cons_True (λ c, c ∉ l1)) by done.
    destruct (decide (c ∈ l2)) as [H2|H2].
    + rewrite (filter_cons_False (λ c, c ∉ l2)) by auto.
      rewrite (filter_cons_False (λ c, c ∉ l1 ++ l2)); [done|].
      rewrite elem_of_app. auto.
    + rewrite (filter_cons_True (λ c, c ∉ l2)) by done.
      rewrite (filter_cons_True (λ c, c ∉ l1 ++ l2)); [by rewrite IH|].
      rewrite elem_of_app. by intros [?|?].
Qed.

Section cleaner_names.
Context {RS : RandomState} {SO : SetOrder}.

Lemma cleaner_names ds w df w' :
  cleaner ds w = (Ok df, w') →
  names df = filter (λ c, c ∉ dropped_columns) (ds_columns ds).*1.
Proof.
  unfold cleaner.
  intros (d1 & ? & [H1 ->]%lift_Ok & H)%bind_Ok.
  apply bind_Ok in H as (d2 & ? & [H2 ->]%lift_Ok & [H3 ->]%lift_Ok).
  apply drop_columns_Ok in H1 as (E1 & _), H2 as (E2 & _), H3 as (E3 & _).
  unfold names. rewrite E3, E2, E1, !names_filter_columns.
  by rewrite !filter_not_elem_of_app.
Qed.

End cleaner_names.

Lemma run_returns `{RandomState} `{SetOrder} ds :
  is_ok (run ds).1 = true → run ds = (Ok (), (run ds).2).
Proof. by destruct (run ds) as [[[]|e] w]. Qed.

(** ** Counting the corrupted rows *)

Lemma length_filter_Forall2 {A B} (P : A → Prop) (Q : B → Prop)
    `{∀ x, Decision (P x)} `{∀ y, Decision (Q y)} l k :
  Forall2 (λ x y, P x ↔ Q y) l k →
  length (filter P l) = length (filter Q k).
Proof.
  induction 1 as [|x y l k Hxy _ IH]; [done|].
  destruct (decide (P x)) as [HP|HP].
  - rewrite !filter_cons_True by tauto. simpl. by rewrite IH.
  - rewrite !filter_cons_False by tauto. done.
Qed.

Lemma length_filter_fmap {A B} (g : A → B) (Q : B → Prop)
    `{∀ y, Decision (Q y)} (l : list A) :
  length (filter Q (g <$> l)) = length (filter (λ x, Q (g x)) l).
Proof.
  induction l as [|x l IH]; [done|]. rewrite fmap_cons.
  destruct (decide (Q (g x))).
  - rewrite !filter_cons_True by done. simpl. by rewrite IH.
  - by rewrite !filter_cons_False by done.
Qed.

Lemma length_filter_selected (sel idx : list nat) :
  NoDup sel → NoDup idx → (∀ i, i ∈ sel → i ∈ idx) →
  length (filter (λ i, i ∈ sel) idx) = length sel.
Proof.
  intros Hs Hi Hsub. apply Permutation_length.
  apply NoDup_Permutation; [by apply NoDup_filter|done|].
  intros i. rewrite list_elem_of_filter. split; [by intros [? _]|auto].
Qed.

Lemma elem_of_record_of cols (r : row) c :
  c ∈ cols → default NaN (r.2 !! c) ∈ record_of cols r.
Proof.
  intros Hc. unfold record_of.
  by apply (list_elem_of_fmap_2 (λ c, default NaN (r.2 !! c))).
Qed.

Lemma float64_columns_select c df :
  c ∈ select_dtypes_exclude Float64 df ↔
  ∃ dt, (c, dt) ∈ columns df ∧ dt ≠ Float64.
Proof.
  unfold select_dtypes_exclude. rewrite list_elem_of_fmap. split.
  - intros ([c' dt] & -> & [? ?]%list_elem_of_filter). by exists dt.
  - intros (dt & ? & ?). exists (c, dt). split; [done|].
    by apply list_elem_of_filter.
Qed.

Section observe.
Context {RS : RandomState} {SO : SetOrder}.

Lemma after_split_Ok {A} ds (f : DataFrame → DataFrame → DataFrame → A)
    w a w' :
  after_split ds f w = (Ok a, w') →
  ∃ df w1 train test,
    cleaner ds w = (Ok df, w1)
    ∧ splitter df w1 = (Ok (train, test), w')
    ∧ a = f df train test.
Proof.
  unfold after_split. intros (df & w1 & Hc & H)%bind_Ok.
  apply bind_Ok in H as ([train test] & w2 & Hs & [= <- <-]).
  by exists df, w1, train, test.
Qed.

Lemma after_corruption_Ok {A} ds (f : DataFrame → DataFrame → DataFrame → A)
    w a w' :
  after_corruption ds f w = (Ok a, w') →
  ∃ df w1 train test w2 train',
    cleaner ds w = (Ok df, w1)
    ∧ splitter df w1 = (Ok (train, test), w2)
    ∧ corruptor train w2 = (Ok train', w')
    ∧ a = f df train train'.
Proof.
  unfold after_corruption. intros (df & w1 & Hc & H)%bind_Ok.
  apply bind_Ok in H as ([train test] & w2 & Hs & H).
  apply bind_Ok in H as (train' & w3 & Hk & [= <- <-]).
  by exists df, w1, train, test, w2, train'.
Qed.

(** The rows of the training frame come from complete records. *)
Lemma training_rows_complete ds df w1 train test w2 :
  cleaner ds world0 = (Ok df, w1) →
  splitter df w1 = (Ok (train, test), w2) →
  complete ds →
  Forall (λ r : row, ¬ has_missing (record_of (names train) r)) (rows train).
Proof.
  intros Hc Hs Hfull.
  pose proof Hc as (_ & Hidx & _ & _ & Hser)%cleaner_Ok.
  pose proof (cleaner_names _ _ _ _ Hc) as Hnames.
  pose proof Hs
    as (comb & fs & ft & fb & _ & _ & _ & _ & _ & Htc & Htr & _)%splitter_frames;
    [|rewrite Hidx; apply NoDup_seq].
  rewrite Htr. apply Forall_forall.
  intros r [_ (r0 & -> & Hr0)%list_elem_of_fmap]%list_elem_of_filter.
  apply list_elem_of_lookup in Hr0 as [j Hj].
  unfold has_missing, record_of.
  intros (c & Hcell & Hcn)%list_elem_of_fmap.
  unfold names in Hcn. rewrite Htc in Hcn. simpl in Hcn.
  rewrite names_set_dtype in Hcn. simpl in Hcell.
  destruct (decide (c = "id")) as [->|Hid].
  { by rewrite lookup_insert_eq in Hcell. }
  rewrite lookup_insert_ne in Hcell by done.
  assert (c ∈ names df) as Hcdf.
  { case_decide; [done|]. apply elem_of_app in Hcn as [?|?%list_elem_of_singleton];
      done. }
  assert (c ∉ dropped_columns) as Hkeep.
  { rewrite Hnames in Hcdf. by apply list_elem_of_filter in Hcdf as [? _]. }
  assert (series c df !! j = Some (r0.2 !! c)) as Hsj
    by (unfold series; by rewrite list_lookup_fmap, Hj).
  rewrite (Hser c Hkeep), list_lookup_fmap in Hsj.
  destruct (ds_records ds !! j) as [rec|] eqn:Hrec; [|done].
  injection Hsj as Hsj. rewrite <-Hsj in Hcell.
  eapply Forall_forall in Hfull; [|by eapply list_elem_of_lookup_2].
  eapply Forall_forall in Hfull; [by apply Hfull|].
  unfold kept_columns. by rewrite <-Hnames.
Qed.

End observe.

Lemma length_filter_labels (sel : list nat) (rs : list row) :
  length (filter (λ r : row, r.1 ∈ sel) rs)
  = length (filter (λ i, i ∈ sel) rs.*1).
Proof.
  induction rs as [|r rs IH]; [done|]. rewrite fmap_cons.
  destruct (decide (r.1 ∈ sel)).
  - rewrite !filter_cons_True by done. simpl. by rewrite IH.
  - by rewrite !filter_cons_False by done.
Qed.

(** ** The draws of the loop of cell 7 *)

Lemma loop_draws_S k n m :
  loop_draws (S k) n m
  = [DrawBinomial n (1 # 10)%Q; DrawPermutation m] ++ loop_draws k n m.
Proof. done. Qed.

Section corruptor_trace.
Context {RS : RandomState} {SO : SetOrder}.

Lemma corrupt_rows_trace cols sel df w df' w' :
  corrupt_rows cols sel df w = (Ok df', w') →
  draws w' = draws w
             ++ loop_draws (length sel) (length (columns df)) (length cols).
Proof.
  revert df w. induction sel as [|idx sel IH]; intros df w Hrun.
  - injection Hrun as <- <-. by rewrite app_nil_r.
  - simpl in Hrun. rewrite bind_unfold in Hrun.
    destruct (corrupt_row_spec cols df idx w)
      as [[_ Hr]|(_ & nc & Hr & _)]; rewrite Hr in Hrun; [done|].
    apply IH in Hrun. rewrite Hrun. cbn [length]. rewrite loop_draws_S.
    rewrite !draws_log. cbn [columns loc_set]. by rewrite <-!(assoc_L (++)).
Qed.

Lemma corruptor_trace df w df' w' :
  corruptor df w = (Ok df', w') →
  draws w' = draws w
             ++ DrawPermutation (len df)
                :: loop_draws (len df / 8) (length (columns df))
                     (length (float64_columns df)).
Proof.
  unfold corruptor. intros (sel & w1 & Hsel & Hrun)%bind_Ok.
  destruct (nan_indices_spec df w) as [[_ Hr]|(sel' & Hr & Hlen & _)];
    rewrite Hr in Hsel; [done|]. injection Hsel as <- <-.
  apply corrupt_rows_trace in Hrun. rewrite Hrun, draws_log, Hlen.
  by rewrite <-(assoc_L (++)).
Qed.

End corruptor_trace.

(** ** How cell 6 ends *)

Lemma omap_id_fmap {A B} (f : A → option B) (l : list A) :
  omap id (f <$> l) = omap f l.
Proof.
  induction l as [|x l IH]; [done|]. cbn. rewrite IH. by destruct (f x).
Qed.

Section splitter_ends.
Context {RS : RandomState} {SO : SetOrder}.

Lemma splitter_raise_combined df w e w' :
  combined_indices (indexed df) w = (Raise e, w') →
  splitter df w = (Raise e, w').
Proof.
  intros Hcomb. unfold splitter. rewrite setitem_id. fold (indexed df).
  by rewrite (bind_lift _ _ _ _ eq_refl), bind_unfold, Hcomb.
Qed.

Lemma combined_indices_no_column df w :
  dtype_of target df = None →
  combined_indices df w = (Raise (KeyError (Col target)), w).
Proof.
  intros Hdt. unfold combined_indices, nlargest. by rewrite Hdt.
Qed.

Lemma combined_indices_object df w :
  dtype_of target df = Some Object →
  combined_indices df w = (Raise TypeError, w).
Proof.
  intros Hdt. unfold combined_indices, nlargest. by rewrite Hdt.
Qed.

(** The target values of the cleaned frame are those of the file. *)
Lemma cleaner_target_values ds w df w' :
  cleaner ds w = (Ok df, w') →
  omap (value_at target) (rows df) = omap id (targets ds).
Proof.
  intros Hc. rewrite <-omap_id_fmap. f_equal.
  pose proof Hc as (_ & _ & Hlen & _)%cleaner_Ok.
  apply list_eq. intros k. rewrite list_lookup_fmap.
  destruct (rows df !! k) as [r|] eqn:Hr; simpl.
  - by destruct (cleaner_row _ _ _ _ _ _ Hc Hr) as [_ ->].
  - symmetry. apply lookup_ge_None. apply lookup_ge_None in Hr.
    unfold targets. rewrite length_fmap. unfold len in Hlen. lia.
Qed.

Lemma cleaner_target_range ds w df w' :
  cleaner ds w = (Ok df, w') →
  series_min target df = fst <$> target_range ds
  ∧ series_max target df = snd <$> target_range ds.
Proof.
  intros Hc. unfold series_min, series_max, target_range.
  rewrite (cleaner_target_values _ _ _ _ Hc).
  by destruct (omap id (targets ds)).
Qed.

(** Cell 6 on the cleaned frame of a file of at least 100 records whose
    target column is numeric. *)
Lemma cleaner_splitter_numeric ds df w1 :
  cleaner ds world0 = (Ok df, w1) →
  100 ≤ length (ds_records ds) →
  numeric_target ds →
  if match target_range ds with
     | Some (lo, hi) => finite_range lo hi
     | None => false
     end
  then ∃ train test w2, splitter df w1 = (Ok (train, test), w2)
  else ∃ w2, splitter df w1 = (Raise OverflowError, w2)
             ∧ (written w2).*1 = (written w1).*1 ++ [solution_csv; test_csv].
Proof.
  intros Hc HN Hnum.
  pose proof Hc as (_ & Hidx & Hlen & Hdt & _)%cleaner_Ok.
  pose proof (cleaner_target_range _ _ _ _ Hc) as [Hlo Hhi].
  pose proof (splitter_numeric df w1) as H.
  rewrite Hlo, Hhi in H.
  destruct (target_range ds) as [[lo hi]|]; simpl in H; apply H;
    try (rewrite Hidx; apply NoDup_seq); try lia; by rewrite Hdt.
Qed.

(** Cell 6 on the cleaned frame of such a file never fails an assertion. *)
Lemma cleaner_splitter_raises ds df w1 e w2 :
  cleaner ds world0 = (Ok df, w1) →
  100 ≤ length (ds_records ds) →
  splitter df w1 = (Raise e, w2) →
  library_error e.
Proof.
  intros Hc HN Hs.
  pose proof Hc as (_ & _ & _ & Hdt & _)%cleaner_Ok.
  assert (dtype_of target (indexed df) = lookup_dtype target (ds_columns ds))
    as Hdti by by rewrite dtype_of_indexed.
  destruct (lookup_dtype target (ds_columns ds)) as [[| |]|] eqn:Hdt'.
  - pose proof (cleaner_splitter_numeric ds df w1 Hc HN (or_introl Hdt')) as H.
    destruct (match target_range ds with
              | Some (lo, hi) => finite_range lo hi
              | None => false
              end).
    + destruct H as (? & ? & ? & H). by rewrite H in Hs.
    + destruct H as (? & H & _). rewrite H in Hs. by injection Hs as <- _.
  - pose proof (cleaner_splitter_numeric ds df w1 Hc HN (or_intror Hdt')) as H.
    destruct (match target_range ds with
              | Some (lo, hi) => finite_range lo hi
              | None => false
              end).
    + destruct H as (? & ? & ? & H). by rewrite H in Hs.
    + destruct H as (? & H & _). rewrite H in Hs. by injection Hs as <- _.
  - rewrite (splitter_raise_combined _ _ _ _
               (combined_indices_object _ _ Hdti)) in Hs.
    by injection Hs as <- _.
  - rewrite (splitter_raise_combined _ _ _ _
               (combined_indices_no_column _ _ Hdti)) in Hs.
    by injection Hs as <- _.
Qed.

End splitter_ends.

(** * The claims *)

(** The run of the notebook on the small dataset with the quiet generator
    completes; the stages it went through are used by the instances
    below. *)
Lemma quiet_run_returns :
  @run quiet ElementsOrder demo
  = (Ok (), (@run quiet ElementsOrder demo).2).
Proof. apply run_returns. vm_compute. reflexivity. Qed.

Lemma demo_sole_maximum : sole_maximum 30 100 (targets demo).
Proof.
  split; [vm_compute; reflexivity|].
  apply (bool_decide_unpack _). vm_compute. constructor.
Qed.

Lemma demo_complete : complete demo.
Proof. apply (bool_decide_unpack _). vm_compute. constructor. Qed.

Section partition.
Context {RS : RandomState} {SO : SetOrder}.

(** C5.  On a table of at least 100 rows, a run of the Splitter leaves
    Training and HeldOut with row counts that add up to the row count of the
    cleaned table, with duplicate-free [id]s on each side and no [id] on
    both sides.  The assertions that check this in cell 6 never fail: a
    Splitter that stops does so in pandas or numpy.  With a numeric target
    column the Splitter runs to completion exactly when the smallest and
    the largest target value of the file span a range that
    [np.random.uniform] accepts; without a target value, or with a range
    that is not finite, it stops with [OverflowError]. *)
Theorem splitter_partition (ds : dataset) (df : DataFrame) (w1 : world) :
  cleaner ds world0 = (Ok df, w1) →
  100 ≤ length (ds_records ds) →
  (∀ train test w2,
     splitter df w1 = (Ok (train, test), w2) →
     len train + len test = length (ds_records ds)
     ∧ NoDup (series "id" train)
     ∧ NoDup (series "id" test)
     ∧ ∀ i, i ∈ series "id" train → i ∉ series "id" test)
  ∧ (∀ e w2, splitter df w1 = (Raise e, w2) → library_error e)
  ∧ (numeric_target ds →
     match target_range ds with
     | Some (lo, hi) =>
         if finite_range lo hi
         then ∃ train test w2, splitter df w1 = (Ok (train, test), w2)
         else ∃ w2, splitter df w1 = (Raise OverflowError, w2)
     | None => ∃ w2, splitter df w1 = (Raise OverflowError, w2)
     end).
Proof.
  intros Hc HN. pose proof Hc as (_ & Hidx & Hlen & Hdt & _)%cleaner_Ok.
  split_and!.
  - intros train test w2
      (comb & ? & ? & ? & ? & ? & ? & ? & _ & _ & _ & _ & _ & _ & _ & _ & _
       & Hsum & Hn1 & Hn2 & Hdisj)%splitter_Ok.
    rewrite <-Hlen. split_and!; [done..|]. by apply Forall_forall.
  - intros e w2. by apply (cleaner_splitter_raises ds).
  - intros Hnum.
    pose proof (cleaner_splitter_numeric ds df w1 Hc HN Hnum) as H.
    destruct (target_range ds) as [[lo hi]|];
      [destruct (finite_range lo hi)|]; [done|..];
      destruct H as (w2 & H & _); by exists w2.
Qed.

End partition.

Lemma splitter_partition_witness :
  ∃ df w1 train test w2,
    @cleaner quiet demo world0 = (Ok df, w1)
    ∧ @splitter quiet df w1 = (Ok (train, test), w2)
    ∧ len train + len test = length (ds_records demo)
    ∧ NoDup (series "id" train)
    ∧ NoDup (series "id" test)
    ∧ ∀ i, i ∈ series "id" train → i ∉ series "id" test.
Proof.
  destruct (returns_inv (@cleaner quiet demo) world0) as (df & w1 & Hc);
    [vm_compute; reflexivity|].
  destruct (@splitter_partition quiet demo df w1 Hc) as (Hinv & _ & Hrun);
    [vm_compute; lia|].
  assert (numeric_target demo) as Hnum by (left; vm_compute; reflexivity).
  specialize (Hrun Hnum).
  replace (target_range demo) with (Some (0, 100)%Z) in Hrun
    by (vm_compute; reflexivity).
  replace (@finite_range quiet 0 100) with true in Hrun
    by (vm_compute; reflexivity).
  destruct Hrun as (train & test & w2 & Hs).
  exists df, w1, train, test, w2.
  split; [exact Hc|]. split; [exact Hs|]. exact (Hinv train test w2 Hs).
Defined.

Section outputs.
Context {RS : RandomState} {SO : SetOrder}.

(** C2 (amended).  The written [train.csv] has the columns of the cleaned
    table (the feature columns and the target, in file order) and, after
    them, the [id] column that cell 6 adds to the frame; [id] stays in its
    place if the cleaned table already had a column of that name. *)
Theorem train_csv_columns (ds : dataset) (w : world) :
  run ds = (Ok (), w) →
  ∃ f,
    last (written w) = Some (train_csv, f)
    ∧ header f
      = if decide ("id" ∈ kept_columns ds) then kept_columns ds
        else kept_columns ds ++ ["id"].
Proof.
  intros (df & w1 & train & test & w2 & train' & w3 & Hc & Hs & Hk
          & Hw)%run_Ok.
  exists (csv_of train'). split; [by rewrite Hw, last_snoc|].
  pose proof Hc as (_ & Hidx & _)%cleaner_Ok.
  apply splitter_frames in Hs
    as (comb & fs & ft & fb & _ & _ & _ & _ & _ & Htc & _);
    [|rewrite Hidx; apply NoDup_seq].
  apply corruptor_frames in Hk as (Hkc & _).
  unfold kept_columns. rewrite <-(cleaner_names _ _ _ _ Hc).
  unfold csv_of. simpl. unfold names. rewrite Hkc, Htc. simpl.
  apply names_set_dtype.
Qed.

(** C8 (amended).  The files are written in the order [solution.csv],
    [test.csv], [sample_submission.csv], [train.csv] and a failure leaves
    the files written before it: whatever the run does, the files it leaves
    are a prefix of that order, all four exactly when it completes.  A
    missing schema column, or a failed sampling step while the held-out rows
    are chosen, stops the run with no file written; a failure in the
    Corruptor stops it with the three held-out files written and no
    [train.csv]. *)
Theorem outputs_on_failure (ds : dataset) :
  let '(res, w) := run ds in
  match res with
  | Ok _ => (written w).*1 = output_files
  | Raise _ => (written w).*1 `prefix_of` held_out_files
  end
  ∧ (∀ e w1, cleaner ds world0 = (Raise e, w1) →
             res = Raise e ∧ written w = [])
  ∧ (∀ df w1 e w2,
       cleaner ds world0 = (Ok df, w1) →
       combined_indices (indexed df) w1 = (Raise e, w2) →
       res = Raise e ∧ written w = [])
  ∧ (∀ df w1 train test w2 e w3,
       cleaner ds world0 = (Ok df, w1) →
       splitter df w1 = (Ok (train, test), w2) →
       corruptor train w2 = (Raise e, w3) →
       res = Raise e ∧ (written w).*1 = held_out_files).
Proof.
  destruct (run ds) as [res w] eqn:Hrun. split_and!.
  - destruct (appends_notebook ds world0) as (fs & Hfs & Hpost).
    unfold run in Hrun. rewrite Hrun in Hfs, Hpost. simpl in *.
    rewrite Hfs. done.
  - intros e w1 Hc. unfold run, notebook in Hrun.
    rewrite bind_unfold, Hc in Hrun. injection Hrun as <- <-.
    split; [done|]. by rewrite (silent_run _ _ _ _ (silent_cleaner _) Hc).
  - intros df w1 e w2 Hc Hcomb. unfold run, notebook in Hrun.
    rewrite (bind_run _ _ _ _ _ Hc), bind_unfold in Hrun.
    unfold splitter in Hrun. rewrite setitem_id in Hrun.
    fold (indexed df) in Hrun.
    rewrite (bind_lift _ _ _ _ eq_refl), bind_unfold, Hcomb in Hrun.
    injection Hrun as <- <-. split; [done|].
    rewrite (silent_run _ _ _ _ (silent_combined_indices _) Hcomb).
    by rewrite (silent_run _ _ _ _ (silent_cleaner _) Hc).
  - intros df w1 train test w2 e w3 Hc Hs Hk. unfold run, notebook in Hrun.
    rewrite (bind_run _ _ _ _ _ Hc), (bind_run _ _ _ _ _ Hs) in Hrun.
    rewrite bind_unfold, Hk in Hrun. injection Hrun as <- <-.
    split; [done|].
    rewrite (silent_run _ _ _ _ (silent_corruptor _) Hk).
    destruct (appends_splitter df w1) as (fs & Hfs & Hpost).
    rewrite Hs in Hfs, Hpost. simpl in *.
    rewrite Hfs, (silent_run _ _ _ _ (silent_cleaner _) Hc). by simpl.
Qed.

End outputs.
(** C2, counterexample: the [train.csv] of a run on the small dataset has
    the [id] column after the three features and the target. *)
Lemma train_csv_keeps_id :
  ∃ f,
    last (written (@run quiet ElementsOrder demo).2) = Some (train_csv, f)
    ∧ header f
      = ["voidFraction"; "density"; "num_carbon"; "highUptake_mol"; "id"]
    ∧ "id" ∈ header f.
Proof.
  eexists. split; [vm_compute; reflexivity|]. split; [done|].
  apply (bool_decide_unpack _). by vm_compute.
Qed.

Lemma train_csv_columns_witness :
  ∃ f,
    last (written (@run quiet ElementsOrder demo).2) = Some (train_csv, f)
    ∧ header f
      = ["voidFraction"; "density"; "num_carbon"; "highUptake_mol"; "id"].
Proof.
  apply (@train_csv_columns quiet ElementsOrder demo).
  exact quiet_run_returns.
Defined.

(** C8, counterexample: a run that fails in the Corruptor has written
    three of the four files. *)
Lemma held_out_files_without_train :
  (@run greedy ElementsOrder demo).1 = Raise ValueError
  ∧ (written (@run greedy ElementsOrder demo).2).*1
    = [solution_csv; test_csv; sample_submission_csv].
Proof. by vm_compute. Qed.

Lemma outputs_on_failure_witness :
  ∃ df w1 train test w2 e w3,
    @cleaner greedy demo world0 = (Ok df, w1)
    ∧ @splitter greedy df w1 = (Ok (train, test), w2)
    ∧ @corruptor greedy ElementsOrder train w2 = (Raise e, w3)
    ∧ (@run greedy ElementsOrder demo).1 = Raise e
    ∧ (written (@run greedy ElementsOrder demo).2).*1 = held_out_files.
Proof.
  destruct (returns_inv (@cleaner greedy demo ≫= @splitter greedy) world0)
    as ([train test] & w2 & (df & w1 & Hc & Hs)%bind_Ok); [by vm_compute|].
  destruct (@corruptor greedy ElementsOrder train w2) as [[train'|e] w3] eqn:Hk.
  { destruct (run_stages _ _ _ _ _ _ _ _ Hc Hs Hk) as (w & Hrun & _).
    assert (is_ok (@run greedy ElementsOrder demo).1 = false) as Hno
      by by vm_compute.
    by rewrite Hrun in Hno. }
  exists df, w1, train, test, w2, e, w3. split_and!; [done..| |].
  all: pose proof (@outputs_on_failure greedy ElementsOrder demo) as H.
  all: destruct (@run greedy ElementsOrder demo) as [res w].
  all: destruct H as (_ & _ & _ & H).
  all: by destruct (H _ _ _ _ _ _ _ Hc Hs Hk).
Defined.
Section held_out.
Context {RS : RandomState} {SO : SetOrder}.

(** C7.  When one record alone carries the largest target value, every
    completed run of the Splitter (which takes a table of at least 100
    rows) has the [id] of that record in [solution.csv] and in [test.csv];
    the training frame, and the [train.csv] any completed run writes from
    it, do not have it. *)
Theorem best_row_held_out (ds : dataset) (df : DataFrame) (w1 : world)
    (train test : DataFrame) (w2 : world) (i : nat) (v : Z) :
  cleaner ds world0 = (Ok df, w1) →
  splitter df w1 = (Ok (train, test), w2) →
  sole_maximum i v (targets ds) →
  100 ≤ length (ds_records ds)
  ∧ (∃ fs ft fb,
       written w2 = [(solution_csv, fs); (test_csv, ft);
                     (sample_submission_csv, fb)]
       ∧ Int (Z.of_nat i) ∈ csv_column "id" fs
       ∧ Int (Z.of_nat i) ∈ csv_column "id" ft)
  ∧ ∀ train' w3,
      corruptor train w2 = (Ok train', w3) →
      ∃ w f,
        run ds = (Ok (), w)
        ∧ written w = written w2 ++ [(train_csv, f)]
        ∧ Int (Z.of_nat i) ∉ csv_column "id" f.
Proof.
  intros Hc Hs Hmax.
  pose proof Hc as (_ & Hidx & Hlen & _)%cleaner_Ok.
  pose proof Hs
    as (comb & fs & ft & fb & Hnd & Hclen & Hcin & [rest Hbest] & _ & Htc
        & _ & Hit & Hst & Hsum & Hw & Hfs & Hft & _)%splitter_frames;
    [|rewrite Hidx; apply NoDup_seq].
  rewrite (best_row_label _ _ _ _ _ _ Hc Hmax) in Hbest.
  assert (i ∈ comb) as Hi by (rewrite Hbest; by left).
  rewrite (silent_run _ _ _ _ (silent_cleaner _) Hc) in Hw. simpl in Hw.
  split_and!.
  - rewrite <-Hlen. lia.
  - exists fs, ft, fb. rewrite Hfs, Hft.
    split_and!; [done|by apply (list_elem_of_fmap_2 (λ j, Int (Z.of_nat j)))..].
  - intros train' w3 Hk.
    destruct (run_stages _ _ _ _ _ _ _ _ Hc Hs Hk) as (w & Hrun & Hww).
    exists w, (csv_of train'). split; [done|].
    rewrite Hww, (silent_run _ _ _ _ (silent_corruptor _) Hk).
    split; [done|].
    apply corruptor_frames in Hk as (Hkc & _ & Hser).
    assert ("id" ∈ names train') as Hid.
    { unfold names. rewrite Hkc, Htc. apply names_indexed_id. }
    rewrite (csv_column_csv_of _ _ Hid), Hser, Hst, Hit, fmap_default_id_cell.
    + intros (j & [= Hj] & [Hjc _]%list_elem_of_filter)%list_elem_of_fmap.
      apply Hjc. by replace j with i by lia.
    + unfold dtype_of. rewrite Htc.
      change (lookup_dtype "id" (columns (indexed df)))
        with (dtype_of "id" (indexed df)).
      by rewrite dtype_of_indexed_id.
Qed.

End held_out.

Lemma best_row_held_out_witness :
  ∃ (w2 w : @world quiet) f,
    (∃ fs ft fb,
       written w2 = [(solution_csv, fs); (test_csv, ft);
                     (sample_submission_csv, fb)]
       ∧ Int 30 ∈ csv_column "id" fs
       ∧ Int 30 ∈ csv_column "id" ft)
    ∧ @run quiet ElementsOrder demo = (Ok (), w)
    ∧ written w = written w2 ++ [(train_csv, f)]
    ∧ Int 30 ∉ csv_column "id" f.
Proof.
  destruct (run_Ok _ _ quiet_run_returns)
    as (df & w1 & train & test & w2 & train' & w3 & Hc & Hs & Hk & _).
  destruct (@best_row_held_out quiet ElementsOrder demo df w1 train test w2
              30 100 Hc Hs demo_sole_maximum) as (_ & Hheld & Htrain).
  destruct (Htrain train' w3 Hk) as (w & f & ? & ? & ?).
  exists w2, w, f.
  split; [exact Hheld|].
  split; [assumption|].
  split; assumption.
Defined.
Section order.
Context {RS : RandomState} {SO : SetOrder}.

(** C10.  The records of [train.csv] are records of the cleaned table in
    their original relative order: their [id]s are the positions
    [kept] of those records, in increasing order, and the record written
    for position [i] holds in every other column the cell of cleaned record
    [i] or the missing-value marker. *)
Theorem train_csv_order (ds : dataset) (w : world) :
  run ds = (Ok (), w) →
  ∃ df w1 f kept,
    cleaner ds world0 = (Ok df, w1)
    ∧ last (written w) = Some (train_csv, f)
    ∧ kept `sublist_of` seq 0 (length (ds_records ds))
    ∧ csv_column "id" f = (λ i, Int (Z.of_nat i)) <$> kept
    ∧ ∀ c, c ∈ names df → c ≠ "id" →
        Forall2 (λ x i, x = NaN ∨ csv_column c (csv_of df) !! i = Some x)
          (csv_column c f) kept.
Proof.
  intros (df & w1 & train & test & w2 & train' & w3 & Hc & Hs & Hk
          & Hw)%run_Ok.
  pose proof Hc as (_ & Hidx & _)%cleaner_Ok.
  pose proof Hs
    as (comb & fs & ft & fb & _ & _ & _ & _ & _ & Htc & Htr & Hit & Hst
        & _)%splitter_frames; [|rewrite Hidx; apply NoDup_seq].
  pose proof Hk as (Hkc & Hki & Hser)%corruptor_frames.
  pose proof Hk as (sel & ? & _ & _ & _ & _ & _ & Hrows)%corruptor_Ok.
  assert (∀ c, c ∈ names df → c ∈ names train') as Hnames.
  { intros c Hcn. unfold names. rewrite Hkc, Htc. by apply names_indexed. }
  exists df, w1, (csv_of train'), (index train).
  split_and!; [done|by rewrite Hw, last_snoc| | |].
  - rewrite Hit, Hidx. apply sublist_filter.
  - rewrite csv_column_csv_of, Hser, Hst, fmap_default_id_cell; [done| |].
    + unfold dtype_of. rewrite Htc.
      change (lookup_dtype "id" (columns (indexed df)))
        with (dtype_of "id" (indexed df)).
      by rewrite dtype_of_indexed_id.
    + unfold names. rewrite Hkc, Htc. apply names_indexed_id.
  - intros c Hcn Hcid.
    rewrite (csv_column_csv_of c train' (Hnames c Hcn)).
    rewrite (csv_column_csv_of c df Hcn).
    unfold series, index. rewrite <-list_fmap_compose.
    apply Forall2_fmap, Forall2_flip.
    assert (Forall (λ r : row, ∃ r0, rows df !! r.1 = Some r0
                                     ∧ r.2 !! c = r0.2 !! c) (rows train))
      as Horig.
    { rewrite Htr. apply Forall_forall.
      intros r [_ (r0 & -> & Hr0)%list_elem_of_fmap]%list_elem_of_filter.
      apply list_elem_of_lookup in Hr0 as [j Hj].
      destruct (cleaner_row _ _ _ _ _ _ Hc Hj) as [Hlab _].
      exists r0. simpl. rewrite Hlab. split; [done|].
      by rewrite lookup_insert_ne. }
    clear -Hrows Horig. induction Hrows as [|r r' rs rs' Hb _ IH]; [done|].
    apply Forall_cons in Horig as [(r0 & Hr0 & Hcell) Horig].
    constructor; [|by apply IH].
    destruct Hb as (_ & _ & _ & Hchg). simpl.
    rewrite list_lookup_fmap, Hr0. simpl. rewrite <-Hcell.
    destruct (decide (r'.2 !! c = r.2 !! c)) as [->|Hne]; [by right|].
    destruct (Hchg c Hne) as (_ & _ & ->). by left.
Qed.

End order.

Lemma train_csv_order_witness :
  ∃ f kept,
    last (written (@run quiet ElementsOrder demo).2) = Some (train_csv, f)
    ∧ kept `sublist_of` seq 0 (length (ds_records demo))
    ∧ csv_column "id" f = (λ i, Int (Z.of_nat i)) <$> kept.
Proof.
  destruct (train_csv_order demo _ quiet_run_returns)
    as (df & w1 & f & kept & _ & Hlast & Hsub & Hid & _).
  exists f, kept. split; [exact Hlast|]. split; [exact Hsub|exact Hid].
Defined.
Section corruption.
Context {RS : RandomState} {SO : SetOrder}.

(** C1 (amended).  A run of the Corruptor on the post-split training frame
    keeps its columns and its rows in place, and a cell that differs
    afterwards lies in a selected row, in an eligible column, and holds the
    missing-value marker.  A column is eligible exactly when every column of
    that label is declared float64; so the cells of [id] (int64) and of
    every column of another dtype are unchanged, while the target
    [highUptake_mol] is eligible like any other float64 column. *)
Theorem corruption_frame (ds : dataset) (df : DataFrame) (w1 : world)
    (train test : DataFrame) (w2 : world) (train' : DataFrame) (w3 : world) :
  cleaner ds world0 = (Ok df, w1) →
  splitter df w1 = (Ok (train, test), w2) →
  corruptor train w2 = (Ok train', w3) →
  ∃ selected w',
    nan_indices train w2 = (Ok selected, w')
    ∧ columns train' = columns train
    ∧ Forall2 (λ r r' : row,
                 r'.1 = r.1
                 ∧ ∀ c, r'.2 !! c ≠ r.2 !! c →
                        c ∈ float64_columns train
                        ∧ r.1 ∈ selected
                        ∧ r'.2 !! c = Some NaN)
        (rows train) (rows train')
    ∧ (∀ c, c ∈ float64_columns train ↔
            c ∈ names train ∧ ∀ dt, (c, dt) ∈ columns train → dt = Float64)
    ∧ series "id" train' = series "id" train
    ∧ ∀ c, dtype_of c train ≠ Some Float64 → series c train' = series c train.
Proof.
  intros Hc Hs Hk.
  pose proof Hc as (_ & Hidx & _)%cleaner_Ok.
  pose proof Hs
    as (comb & fs & ft & fb & _ & _ & _ & _ & _ & Htc & _)%splitter_frames;
    [|rewrite Hidx; apply NoDup_seq].
  pose proof Hk as (_ & _ & Hser)%corruptor_frames.
  pose proof Hk as (sel & w' & Hsel & _ & _ & _ & Hcols & Hrows)%corruptor_Ok.
  exists sel, w'. split_and!; [done|done| | | |done].
  - eapply Forall2_impl; [exact Hrows|].
    intros r r' (? & _ & _ & ?). by split.
  - intros c. rewrite elem_of_float64_columns, float64_columns_select.
    split; intros [Hn Hall]; (split; [done|]).
    + intros dt Hdt. destruct (decide (dt = Float64)); [done|].
      destruct Hall. by exists dt.
    + intros (dt & Hdt & Hne). by apply Hne, Hall.
  - apply Hser. unfold dtype_of. rewrite Htc.
    change (lookup_dtype "id" (columns (indexed df)))
      with (dtype_of "id" (indexed df)).
    by rewrite dtype_of_indexed_id.
Qed.

(** C3 (amended).  Every pass of the loop of cell 7 draws [B] from a
    binomial distribution with success probability 0.1 whose number of
    trials is the number of columns of the frame ([len(df.columns)]:
    features, target and [id]), and that is its first draw; the number of
    cells to blank is [B + 1].  When the eligible columns are at least
    [B + 1], the pass draws one permutation of them and blanks, in the
    selected row, [B + 1] distinct eligible columns; when they are fewer,
    it raises [ValueError] after the binomial draw.  A completed Corruptor
    made exactly one such pass per selected row, each with as many trials
    as the training frame has columns; in a run of the notebook that number
    exceeds the number of eligible columns. *)
Theorem num_nans_draw (ds : dataset) (df : DataFrame) (w1 : world)
    (train test : DataFrame) (w2 : world) :
  cleaner ds world0 = (Ok df, w1) →
  splitter df w1 = (Ok (train, test), w2) →
  (∀ frame idx w,
     let cols := float64_columns train in
     let n := length (columns frame) in
     let b := (binomial (gen w) n (1 # 10)%Q).1 in
     match corrupt_row cols frame idx w with
     | (Ok frame', w') =>
         b + 1 ≤ length cols
         ∧ draws w'
           = draws w
             ++ [DrawBinomial n (1 # 10)%Q; DrawPermutation (length cols)]
         ∧ ∃ nan_columns,
             frame' = loc_set idx nan_columns NaN frame
             ∧ length nan_columns = b + 1
             ∧ NoDup nan_columns
             ∧ nan_columns ⊆ cols
     | (Raise e, w') =>
         e = ValueError
         ∧ length cols < b + 1
         ∧ draws w' = draws w ++ [DrawBinomial n (1 # 10)%Q]
     end)
  ∧ (∀ train' w3,
       corruptor train w2 = (Ok train', w3) →
       draws w3
       = draws w2
         ++ DrawPermutation (len train)
            :: loop_draws (len train / 8) (length (columns train))
                 (length (float64_columns train)))
  ∧ (∀ res w3,
       corruptor train w2 = (res, w3) →
       ∃ new, draws w3 = draws w2 ++ new
              ∧ ∀ n p, DrawBinomial n p ∈ new →
                       n = length (columns train) ∧ p = (1 # 10)%Q)
  ∧ length (float64_columns train) < length (columns train).
Proof.
  intros Hc Hs. split_and!.
  - intros frame idx w cols n b.
    destruct (corrupt_row_spec cols frame idx w)
      as [[Hlt ->]|(Hle & nc & -> & Hlen & Hsub & Hnd)].
    + split_and!; [done|done|]. by rewrite draws_log.
    + split_and!; [done| |].
      * rewrite !draws_log. by rewrite <-(assoc_L (++)).
      * exists nc. split_and!; [done|done|apply Hnd, NoDup_float64_columns|].
        intros c. apply Hsub.
  - intros train' w3. apply corruptor_trace.
  - intros res w3 Hk. unfold corruptor in Hk. rewrite bind_unfold in Hk.
    destruct (nan_indices_spec train w2) as [[_ Hr]|(sel & Hr & _)];
      rewrite Hr in Hk.
    + injection Hk as <- <-. exists []. split; [by rewrite app_nil_r|].
      by intros n p ?%elem_of_nil.
    + apply corrupt_rows_draws in Hk as (_ & new & Hnew & Hb).
      exists (DrawPermutation (len train) :: new). split.
      * rewrite Hnew, draws_log, <-(assoc_L (++)). done.
      * intros n p [[=]|?]%elem_of_cons. by apply Hb.
  - pose proof Hc as (_ & Hidx & _)%cleaner_Ok.
    pose proof Hs
      as (comb & fs & ft & fb & _ & _ & _ & _ & _ & Htc & _)%splitter_frames;
      [|rewrite Hidx; apply NoDup_seq].
    assert ("id" :: float64_columns train ⊆+ names train) as Hsub.
    { apply NoDup_submseteq.
      - constructor; [|apply NoDup_float64_columns].
        intros Hid%float64_columns_dtype. unfold dtype_of in Hid.
        rewrite Htc in Hid.
        change (lookup_dtype "id" (columns (indexed df)))
          with (dtype_of "id" (indexed df)) in Hid.
        by rewrite dtype_of_indexed_id in Hid.
      - intros c [->|Hin]%elem_of_cons.
        + unfold names. rewrite Htc. apply names_indexed_id.
        + by apply elem_of_float64_columns in Hin as [? _]. }
    apply submseteq_length in Hsub. unfold names in Hsub.
    rewrite length_fmap in Hsub. simpl in Hsub. lia.
Qed.

(** C6 (amended).  On a cleaned table of [N ≥ 100] rows, a completed run of
    the Corruptor selects [floor(0.125·(N−100))] distinct training rows;
    every selected row holds a missing-value marker afterwards and every
    other row is unchanged.  Hence, when every record of the table has a
    value in every kept column, exactly [floor(0.125·(N−100))] records of
    the final training table hold a marker. *)
Theorem corrupted_rows (ds : dataset) (df : DataFrame) (w1 : world)
    (train test : DataFrame) (w2 : world) (train' : DataFrame) (w3 : world) :
  cleaner ds world0 = (Ok df, w1) →
  splitter df w1 = (Ok (train, test), w2) →
  corruptor train w2 = (Ok train', w3) →
  100 ≤ length (ds_records ds)
  ∧ ∃ selected w',
      nan_indices train w2 = (Ok selected, w')
      ∧ NoDup selected
      ∧ (∀ i, i ∈ selected → i ∈ index train)
      ∧ length selected = (length (ds_records ds) - 100) / 8
      ∧ Forall2 (λ r r' : row,
                   (r.1 ∈ selected →
                    has_missing (record_of (names train') r'))
                   ∧ (r.1 ∉ selected → r' = r))
          (rows train) (rows train')
      ∧ (complete ds →
         length (filter has_missing (body (csv_of train')))
         = (length (ds_records ds) - 100) / 8).
Proof.
  intros Hc Hs Hk.
  pose proof Hc as (_ & Hidx & Hlen & _)%cleaner_Ok.
  pose proof Hs
    as (comb & fs & ft & fb & _ & _ & _ & _ & _ & Htc & _ & Hit & _ & Hsum
        & _)%splitter_frames; [|rewrite Hidx; apply NoDup_seq].
  assert (NoDup (index train)) as Hnd.
  { rewrite Hit, Hidx. apply NoDup_filter, NoDup_seq. }
  pose proof Hk
    as (sel & w' & Hsel & Hslen & Hsin & Hsnd & Hcols & Hrows)%corruptor_Ok.
  specialize (Hsnd Hnd).
  assert (names train' = names train) as Hnames
    by (unfold names; by rewrite Hcols).
  assert (Forall2 (λ r r' : row,
                     (r.1 ∈ sel → has_missing (record_of (names train') r'))
                     ∧ (r.1 ∉ sel → r' = r)) (rows train) (rows train'))
    as Hmarks.
  { eapply Forall2_impl; [exact Hrows|].
    intros r r' (_ & Hkeep & Hhit & _). split; [|done].
    intros (c & Hcin & Hcell)%Hhit. unfold has_missing.
    replace NaN with (default NaN (r'.2 !! c)) by by rewrite Hcell.
    apply elem_of_record_of. rewrite Hnames.
    by apply elem_of_float64_columns in Hcin as [? _]. }
  split; [rewrite <-Hlen; lia|].
  exists sel, w'. split_and!; [done|done|done| |done|].
  - rewrite Hslen, <-Hlen. f_equal. lia.
  - intros Hfull.
    pose proof (training_rows_complete _ _ _ _ _ _ Hc Hs Hfull) as Hclean.
    unfold csv_of. cbn [body]. rewrite length_filter_fmap.
    rewrite <-(length_filter_Forall2 (λ r : row, r.1 ∈ sel) _
                 (rows train) (rows train')).
    + rewrite length_filter_labels.
      fold (index train). rewrite length_filter_selected by done.
      rewrite Hslen, <-Hlen. f_equal. lia.
    + clear -Hmarks Hclean Hnames.
      induction Hmarks as [|r r' rs rs' [Hin Hout] _ IH]; [done|].
      apply Forall_cons in Hclean as [Hr Hclean].
      constructor; [|by apply IH]. split; [done|].
      intros Hm. destruct (decide (r.1 ∈ sel)) as [|Hn]; [done|].
      rewrite (Hout Hn), Hnames in Hm. done.
Qed.

End corruption.

(** C1, counterexample: on the small dataset the run blanks the target cell
    of the fourth training row (it held 74 before). *)
Lemma target_cell_blanked :
  ∃ df w1 train test w2 train' w3,
    @cleaner quiet2 demo world0 = (Ok df, w1)
    ∧ @splitter quiet2 df w1 = (Ok (train, test), w2)
    ∧ @corruptor quiet2 ElementsOrder train w2 = (Ok train', w3)
    ∧ series target train !! 3 = Some (Some (Float 74))
    ∧ series target train' !! 3 = Some (Some NaN).
Proof.
  destruct (@after_corruption quiet2 ElementsOrder _ demo
              (λ _ train train',
                 (series target train !! 3, series target train' !! 3))
              world0) as [res w] eqn:E.
  assert (res = Ok (Some (Some (Float 74)), Some (Some NaN))) as ->.
  { change res with (res, w).1. rewrite <-E. vm_compute. reflexivity. }
  apply after_corruption_Ok
    in E as (df & w1 & train & test & w2 & train' & Hc & Hs & Hk & [= H1 H2]).
  exists df, w1, train, test, w2, train', w.
  split; [exact Hc|]. split; [exact Hs|]. split; [exact Hk|].
  split; [symmetry; exact H1|symmetry; exact H2].
Qed.

Lemma corruption_frame_witness :
  ∃ train (w2 : @world quiet) train' selected w',
    @nan_indices quiet train w2 = (Ok selected, w')
    ∧ columns train' = columns train
    ∧ series "id" train' = series "id" train.
Proof.
  destruct (run_Ok _ _ quiet_run_returns)
    as (df & w1 & train & test & w2 & train' & w3 & Hc & Hs & Hk & _).
  destruct (corruption_frame demo df w1 train test w2 train' w3 Hc Hs Hk)
    as (sel & w' & Hsel & Hcols & _ & _ & Hid & _).
  exists train, w2, train', sel, w'.
  split; [exact Hsel|]. split; [exact Hcols|exact Hid].
Defined.

(** C3, counterexample: on the small dataset three columns are eligible,
    and the binomial draw of the run asks for five trials. *)
Lemma binomial_trials_not_eligible_count :
  ∃ df w1 train test w2 train' w3,
    @cleaner quiet demo world0 = (Ok df, w1)
    ∧ @splitter quiet df w1 = (Ok (train, test), w2)
    ∧ @corruptor quiet ElementsOrder train w2 = (Ok train', w3)
    ∧ length (@float64_columns ElementsOrder train) = 3
    ∧ binomial_trials (draws w3) = [5].
Proof.
  destruct (@after_corruption quiet ElementsOrder _ demo
              (λ _ train _, length (@float64_columns ElementsOrder train))
              world0) as [res w] eqn:E.
  assert (res = Ok 3 ∧ binomial_trials (draws w) = [5]) as [-> Hb].
  { change res with (res, w).1. change w with (res, w).2 at 2.
    rewrite <-E. vm_compute. split; reflexivity. }
  apply after_corruption_Ok
    in E as (df & w1 & train & test & w2 & train' & Hc & Hs & Hk & [= H1]).
  exists df, w1, train, test, w2, train', w.
  split; [exact Hc|]. split; [exact Hs|]. split; [exact Hk|].
  split; [symmetry; exact H1|exact Hb].
Qed.

Lemma num_nans_draw_witness :
  ∃ train,
    length (@float64_columns ElementsOrder train) < length (columns train).
Proof.
  destruct (run_Ok _ _ quiet_run_returns)
    as (df & w1 & train & test & w2 & train' & w3 & Hc & Hs & Hk & _).
  destruct (@num_nans_draw quiet ElementsOrder demo df w1 train test w2 Hc Hs)
    as (_ & _ & _ & Hlt).
  exists train. exact Hlt.
Defined.

(** C6, counterexample: with one field empty in the input, two records of
    [train.csv] hold a marker although [floor(0.125·(108−100)) = 1]. *)
Lemma marker_rows_exceed_selection :
  ∃ f,
    last (written (@run quiet ElementsOrder demo_gap).2) = Some (train_csv, f)
    ∧ length (filter has_missing (body f)) = 2
    ∧ (length (ds_records demo_gap) - 100) / 8 = 1.
Proof.
  eexists. split; [vm_compute; reflexivity|].
  split; vm_compute; reflexivity.
Qed.

Lemma corrupted_rows_witness :
  ∃ train',
    length (filter has_missing (body (csv_of train')))
    = (length (ds_records demo) - 100) / 8.
Proof.
  destruct (run_Ok _ _ quiet_run_returns)
    as (df & w1 & train & test & w2 & train' & w3 & Hc & Hs & Hk & _).
  destruct (@corrupted_rows quiet ElementsOrder demo df w1 train test w2
              train' w3 Hc Hs Hk)
    as (_ & sel & w' & _ & _ & _ & _ & _ & Hcount).
  exists train'. apply Hcount. exact demo_complete.
Defined.

(** C4.  On the small dataset three columns are eligible; a binomial draw
    of 3 over the five columns of the frame asks for four columns, the
    column sampling raises [ValueError] and the run stops there. *)
Lemma oversized_draw_raises :
  (@after_split greedy _ demo
     (λ _ train _, length (@float64_columns ElementsOrder train)) world0).1
  = Ok 3
  ∧ (@run greedy ElementsOrder demo).1 = Raise ValueError
  ∧ last (draws (@run greedy ElementsOrder demo).2)
    = Some (DrawBinomial 5 (1 # 10)%Q).
Proof. vm_compute. split_and!; reflexivity. Qed.

(** C9.  With the same table and the same seed, two runs that differ only
    in the iteration order of the set of eligible column labels write the
    same three held-out files and different [train.csv] files. *)
Lemma train_csv_depends_on_set_order :
  (@run quiet ElementsOrder demo).1 = Ok ()
  ∧ (@run quiet ReverseOrder demo).1 = Ok ()
  ∧ take 3 (written (@run quiet ElementsOrder demo).2)
    = take 3 (written (@run quiet ReverseOrder demo).2)
  ∧ last (written (@run quiet ElementsOrder demo).2)
    ≠ last (written (@run quiet ReverseOrder demo).2).
Proof.
  split; [vm_compute; reflexivity|]. split; [vm_compute; reflexivity|].
  split; [vm_compute; reflexivity|].
  vm_compute. intros H. discriminate H.
Qed.
(** * Further properties of the two notebooks *)

(** ** Written tables, column by column *)

Lemma body_csv_of_cells {B} (df : DataFrame) (l : list B)
    (g : B → string → cell) :
  length l = len df →
  (∀ c, c ∈ names df → default NaN <$> series c df = (λ x, g x c) <$> l) →
  body (csv_of df) = (λ x, (λ c, g x c) <$> names df) <$> l.
Proof.
  intros Hlen Hser. unfold csv_of. cbn [body].
  apply list_eq. intros k. rewrite !list_lookup_fmap.
  destruct (rows df !! k) as [r|] eqn:Hr.
  - destruct (lookup_lt_is_Some_2 l k) as [x Hx].
    { rewrite Hlen. by eapply lookup_lt_Some. }
    rewrite Hx. simpl. f_equal. unfold record_of.
    apply Forall_fmap_ext_1, Forall_forall. intros c Hc.
    assert ((default NaN <$> series c df) !! k = Some (default NaN (r.2 !! c)))
      as Hk by (unfold series; by rewrite !list_lookup_fmap, Hr).
    rewrite (Hser c Hc), list_lookup_fmap, Hx in Hk. by injection Hk as <-.
  - apply lookup_ge_None in Hr. fold (len df) in Hr. rewrite <-Hlen in Hr.
    apply lookup_ge_None in Hr. by rewrite Hr.
Qed.

Lemma csv_of_cells {B} (df : DataFrame) (l : list B)
    (g : B → string → cell) (cols : list string) :
  names df = cols →
  length l = len df →
  (∀ c, c ∈ cols → default NaN <$> series c df = (λ x, g x c) <$> l) →
  csv_of df = {| header := cols; body := (λ x, (λ c, g x c) <$> cols) <$> l |}.
Proof.
  intros <- Hlen Hser.
  rewrite <-(body_csv_of_cells df l g Hlen Hser). done.
Qed.

Lemma len_index df : length (index df) = len df.
Proof. unfold index, len. apply length_fmap. Qed.

Lemma filter_columns_app (l1 l2 : list string) (cols : list (string * dtype)) :
  filter (λ cd, cd.1 ∉ l2) (filter (λ cd, cd.1 ∉ l1) cols)
  = filter (λ cd, cd.1 ∉ (l1 ++ l2)) cols.
Proof.
  induction cols as [|cd cols IH]; [done|].
  destruct (decide (cd.1 ∈ l1)) as [H1|H1].
  - rewrite (filter_cons_False (λ cd, cd.1 ∉ l1)) by auto.
    rewrite (filter_cons_False (λ cd, cd.1 ∉ (l1 ++ l2))); [done|].
    rewrite elem_of_app. auto.
  - rewrite (filter_cons_True (λ cd, cd.1 ∉ l1)) by done.
    destruct (decide (cd.1 ∈ l2)) as [H2|H2].
    + rewrite (filter_cons_False (λ cd, cd.1 ∉ l2)) by auto.
      rewrite (filter_cons_False (λ cd, cd.1 ∉ (l1 ++ l2))); [done|].
      rewrite elem_of_app. auto.
    + rewrite (filter_cons_True (λ cd, cd.1 ∉ l2)) by done.
      rewrite (filter_cons_True (λ cd, cd.1 ∉ (l1 ++ l2))); [by rewrite IH|].
      rewrite elem_of_app. by intros [?|?].
Qed.

(** ** The Cleaner *)

Lemma drop_columns_spec labels df :
  (∃ c, c ∈ labels ∧ (c ∉ names df)
        ∧ drop_columns labels df = Raise (KeyError (Col c)))
  ∨ ((∀ c, c ∈ labels → c ∈ names df) ∧ ∃ d, drop_columns labels df = Ok d).
Proof.
  unfold drop_columns.
  destruct (list_find _ _) as [[k c]|] eqn:Hf.
  - left. apply list_find_Some in Hf as (Hk & Hc & _).
    exists c. split_and!; [by eapply list_elem_of_lookup_2|done|done].
  - right. split; [|by eexists]. intros c Hc.
    apply list_find_None in Hf. eapply Forall_forall in Hf; [|exact Hc].
    by apply dec_stable.
Qed.

Section cleaner_more.
Context {RS : RandomState}.

Lemma cleaner_columns ds w df w' :
  cleaner ds w = (Ok df, w') →
  columns df = filter (λ cd, cd.1 ∉ dropped_columns) (ds_columns ds).
Proof.
  unfold cleaner.
  intros (d1 & ? & [H1 ->]%lift_Ok & H)%bind_Ok.
  apply bind_Ok in H as (d2 & ? & [H2 ->]%lift_Ok & [H3 ->]%lift_Ok).
  apply drop_columns_Ok in H1 as (E1 & _), H2 as (E2 & _), H3 as (E3 & _).
  rewrite E3, E2, E1. simpl. by rewrite !filter_columns_app.
Qed.

(** The row at position [j] of the cleaned frame is record [j]. *)
Lemma cleaner_cells ds w df w' j r :
  cleaner ds w = (Ok df, w') →
  rows df !! j = Some r →
  r.1 = j ∧ ∀ c, c ∉ dropped_columns → r.2 !! c = input_cell ds j c.
Proof.
  intros Hc Hr. split; [by eapply cleaner_row|].
  pose proof Hc as (_ & _ & _ & _ & Hser)%cleaner_Ok.
  intros c Hkeep.
  assert (series c df !! j = Some (r.2 !! c)) as Hj
    by (unfold series; by rewrite list_lookup_fmap, Hr).
  rewrite (Hser c Hkeep), list_lookup_fmap in Hj. unfold input_cell.
  destruct (ds_records ds !! j) as [rec|]; simpl in *; [|done].
  by injection Hj as ->.
Qed.

Lemma cleaner_cases (ds : dataset) (w : world) :
  (Forall (λ c, c ∈ (ds_columns ds).*1) dropped_columns
   ∧ ∃ df, cleaner ds w = (Ok df, w))
  ∨ (∃ c, c ∈ dropped_columns ∧ (c ∉ (ds_columns ds).*1)
          ∧ cleaner ds w = (Raise (KeyError (Col c)), w)).
Proof.
  unfold cleaner, dropped_columns.
  destruct (drop_columns_spec ["Unnamed: 0"] (read_csv ds))
    as [(c & Hc & Hn & E1)|(A1 & d1 & E1)].
  { right. exists c. split_and!; [apply elem_of_app; by left|done|].
    by rewrite bind_unfold, E1. }
  pose proof E1 as (C1 & _)%drop_columns_Ok.
  destruct (drop_columns_spec categorical_features d1)
    as [(c & Hc & Hn & E2)|(A2 & d2 & E2)].
  { right. exists c. split_and!.
    - apply elem_of_app. right. apply elem_of_app. by left.
    - intros Hin. apply Hn. eapply names_drop_columns; [exact E1|exact Hin|].
      intros ->%list_elem_of_singleton. revert Hc.
      apply (bool_decide_unpack _). by vm_compute.
    - rewrite (bind_lift _ _ _ _ E1). by rewrite bind_unfold, E2. }
  destruct (drop_columns_spec target_variables d2)
    as [(c & Hc & Hn & E3)|(A3 & d3 & E3)].
  { right. exists c. split_and!.
    - apply elem_of_app. right. apply elem_of_app. by right.
    - intros Hin. apply Hn.
      eapply names_drop_columns; [exact E2| |].
      + eapply names_drop_columns; [exact E1|exact Hin|].
        intros ->%list_elem_of_singleton. revert Hc.
        apply (bool_decide_unpack _). by vm_compute.
      + intros Hcat.
        assert (Forall (λ c, c ∉ categorical_features) target_variables)
          as Hdisj by (apply (bool_decide_unpack _); by vm_compute).
        eapply Forall_forall in Hdisj; [|exact Hc]. done.
    - rewrite (bind_lift _ _ _ _ E1), (bind_lift _ _ _ _ E2). by rewrite E3. }
  left. split.
  - assert (∀ c d d', drop_columns c d = Ok d' → ∀ x, x ∈ names d' → x ∈ names d)
      as Hback.
    { intros c d d' (E & _)%drop_columns_Ok x. unfold names. rewrite E.
      rewrite names_filter_columns. by intros [_ ?]%list_elem_of_filter. }
    apply Forall_forall. intros c [Hc|[Hc|Hc]%elem_of_app]%elem_of_app;
      change ((ds_columns ds).*1) with (names (read_csv ds)).
    + by apply A1.
    + eapply Hback; [exact E1|]. by apply A2.
    + eapply Hback; [exact E1|]. eapply Hback; [exact E2|]. by apply A3.
  - exists d3. rewrite (bind_lift _ _ _ _ E1), (bind_lift _ _ _ _ E2).
    by rewrite E3.
Qed.

(** X1.  The Cleaner needs every column it drops.  When it returns, the
    input has the index column, the nine categorical columns and the
    thirteen alternate targets; when it raises, the exception is a
    [KeyError] for a listed column that the input lacks.  Either way it has
    not touched the generator and has written no file. *)
Theorem cleaner_requires_columns (ds : dataset) (w : world) :
  match cleaner ds w with
  | (Ok df, w') =>
      w' = w ∧ Forall (λ c, c ∈ (ds_columns ds).*1) dropped_columns
  | (Raise e, w') =>
      w' = w
      ∧ ∃ c, e = KeyError (Col c) ∧ c ∈ dropped_columns
             ∧ (c ∉ (ds_columns ds).*1)
  end.
Proof.
  destruct (cleaner_cases ds w) as [[Hall [df ->]]|(c & Hc & Hn & ->)].
  - done.
  - split; [done|]. by exists c.
Qed.

(** X2.  The three drops of the Cleaner amount to one projection: written
    out, the cleaned table is the input with the dropped columns deleted,
    the remaining columns with their dtypes and the records in file
    order, indexed [0 .. N-1]. *)
Theorem cleaner_projection (ds : dataset) (w : world) (df : DataFrame)
    (w' : world) :
  cleaner ds w = (Ok df, w') →
  w' = w
  ∧ index df = seq 0 (length (ds_records ds))
  ∧ columns df = filter (λ cd, cd.1 ∉ dropped_columns) (ds_columns ds)
  ∧ csv_of df
    = {| header := kept_columns ds;
         body := (λ rec : gmap string cell,
                    (λ c, default NaN (rec !! c)) <$> kept_columns ds)
                 <$> ds_records ds |}.
Proof.
  intros Hc. pose proof Hc as (-> & Hidx & Hlen & _ & Hser)%cleaner_Ok.
  pose proof (cleaner_names _ _ _ _ Hc) as Hnames.
  split_and!; [done|done|by eapply cleaner_columns|].
  apply (csv_of_cells df (ds_records ds) (λ rec c, default NaN (rec !! c)));
    [done|done|].
  intros c [Hkeep _]%list_elem_of_filter.
  by rewrite (Hser c Hkeep), <-list_fmap_compose.
Qed.

End cleaner_more.

Lemma cleaner_projection_witness :
  ∃ df : DataFrame,
    header (csv_of df) = ["voidFraction"; "density"; "num_carbon"; target]
    ∧ length (body (csv_of df)) = 108.
Proof.
  destruct (returns_inv (@cleaner quiet demo) world0) as (df & w1 & Hc);
    [vm_compute; reflexivity|].
  destruct (@cleaner_projection quiet demo world0 df w1 Hc)
    as (_ & _ & _ & Hcsv).
  exists df. rewrite Hcsv. split; vm_compute; reflexivity.
Defined.
(** ** The ranking by target value *)

Lemma read_csv_rows ds j r :
  rows (read_csv ds) !! j = Some r ↔ r.1 = j ∧ ds_records ds !! j = Some r.2.
Proof.
  unfold read_csv. cbn [rows]. split.
  - intros (i & rec & -> & [-> _]%lookup_seq & Hrec)%lookup_zip_with_Some.
    done.
  - intros [<- Hrec]. apply lookup_zip_with_Some.
    exists r.1, r.2. split_and!; [by destruct r| |done].
    apply lookup_seq. split; [done|]. by eapply lookup_lt_Some.
Qed.

Lemma zip_seq_sorted (recs : list (gmap string cell)) n :
  StronglySorted (λ x y : row, x.1 < y.1) (zip (seq n (length recs)) recs)
  ∧ Forall (λ x : row, n ≤ x.1) (zip (seq n (length recs)) recs).
Proof.
  revert n. induction recs as [|rec recs IH]; intros n; simpl.
  - split; constructor.
  - destruct (IH (S n)) as [Hs Hge]. split.
    + constructor; [done|]. eapply Forall_impl; [exact Hge|]. simpl. lia.
    + constructor; [simpl; lia|]. eapply Forall_impl; [exact Hge|]. simpl. lia.
Qed.

Lemma read_csv_sorted ds :
  StronglySorted (λ x y : row, x.1 < y.1) (rows (read_csv ds)).
Proof. apply zip_seq_sorted. Qed.

Lemma StronglySorted_filter {A} (R : relation A) (P : A → Prop)
    `{∀ x, Decision (P x)} l :
  StronglySorted R l → StronglySorted R (filter P l).
Proof.
  induction 1 as [|x l _ IH Hx]; [constructor|].
  destruct (decide (P x)).
  - rewrite filter_cons_True by done. constructor; [done|].
    apply Forall_forall. intros y [_ Hy]%list_elem_of_filter.
    by eapply Forall_forall in Hx.
  - by rewrite filter_cons_False by done.
Qed.

Lemma StronglySorted_fmap_in {A B} (R1 : relation A) (R2 : relation B)
    (f : A → B) l :
  (∀ x y, x ∈ l → y ∈ l → R1 x y → R2 (f x) (f y)) →
  StronglySorted R1 l → StronglySorted R2 (f <$> l).
Proof.
  intros Hf Hl. induction Hl as [|x l _ IH Hx]; [constructor|].
  rewrite fmap_cons. constructor.
  - apply IH. intros y z Hy Hz. apply Hf; by right.
  - apply Forall_fmap, Forall_forall. intros y Hy. simpl.
    apply Hf; [by left|by right|]. by eapply Forall_forall in Hx.
Qed.

Lemma insert_desc_sorted c x l :
  is_Some (value_at c x) →
  Forall (λ y : row, is_Some (value_at c y) ∧ x.1 < y.1) l →
  StronglySorted (row_precedes c) l →
  StronglySorted (row_precedes c) (insert_desc c x l).
Proof.
  intros [a Ha] Hl Hs. induction Hs as [|y l Hs IH Hy]; simpl.
  - repeat constructor.
  - apply Forall_cons in Hl as [[[b Hb] Hlt] Hl].
    rewrite Ha, Hb. simpl. case_decide as Hab.
    + constructor; [by apply IH|].
      rewrite insert_desc_Permutation. constructor; [|done].
      unfold row_precedes. rewrite Ha, Hb. by left.
    + constructor; [by constructor|]. constructor.
      * unfold row_precedes. rewrite Ha, Hb.
        destruct (decide (a = b)) as [->|]; [by right|left; lia].
      * apply Forall_forall. intros z Hz.
        eapply Forall_forall in Hy; [|exact Hz].
        eapply Forall_forall in Hl as [[d Hd] Hzl]; [|exact Hz].
        unfold row_precedes in *. rewrite Hb, Hd in Hy. rewrite Ha, Hd.
        destruct (decide (a = d)) as [->|]; [by right|left; lia].
Qed.

Lemma sort_desc_sorted c l :
  Forall (λ y : row, is_Some (value_at c y)) l →
  StronglySorted (λ x y : row, x.1 < y.1) l →
  StronglySorted (row_precedes c) (sort_desc c l).
Proof.
  intros Hv Hs. induction Hs as [|x l Hs IH Hx]; simpl; [constructor|].
  apply Forall_cons in Hv as [Hvx Hv].
  apply insert_desc_sorted; [done| |by apply IH].
  rewrite sort_desc_Permutation. apply Forall_forall. intros y Hy.
  split; [by eapply Forall_forall in Hv|by eapply Forall_forall in Hx].
Qed.

Lemma ranked_sorted c df :
  StronglySorted (λ x y : row, x.1 < y.1) (rows df) →
  StronglySorted (row_precedes c) (ranked c df).
Proof.
  intros Hs. unfold ranked. apply StronglySorted_app_2.
  - intros x y Hx [Hy _]%list_elem_of_filter.
    rewrite sort_desc_Permutation in Hx.
    apply list_elem_of_filter in Hx as [[a Ha] _].
    unfold row_precedes. rewrite Ha.
    destruct (value_at c y) as [b|]; [|done]. destruct Hy. by eexists.
  - apply sort_desc_sorted; [|by apply StronglySorted_filter].
    apply Forall_forall. by intros y [? _]%list_elem_of_filter.
  - rewrite <-(list_fmap_id (filter _ (rows df))).
    eapply (StronglySorted_fmap_in (λ x y : row, x.1 < y.1));
      [|by apply StronglySorted_filter].
    intros x y [Hx _]%list_elem_of_filter [Hy _]%list_elem_of_filter Hlt.
    unfold row_precedes. simpl.
    destruct (value_at c x); [destruct Hx; by eexists|].
    destruct (value_at c y); [destruct Hy; by eexists|]. done.
Qed.

Lemma read_csv_value ds r :
  r ∈ rows (read_csv ds) → value_at target r = target_value ds r.1.
Proof.
  intros [j [Hj Hrec]%read_csv_rows]%list_elem_of_lookup.
  unfold value_at, target_value, input_cell. by rewrite Hj, Hrec.
Qed.

Lemma ranking_Permutation ds : ranking ds ≡ₚ seq 0 (length (ds_records ds)).
Proof.
  unfold ranking. rewrite ranked_Permutation. fold (index (read_csv ds)).
  by rewrite index_read_csv.
Qed.

Lemma ranking_sorted ds : StronglySorted (precedes ds) (ranking ds).
Proof.
  unfold ranking.
  eapply (StronglySorted_fmap_in (row_precedes target));
    [|apply ranked_sorted, read_csv_sorted].
  intros x y Hx Hy. rewrite ranked_Permutation in Hx, Hy.
  unfold row_precedes, precedes.
  by rewrite (read_csv_value _ _ Hx), (read_csv_value _ _ Hy).
Qed.

(** Ranking looks at the labels and at the values of the column only. *)
Lemma insert_desc_fmap c (h : row → row) x l :
  (∀ r, value_at c (h r) = value_at c r) →
  insert_desc c (h x) (h <$> l) = h <$> insert_desc c x l.
Proof.
  intros Hh. induction l as [|y l IH]; [done|]. cbn [insert_desc fmap list_fmap].
  rewrite !Hh. case_decide; [|done]. rewrite fmap_cons. f_equal. exact IH.
Qed.

Lemma sort_desc_fmap c (h : row → row) l :
  (∀ r, value_at c (h r) = value_at c r) →
  sort_desc c (h <$> l) = h <$> sort_desc c l.
Proof.
  intros Hh. induction l as [|x l IH]; [done|].
  rewrite fmap_cons. cbn [sort_desc foldr]. fold (sort_desc c (h <$> l)).
  fold (sort_desc c l). rewrite IH. by apply insert_desc_fmap.
Qed.

Lemma filter_fmap_iff {A} (P : A → Prop) `{∀ x, Decision (P x)}
    (h : A → A) (l : list A) :
  (∀ x, P (h x) ↔ P x) → filter P (h <$> l) = h <$> filter P l.
Proof.
  intros Hh. induction l as [|x l IH]; [done|]. rewrite fmap_cons.
  destruct (decide (P x)) as [Hx|Hx].
  - rewrite (filter_cons_True P (h x)) by by apply Hh.
    rewrite (filter_cons_True P x) by done. by rewrite fmap_cons, IH.
  - rewrite (filter_cons_False P (h x)) by by rewrite Hh.
    by rewrite (filter_cons_False P x) by done.
Qed.

Lemma ranked_rows_fmap c (h : row → row) df df' :
  rows df' = h <$> rows df →
  (∀ r, value_at c (h r) = value_at c r) →
  ranked c df' = h <$> ranked c df.
Proof.
  intros Hrows Hh. unfold ranked. rewrite Hrows, fmap_app.
  rewrite !filter_fmap_iff by (intros r; by rewrite Hh).
  by rewrite sort_desc_fmap.
Qed.

Lemma ranked_labels_fmap c (h : row → row) df df' :
  rows df' = h <$> rows df →
  (∀ r, value_at c (h r) = value_at c r) →
  (∀ r, (h r).1 = r.1) →
  (ranked c df').*1 = (ranked c df).*1.
Proof.
  intros Hrows Hh Hl. rewrite (ranked_rows_fmap c h df df') by done.
  rewrite <-list_fmap_compose. apply list_fmap_ext. intros ? r _. apply Hl.
Qed.

Lemma drop_columns_rows labels df d :
  drop_columns labels df = Ok d →
  rows d = (λ r : row, (r.1, filter (λ kv, kv.1 ∉ labels) r.2)) <$> rows df.
Proof.
  unfold drop_columns. destruct (list_find _ _) as [[? ?]|]; [done|].
  by intros [= <-].
Qed.

Lemma ranked_labels_drop_columns labels df d c :
  drop_columns labels df = Ok d → c ∉ labels →
  (ranked c d).*1 = (ranked c df).*1.
Proof.
  intros Hd Hc. eapply ranked_labels_fmap; [by eapply drop_columns_rows| |done].
  intros r. unfold value_at. simpl. rewrite map_lookup_filter.
  destruct (r.2 !! c); simpl; [|done]. by rewrite option_guard_True.
Qed.

Section ranking_facts.
Context {RS : RandomState}.

Lemma ranking_indexed ds w df w' :
  cleaner ds w = (Ok df, w') →
  (ranked target (indexed df)).*1 = ranking ds.
Proof.
  intros Hc.
  rewrite (ranked_labels_fmap target with_id df (indexed df));
    [|done|intros r; by apply value_at_with_id|done].
  unfold cleaner in Hc.
  apply bind_Ok in Hc as (d1 & ? & [H1 ->]%lift_Ok & H).
  apply bind_Ok in H as (d2 & ? & [H2 ->]%lift_Ok & [H3 ->]%lift_Ok).
  rewrite (ranked_labels_drop_columns _ _ _ _ H3),
    (ranked_labels_drop_columns _ _ _ _ H2),
    (ranked_labels_drop_columns _ _ _ _ H1); [done|..];
    apply (bool_decide_unpack _); by vm_compute.
Qed.

End ranking_facts.
(** ** The rows and the draws of the Splitter *)

Lemma setitem_series c dt vals df d :
  setitem c dt vals df = Ok d → series c d = Some <$> vals.
Proof.
  unfold setitem. case_decide as Hlen; [|done]. intros [= <-].
  unfold series, len in *. cbn [rows]. revert vals Hlen.
  induction (rows df) as [|r rs IH]; intros [|v vals] Hlen; simplify_eq/=;
    [done|]. rewrite lookup_insert_eq. f_equal. by apply IH.
Qed.

Lemma foldr_min_spec x l :
  (foldr Z.min x l ∈ x :: l) ∧ Forall (λ y, (foldr Z.min x l ≤ y)%Z) (x :: l).
Proof.
  induction l as [|y l [Hin Hle]]; simpl.
  - split; [by left|]. constructor; [lia|constructor].
  - set (m := foldr Z.min x l) in *. apply Forall_cons in Hle as [Hx Hl].
    destruct (Z.min_spec y m) as [[? E]|[? E]]; rewrite E.
    + split; [right; by left|].
      constructor; [lia|]. constructor; [lia|].
      eapply Forall_impl; [exact Hl|]. simpl. lia.
    + split.
      * apply elem_of_cons in Hin as [Hm|Hm];
          [apply elem_of_cons; by left|do 2 apply list_elem_of_further; exact Hm].
      * constructor; [done|]. constructor; [lia|done].
Qed.

Lemma foldr_max_spec x l :
  (foldr Z.max x l ∈ x :: l) ∧ Forall (λ y, (y ≤ foldr Z.max x l)%Z) (x :: l).
Proof.
  induction l as [|y l [Hin Hle]]; simpl.
  - split; [by left|]. constructor; [lia|constructor].
  - set (m := foldr Z.max x l) in *. apply Forall_cons in Hle as [Hx Hl].
    destruct (Z.max_spec y m) as [[? E]|[? E]]; rewrite E.
    + split.
      * apply elem_of_cons in Hin as [Hm|Hm];
          [apply elem_of_cons; by left|do 2 apply list_elem_of_further; exact Hm].
      * constructor; [done|]. constructor; [lia|done].
    + split; [right; by left|].
      constructor; [lia|]. constructor; [lia|].
      eapply Forall_impl; [exact Hl|]. simpl. lia.
Qed.

Lemma series_min_spec c df lo :
  series_min c df = Some lo →
  (∃ r, r ∈ rows df ∧ value_at c r = Some lo)
  ∧ ∀ r v, r ∈ rows df → value_at c r = Some v → (lo ≤ v)%Z.
Proof.
  unfold series_min.
  destruct (omap (value_at c) (rows df)) as [|x l] eqn:Ho; [done|].
  intros [= <-]. destruct (foldr_min_spec x l) as [Hin Hle]. split.
  - rewrite <-Ho in Hin. apply list_elem_of_omap in Hin as (r & ? & ?).
    by exists r.
  - intros r v Hr Hv. eapply Forall_forall in Hle; [exact Hle|].
    rewrite <-Ho. apply list_elem_of_omap. by exists r.
Qed.

Lemma series_max_spec c df hi :
  series_max c df = Some hi →
  (∃ r, r ∈ rows df ∧ value_at c r = Some hi)
  ∧ ∀ r v, r ∈ rows df → value_at c r = Some v → (v ≤ hi)%Z.
Proof.
  unfold series_max.
  destruct (omap (value_at c) (rows df)) as [|x l] eqn:Ho; [done|].
  intros [= <-]. destruct (foldr_max_spec x l) as [Hin Hle]. split.
  - rewrite <-Ho in Hin. apply list_elem_of_omap in Hin as (r & ? & ?).
    by exists r.
  - intros r v Hr Hv. eapply Forall_forall in Hle; [exact Hle|].
    rewrite <-Ho. apply list_elem_of_omap. by exists r.
Qed.

Lemma id_not_dropped : "id" ∉ dropped_columns.
Proof. apply (bool_decide_unpack _). by vm_compute. Qed.

Section splitter_more.
Context {RS : RandomState}.

(** The rows of the frame of cell 6 are the records of the input. *)
Lemma indexed_rows ds w df w' :
  cleaner ds w = (Ok df, w') →
  (∀ r, r ∈ rows (indexed df) →
        r.1 < length (ds_records ds)
        ∧ value_at target r = target_value ds r.1
        ∧ ∀ c, c ∉ dropped_columns →
               default NaN (r.2 !! c) = indexed_cell ds r.1 c)
  ∧ ∀ i, i < length (ds_records ds) → ∃ r, r ∈ rows (indexed df) ∧ r.1 = i.
Proof.
  intros Hc. pose proof Hc as (_ & Hidx & Hlen & _)%cleaner_Ok. split.
  - intros r (r0 & -> & [j Hj]%list_elem_of_lookup)%list_elem_of_fmap.
    destruct (cleaner_cells _ _ _ _ _ _ Hc Hj) as [Hlab Hcells].
    split_and!.
    + simpl. rewrite Hlab, <-Hlen. by eapply lookup_lt_Some.
    + rewrite value_at_with_id by done. unfold value_at, target_value.
      simpl. by rewrite Hlab, (Hcells _ target_not_dropped).
    + intros c Hkeep. unfold indexed_cell. simpl. rewrite Hlab.
      case_decide as Hid.
      * subst c. by rewrite lookup_insert_eq.
      * rewrite lookup_insert_ne by done. by rewrite (Hcells _ Hkeep).
  - intros i Hi. rewrite <-Hlen in Hi.
    destruct (lookup_lt_is_Some_2 (rows df) i Hi) as [r0 Hr0].
    exists (with_id r0). split.
    + simpl. apply list_elem_of_fmap_2. by eapply list_elem_of_lookup_2.
    + simpl. by eapply cleaner_cells.
Qed.

Lemma frame_series ds w df w' d c :
  cleaner ds w = (Ok df, w') →
  (∀ r, r ∈ rows d → r ∈ rows (indexed df)) →
  c ∉ dropped_columns →
  default NaN <$> series c d = (λ i, indexed_cell ds i c) <$> index d.
Proof.
  intros Hc Hsub Hkeep. unfold series, index. rewrite <-!list_fmap_compose.
  apply Forall_fmap_ext_1, Forall_forall. intros r Hr%Hsub. simpl.
  apply (indexed_rows _ _ _ _ Hc) in Hr as (_ & _ & Hcells). by apply Hcells.
Qed.

Lemma columns_indexed ds w df w' :
  cleaner ds w = (Ok df, w') →
  columns (indexed df) = frame_schema ds
  ∧ names (indexed df) = frame_columns ds.
Proof.
  intros Hc. pose proof (cleaner_columns _ _ _ _ Hc) as Hcols.
  pose proof (cleaner_names _ _ _ _ Hc) as Hnames. split.
  - unfold indexed, frame_schema. simpl. by rewrite Hcols.
  - unfold names at 1, indexed, frame_columns, kept_columns. simpl.
    rewrite names_set_dtype. fold (names df). by rewrite Hnames.
Qed.

Lemma combined_indices_parts df w comb w' :
  NoDup (index df) →
  combined_indices df w = (Ok comb, w') →
  ∃ great filler,
    comb = take 1 (ranked target df).*1 ++ great ++ filler
    ∧ length great = 5
    ∧ (∀ g, g ∈ great → g ∈ drop 5 (take 15 (ranked target df).*1))
    ∧ length filler = 94
    ∧ 100 ≤ len df
    ∧ gen w' = (permutation (permutation (gen w) 10).2 (len df - 6)).2
    ∧ draws w' = draws w ++ [DrawPermutation 10; DrawPermutation (len df - 6)]
    ∧ written w' = written w.
Proof.
  intros Hnd. unfold combined_indices.
  intros (best & w1 & [Hbest ->]%lift_Ok & Hrun)%bind_Ok.
  apply bind_Ok in Hrun as (top & w2 & [Htop ->]%lift_Ok & Hrun).
  apply bind_Ok in Hrun as (great & w3 & Hgreat & Hrun).
  apply bind_Ok in Hrun as (extra & w4 & Hextra & [= <- <-]).
  apply nlargest_Ok in Hbest as [_ Hbest].
  apply nlargest_Ok in Htop as [_ Htop].
  set (ranks := (ranked target df).*1) in *.
  assert (NoDup ranks) as Hranks.
  { unfold ranks. by rewrite ranked_Permutation. }
  assert (∀ i, i ∈ ranks ↔ i ∈ index df) as Hrin.
  { intros i. unfold ranks. by rewrite ranked_Permutation. }
  assert (length ranks = len df) as Hrl.
  { unfold ranks. by rewrite length_fmap, ranked_Permutation. }
  assert (index best = take 1 ranks) as Hb
    by (unfold index; by rewrite Hbest, fmap_take).
  assert (index (slice_from 5 top) = drop 5 (take 15 ranks)) as Hpool
    by (unfold index; simpl; by rewrite Htop, fmap_drop, fmap_take).
  assert (len (slice_from 5 top) = (len df `min` 15) - 5) as Hpl.
  { unfold len at 1. rewrite <-(length_fmap fst). fold (index (slice_from 5 top)).
    rewrite Hpool, length_drop, length_take, Hrl. lia. }
  pose proof Hgreat as (_ & Hglen & Hgin & Hgnd)%sample_Ok.
  unfold sample in Hgreat.
  apply bind_Ok in Hgreat as (idx & w3' & Hidx & [= _ <-]).
  destruct (choice_positions_spec (len (slice_from 5 top)) 5 w)
    as [[_ Hr]|(Hfive & idx' & Hr & _)]; rewrite Hr in Hidx; [done|].
  injection Hidx as _ <-.
  rewrite Hpool in Hgin, Hgnd.
  assert (NoDup (index best ++ index great)) as Hbr.
  { apply NoDup_app. split_and!; [|intros i Hi Hi'|].
    - rewrite Hb. eapply sublist_NoDup; [exact Hranks|apply sublist_take].
    - rewrite Hb in Hi. apply Hgin in Hi'.
      exact (take_drop_take_disjoint ranks 1 5 15 i Hranks ltac:(lia) Hi Hi').
    - apply Hgnd. eapply sublist_NoDup; [exact Hranks|].
      etrans; [apply sublist_drop|apply sublist_take]. }
  assert (∀ i, i ∈ index best ++ index great → i ∈ index df) as Hbrin.
  { intros i [Hi|Hi%Hgin]%elem_of_app; apply Hrin.
    - rewrite Hb in Hi. eapply elem_of_sublist; [exact Hi|apply sublist_take].
    - eapply elem_of_sublist; [exact Hi|].
      etrans; [apply sublist_drop|apply sublist_take]. }
  pose proof (length_index_difference (index df) _ Hnd Hbr Hbrin) as Hdiff.
  assert (length (index df) = len df) as Hil
    by (unfold index, len; apply length_fmap).
  assert (length (index best ++ index great) = 6) as Hsix.
  { rewrite length_app, Hb, length_take, Hglen, Hrl. lia. }
  rewrite Hsix in Hextra.
  destruct (np_choice_spec
              (index_difference (index df) (index best ++ index great))
              (100 - 6)
              (log (DrawPermutation (len (slice_from 5 top)))
                 (permutation (gen w) (len (slice_from 5 top))).2 w))
    as [[_ Hr']|(Hsz & l & Hr' & Hllen & _)];
    rewrite Hr' in Hextra; [done|]. injection Hextra as <- <-.
  assert (100 ≤ len df) as HN by lia.
  assert (len (slice_from 5 top) = 10) as Hten by lia.
  assert (length (index_difference (index df) (index best ++ index great))
          = len df - 6) as Hd by lia.
  exists (index great), l. rewrite Hd, Hten, Hb.
  split_and!; [by rewrite (assoc_L (++))|done|done|done|done|done| |done].
  simpl. by rewrite <-(assoc_L (++)).
Qed.

(** What a completed run of cell 6 went through, with its draws. *)
Lemma splitter_trace df w train test w' :
  splitter df w = (Ok (train, test), w') →
  ∃ comb w1 sol0 sol tst sub0 lo hi sub,
    combined_indices (indexed df) w = (Ok comb, w1)
    ∧ loc comb (indexed df) = Ok test
    ∧ select_columns ["id"; target] test = Ok sol0
    ∧ setitem "Usage" Object (replicate (len sol0) (Str "Public")) sol0 = Ok sol
    ∧ drop_columns [target] test = Ok tst
    ∧ select_columns ["id"] test = Ok sub0
    ∧ series_min target (indexed df) = Some lo
    ∧ series_max target (indexed df) = Some hi
    ∧ setitem target Float64
        (Float <$> (uniform (gen w1) lo hi (len test)).1) sub0 = Ok sub
    ∧ drop_rows comb (indexed df) = Ok train
    ∧ written w'
      = written w ++ [(solution_csv, csv_of sol); (test_csv, csv_of tst);
                      (sample_submission_csv, csv_of sub)]
    ∧ draws w' = draws w1 ++ [DrawUniform lo hi (len test)]
    ∧ gen w' = (uniform (gen w1) lo hi (len test)).2
    ∧ finite_range lo hi = true.
Proof.
  unfold splitter. rewrite setitem_id. fold (indexed df).
  intros (dfi & ? & [[= <-] ->]%lift_Ok & H)%bind_Ok.
  apply bind_Ok in H as (comb & w1 & Hcomb & H).
  apply bind_Ok in H as (test' & ? & [Hloc ->]%lift_Ok & H).
  apply bind_Ok in H as (sol0 & ? & [Hsol0 ->]%lift_Ok & H).
  apply bind_Ok in H as (sol & ? & [Hsol ->]%lift_Ok & H).
  apply bind_Ok in H as ([] & w2 & (Hw2 & Hg2 & Hd2)%to_csv_Ok & H).
  apply bind_Ok in H as (tst & ? & [Htst ->]%lift_Ok & H).
  apply bind_Ok in H as ([] & w3 & (Hw3 & Hg3 & Hd3)%to_csv_Ok & H).
  apply bind_Ok in H as (sub0 & ? & [Hsub0 ->]%lift_Ok & H).
  apply bind_Ok in H as (u & w4 & Hu & H).
  apply bind_Ok in H as (sub & ? & [Hsub ->]%lift_Ok & H).
  apply bind_Ok in H as ([] & w5 & (Hw5 & Hg5 & Hd5)%to_csv_Ok & H).
  apply bind_Ok in H as (train' & ? & [Hdrop ->]%lift_Ok & H).
  apply bind_Ok in H as ([] & ? & [Ha1 ->]%assert_Ok & H).
  apply bind_Ok in H as ([] & ? & [Ha2 ->]%assert_Ok & H).
  apply bind_Ok in H as ([] & ? & [Ha3 ->]%assert_Ok & H).
  apply bind_Ok in H as ([] & ? & [Ha4 ->]%assert_Ok & H).
  injection H as <- <- <-.
  destruct (series_min target (indexed df)) as [lo|] eqn:Hlo; [|done].
  destruct (series_max target (indexed df)) as [hi|] eqn:Hhi; [|done].
  unfold np_uniform in Hu.
  destruct (finite_range lo hi) eqn:Hfr; [|done].
  unfold rand_uniform in Hu. injection Hu as <- <-.
  rewrite Hg3, Hg2 in Hsub.
  exists comb, w1, sol0, sol, tst, sub0, lo, hi, sub.
  split_and!; try done.
  - rewrite Hw5. simpl. rewrite Hw3, Hw2.
    rewrite (silent_run _ _ _ _ (silent_combined_indices _) Hcomb).
    by rewrite <-!(assoc_L (++)).
  - rewrite Hd5. simpl. by rewrite Hd3, Hd2.
  - rewrite Hg5. simpl. by rewrite Hg3, Hg2.
Qed.

End splitter_more.
Lemma frame_columns_kept ds c :
  c ∈ frame_columns ds → c ∉ dropped_columns.
Proof.
  unfold frame_columns, kept_columns. case_decide.
  - by intros [? _]%list_elem_of_filter.
  - intros [[? _]%list_elem_of_filter| ->%list_elem_of_singleton]%elem_of_app;
      [done|apply id_not_dropped].
Qed.

Section splitter_outputs.
Context {RS : RandomState}.

(** The held-out rows, the three files and the draws of a completed run of
    cell 6, in terms of the input. *)
Lemma splitter_outputs ds df w1 train test w2 :
  cleaner ds world0 = (Ok df, w1) →
  splitter df w1 = (Ok (train, test), w2) →
  ∃ ids great filler lo hi u,
    ids = take 1 (ranking ds) ++ great ++ filler
    ∧ length great = 5
    ∧ (∀ g, g ∈ great → g ∈ drop 5 (take 15 (ranking ds)))
    ∧ length filler = 94
    ∧ NoDup ids
    ∧ (∀ i, i ∈ ids → i < length (ds_records ds))
    ∧ 100 ≤ length (ds_records ds)
    ∧ index test = ids
    ∧ index train = filter (λ i, i ∉ ids) (seq 0 (length (ds_records ds)))
    ∧ columns train = frame_schema ds
    ∧ (∀ r, r ∈ rows train → r ∈ rows (indexed df))
    ∧ series_min target (indexed df) = Some lo
    ∧ series_max target (indexed df) = Some hi
    ∧ length u = 100
    ∧ written w2
      = [(solution_csv,
          {| header := ["id"; target; "Usage"];
             body := (λ i, [Int (Z.of_nat i);
                            default NaN (input_cell ds i target);
                            Str "Public"]) <$> ids |});
         (test_csv,
          {| header := filter (λ c, c ≠ target) (frame_columns ds);
             body := (λ i, (λ c, indexed_cell ds i c)
                             <$> filter (λ c, c ≠ target) (frame_columns ds))
                     <$> ids |});
         (sample_submission_csv,
          {| header := ["id"; target];
             body := (λ p : nat * Z, [Int (Z.of_nat p.1); Float p.2])
                     <$> zip ids u |})]
    ∧ draws w2
      = [DrawPermutation 10; DrawPermutation (length (ds_records ds) - 6);
         DrawUniform lo hi 100]
    ∧ u = (uniform (permutation (permutation (seed 42) 10).2
                      (length (ds_records ds) - 6)).2 lo hi 100).1
    ∧ gen w2 = (uniform (permutation (permutation (seed 42) 10).2
                           (length (ds_records ds) - 6)).2 lo hi 100).2
    ∧ finite_range lo hi = true.
Proof.
  intros Hc Hs.
  pose proof Hc as (-> & Hidx & Hlen & _)%cleaner_Ok.
  pose proof (columns_indexed _ _ _ _ Hc) as [Hschema Hfc].
  assert (NoDup (index (indexed df))) as Hndi.
  { rewrite index_indexed, Hidx. apply NoDup_seq. }
  apply splitter_trace in Hs
    as (comb & w1 & sol0 & sol & tst & sub0 & lo & hi & sub & Hcomb & Hloc
        & Hsol0 & Hsol & Htst & Hsub0 & Hlo & Hhi & Hsub & Hdrop & Hw & Hd
        & Hg2 & Hfr).
  pose proof Hcomb as (Hcnd & Hcin & Hclen & _)%combined_indices_Ok; [|done].
  apply combined_indices_parts in Hcomb
    as (great & filler & Hparts & Hgl & Hgin & Hfl & HN & Hg1 & Hdr & _);
    [|done].
  rewrite (ranking_indexed _ _ _ _ Hc) in Hparts, Hgin.
  rewrite len_indexed, Hlen in HN, Hdr, Hg1.
  destruct (split_invariants (indexed df) comb test train)
    as (Hit & Hitr & _); [done|apply with_id_cells|done..|].
  rewrite index_indexed, Hidx in Hitr, Hcin.
  pose proof Hloc as [Hlc Hlr]%loc_Ok.
  apply loc_rows_Ok in Hlr as [_ Htsub]; [|done].
  pose proof Hdrop as [Htc Htr]%drop_rows_Ok.
  assert (len test = 100) as Hlt by by rewrite <-len_index, Hit.
  set (u := (uniform (gen w1) lo hi (len test)).1) in *.
  assert (length u = 100) as Hul by (unfold u; by rewrite uniform_spec).
  pose proof Hsol0 as (Hn0 & Hi0 & Hs0)%select_columns_Ok.
  pose proof Hsol as (Hc1 & Hi1 & Hs1)%setitem_Ok.
  pose proof Htst as (Hc2 & Hi2 & Hs2)%drop_columns_Ok.
  pose proof Hsub0 as (Hn3 & Hi3 & Hs3)%select_columns_Ok.
  pose proof Hsub as (Hc4 & Hi4 & Hs4)%setitem_Ok.
  assert (∀ c, c ∉ dropped_columns →
            default NaN <$> series c test = (λ i, indexed_cell ds i c) <$> comb)
    as Hcells.
  { intros c Hkeep. rewrite <-Hit. by eapply frame_series. }
  exists comb, great, filler, lo, hi, u.
  split_and!; try done.
  - intros i Hi%Hcin. apply elem_of_seq in Hi. lia.
  - by rewrite Htc.
  - intros r. rewrite Htr. by intros [_ ?]%list_elem_of_filter.
  - rewrite Hw. simpl. repeat f_equal.
    + (* solution.csv *)
      assert (names sol = ["id"; target; "Usage"]) as Hns.
      { unfold names. rewrite Hc1, names_set_dtype. fold (names sol0).
        rewrite Hn0. by rewrite decide_False
          by (apply (bool_decide_unpack _); by vm_compute). }
      rewrite (csv_of_cells sol comb
                 (λ i c, if decide (c = "Usage") then Str "Public"
                         else indexed_cell ds i c) _ Hns).
      * reflexivity.
      * by rewrite <-!len_index, Hi1, Hi0, Hit.
      * intros c Hcn. case_decide as Hu.
        -- subst c. rewrite (setitem_series _ _ _ _ _ Hsol).
           rewrite <-list_fmap_compose, fmap_replicate. simpl.
           rewrite <-len_index, Hi0, Hit. symmetry. by apply const_fmap.
        -- rewrite Hs1 by done. rewrite Hs0.
           { apply Hcells.
             apply elem_of_cons in Hcn as [->|Hcn]; [apply id_not_dropped|].
             apply elem_of_cons in Hcn as [->|Hcn]; [apply target_not_dropped|].
             by apply list_elem_of_singleton in Hcn. }
           apply elem_of_cons in Hcn as [->|Hcn]; [by left|].
           apply elem_of_cons in Hcn as [->|Hcn]; [right; by left|].
           by apply list_elem_of_singleton in Hcn.
    + (* test.csv *)
      assert (names tst = filter (λ c, c ≠ target) (frame_columns ds)) as Hnt.
      { unfold names. rewrite Hc2, Hlc, names_filter_columns.
        fold (names (indexed df)). rewrite Hfc.
        apply list_filter_iff. intros c.
        by rewrite list_elem_of_singleton. }
      rewrite (csv_of_cells tst comb (indexed_cell ds) _ Hnt).
      * done.
      * by rewrite <-!len_index, Hi2, Hit.
      * intros c [Hct Hcf]%list_elem_of_filter.
        rewrite Hs2 by by rewrite list_elem_of_singleton.
        apply Hcells. by apply (frame_columns_kept ds).
    + (* sample_submission.csv *)
      assert (names sub = ["id"; target]) as Hnb.
      { unfold names. rewrite Hc4, names_set_dtype. fold (names sub0).
        rewrite Hn3. by rewrite decide_False
          by (apply (bool_decide_unpack _); by vm_compute). }
      rewrite (csv_of_cells sub (zip comb u)
                 (λ p c, if decide (c = "id") then Int (Z.of_nat p.1)
                         else Float p.2) _ Hnb).
      * reflexivity.
      * rewrite length_zip_with, <-len_index, Hi4, Hi3, Hit. lia.
      * intros c Hcn. case_decide as Hid.
        -- subst c. rewrite Hs4 by done. rewrite Hs3 by left.
           rewrite (Hcells _ id_not_dropped).
           rewrite <-(fst_zip comb u) at 1 by lia.
           rewrite <-list_fmap_compose. apply list_fmap_ext. intros _ p _.
           reflexivity.
        -- apply elem_of_cons in Hcn as [->|Hcn]; [done|].
           apply list_elem_of_singleton in Hcn as ->.
           rewrite (setitem_series _ _ _ _ _ Hsub).
           rewrite <-!list_fmap_compose.
           rewrite <-(snd_zip comb u) at 1 by lia.
           by rewrite <-list_fmap_compose.
  - rewrite Hd, Hdr, Hlt. done.
  - unfold u. by rewrite Hg1, Hlt.
  - by rewrite Hg2, Hg1, Hlt.
Qed.

End splitter_outputs.
Lemma take_take_drop_disjoint {A} (l : list A) m k n x :
  NoDup l → m ≤ k → x ∈ drop k (take n l) → x ∉ take m l.
Proof.
  intros Hl Hmk Hx Hx'. by eapply (take_drop_take_disjoint l m k n x).
Qed.

Lemma target_value_None ds j :
  length (ds_records ds) ≤ j → target_value ds j = None.
Proof.
  intros Hj. unfold target_value, input_cell.
  by rewrite (lookup_ge_None_2 _ _ Hj).
Qed.

(** The head of a list sorted by a strict order is the element that no
    other element precedes. *)
Lemma ranking_head ds i :
  i < length (ds_records ds) →
  (∀ j, j < length (ds_records ds) → j ≠ i → ¬ precedes ds j i) →
  head (ranking ds) = Some i.
Proof.
  intros Hi Hmax. pose proof (ranking_sorted ds) as Hs.
  pose proof (ranking_Permutation ds) as Hp.
  destruct (ranking ds) as [|h R] eqn:HR.
  - apply Permutation_nil_l in Hp. destruct (ds_records ds); simpl in *; [lia|done].
  - simpl. f_equal. destruct (decide (h = i)) as [|Hne]; [done|]. exfalso.
    assert (i ∈ h :: R) as Hin by (rewrite Hp; apply elem_of_seq; lia).
    assert (h < length (ds_records ds)) as Hh.
    { assert (h ∈ h :: R) as Hh by by left.
      rewrite Hp in Hh. apply elem_of_seq in Hh. lia. }
    apply elem_of_cons in Hin as [?|Hin]; [done|].
    apply StronglySorted_cons in Hs as [Hall _].
    eapply Forall_forall in Hall; [|exact Hin]. by eapply Hmax.
Qed.

Section held_out_files.
Context {RS : RandomState}.

(** X3.  [solution.csv] has the columns [id], [highUptake_mol], [Usage] and
    one record per held-out row, in the order the rows were chosen: the
    position of the record in the input, the target cell of that input
    record, and the constant ["Public"]. *)
Theorem solution_csv_contents (ds : dataset) (df : DataFrame) (w1 : world)
    (train test : DataFrame) (w2 : world) :
  cleaner ds world0 = (Ok df, w1) →
  splitter df w1 = (Ok (train, test), w2) →
  written w2 !! 0
  = Some (solution_csv,
          {| header := ["id"; target; "Usage"];
             body := (λ i, [Int (Z.of_nat i);
                            default NaN (input_cell ds i target);
                            Str "Public"]) <$> index test |}).
Proof.
  intros Hc Hs.
  destruct (splitter_outputs _ _ _ _ _ _ Hc Hs)
    as (ids & great & filler & lo & hi & u & _ & _ & _ & _ & _ & _ & _ & Hit
        & _ & _ & _ & _ & _ & _ & Hw & _).
  by rewrite Hw, Hit.
Qed.

(** X4.  [test.csv] has the columns of the frame other than the target (the
    kept columns of the input in file order, and [id]); its record for a
    held-out row holds the cells of that input record and, under [id], its
    position in the input. *)
Theorem test_csv_contents (ds : dataset) (df : DataFrame) (w1 : world)
    (train test : DataFrame) (w2 : world) :
  cleaner ds world0 = (Ok df, w1) →
  splitter df w1 = (Ok (train, test), w2) →
  ∃ ft,
    written w2 !! 1 = Some (test_csv, ft)
    ∧ header ft = filter (λ c, c ≠ target) (frame_columns ds)
    ∧ (target ∉ header ft)
    ∧ body ft = (λ i, (λ c, indexed_cell ds i c) <$> header ft) <$> index test.
Proof.
  intros Hc Hs.
  destruct (splitter_outputs _ _ _ _ _ _ Hc Hs)
    as (ids & great & filler & lo & hi & u & _ & _ & _ & _ & _ & _ & _ & Hit
        & _ & _ & _ & _ & _ & _ & Hw & _).
  eexists. rewrite Hw, Hit. split; [done|]. simpl.
  split_and!; [done| |done]. by intros [? _]%list_elem_of_filter.
Qed.

(** X5.  [sample_submission.csv] pairs the [id]s of the held-out rows, in
    the same order, with the 100 numbers that one uniform draw returns: the
    draw that the generator, seeded with 42, makes after the two
    permutations of the selection, and the last draw of cell 6.  The bounds
    of that draw are the smallest and the largest target value of the whole
    input, held-out rows included, and they span a range that the draw
    accepts. *)
Theorem sample_submission_contents (ds : dataset) (df : DataFrame)
    (w1 : world) (train test : DataFrame) (w2 : world) :
  cleaner ds world0 = (Ok df, w1) →
  splitter df w1 = (Ok (train, test), w2) →
  ∃ lo hi u,
    written w2 !! 2
    = Some (sample_submission_csv,
            {| header := ["id"; target];
               body := (λ p : nat * Z, [Int (Z.of_nat p.1); Float p.2])
                       <$> zip (index test) u |})
    ∧ u = (uniform (permutation (permutation (seed 42) 10).2
                      (length (ds_records ds) - 6)).2 lo hi 100).1
    ∧ gen w2 = (uniform (permutation (permutation (seed 42) 10).2
                           (length (ds_records ds) - 6)).2 lo hi 100).2
    ∧ length u = 100
    ∧ last (draws w2) = Some (DrawUniform lo hi 100)
    ∧ target_range ds = Some (lo, hi)
    ∧ finite_range lo hi = true
    ∧ (∃ i, target_value ds i = Some lo)
    ∧ (∃ i, target_value ds i = Some hi)
    ∧ ∀ i v, target_value ds i = Some v → (lo ≤ v ≤ hi)%Z.
Proof.
  intros Hc Hs.
  destruct (splitter_outputs _ _ _ _ _ _ Hc Hs)
    as (ids & great & filler & lo & hi & u & _ & _ & _ & _ & _ & _ & _ & Hit
        & _ & _ & _ & Hlo & Hhi & Hul & Hw & Hd & Hu & Hg & Hfr).
  destruct (indexed_rows _ _ _ _ Hc) as [Hrows Hall].
  assert (target_range ds = Some (lo, hi)) as Hrange.
  { destruct (cleaner_target_range _ _ _ _ Hc) as [Hmin Hmax].
    rewrite series_min_indexed, Hmin in Hlo.
    rewrite series_max_indexed, Hmax in Hhi.
    destruct (target_range ds) as [[? ?]|]; [|done].
    simpl in Hlo, Hhi. by simplify_eq. }
  apply series_min_spec in Hlo as [(rl & Hrl & Hvl) Hmin].
  apply series_max_spec in Hhi as [(rh & Hrh & Hvh) Hmax].
  exists lo, hi, u. rewrite Hw, Hit, Hd.
  split_and!; [done|done|done|done|done|done|done|..].
  - exists rl.1. apply Hrows in Hrl as (_ & <- & _). done.
  - exists rh.1. apply Hrows in Hrh as (_ & <- & _). done.
  - intros i v Hv.
    destruct (decide (i < length (ds_records ds))) as [Hi|Hi].
    + destruct (Hall i Hi) as (r & Hr & <-).
      pose proof (Hrows r Hr) as (_ & Hval & _). rewrite <-Hval in Hv.
      split; [by eapply Hmin|by eapply Hmax].
    + rewrite target_value_None in Hv by lia. done.
Qed.

(** X6.  The held-out rows are, in this order: the record that ranks first
    by target value; five of the records that rank 6th to 15th (never one
    of the five that rank highest); and 94 other records.  No record is
    held out twice.  The ranking lists every record once, from the largest
    target value down, equal values in file order and records without a
    value last. *)
Theorem held_out_selection (ds : dataset) (df : DataFrame) (w1 : world)
    (train test : DataFrame) (w2 : world) :
  cleaner ds world0 = (Ok df, w1) →
  splitter df w1 = (Ok (train, test), w2) →
  ∃ great filler,
    index test = take 1 (ranking ds) ++ great ++ filler
    ∧ length (take 1 (ranking ds)) = 1
    ∧ length great = 5
    ∧ (∀ g, g ∈ great → g ∈ drop 5 (take 15 (ranking ds)))
    ∧ (∀ g, g ∈ great → g ∉ take 5 (ranking ds))
    ∧ length filler = 94
    ∧ NoDup (index test)
    ∧ ranking ds ≡ₚ seq 0 (length (ds_records ds))
    ∧ StronglySorted (precedes ds) (ranking ds).
Proof.
  intros Hc Hs.
  destruct (splitter_outputs _ _ _ _ _ _ Hc Hs)
    as (ids & great & filler & lo & hi & u & -> & Hgl & Hgin & Hfl & Hnd & _
        & HN & Hit & _).
  pose proof (ranking_Permutation ds) as Hp.
  exists great, filler. split_and!; try done.
  - rewrite length_take, Hp, length_seq. lia.
  - intros g Hg%Hgin. eapply take_take_drop_disjoint; [|done|exact Hg].
    rewrite Hp. apply NoDup_seq.
  - by rewrite Hit.
  - apply ranking_sorted.
Qed.

(** X7.  The first held-out row is the record with the largest target
    value; when several records tie for it, the first of them in file
    order.  That record is not a training row. *)
Theorem first_held_out_row (ds : dataset) (df : DataFrame) (w1 : world)
    (train test : DataFrame) (w2 : world) (i : nat) (v : Z) :
  cleaner ds world0 = (Ok df, w1) →
  splitter df w1 = (Ok (train, test), w2) →
  target_value ds i = Some v →
  (∀ j u, target_value ds j = Some u → (u ≤ v)%Z ∧ (u = v → i ≤ j)) →
  head (index test) = Some i ∧ i ∉ index train.
Proof.
  intros Hc Hs Hv Hmax.
  destruct (splitter_outputs _ _ _ _ _ _ Hc Hs)
    as (ids & great & filler & lo & hi & us & -> & _ & _ & _ & _ & _
        & HN & Hit & Hitr & _).
  assert (i < length (ds_records ds)) as Hi.
  { destruct (decide (i < length (ds_records ds))); [done|].
    rewrite target_value_None in Hv by lia. done. }
  assert (head (ranking ds) = Some i) as Hh.
  { apply ranking_head; [done|]. intros j Hj Hne. unfold precedes.
    rewrite Hv. destruct (target_value ds j) as [u|] eqn:Hu; [|by intros []].
    destruct (Hmax j u Hu) as [Hle Htie]. intros [?|[-> ?]]; [lia|].
    specialize (Htie eq_refl). lia. }
  apply head_Some in Hh as [R HR]. rewrite Hit, Hitr, HR. split; [done|].
  intros [Hn _]%list_elem_of_filter. apply Hn. by left.
Qed.

End held_out_files.

Lemma demo_maximum j u :
  target_value demo j = Some u → (u ≤ 100)%Z ∧ (u = 100%Z → 30 ≤ j).
Proof.
  intros Hu. destruct (decide (j < 108)) as [Hj|Hj].
  - assert (forallb (λ k, match target_value demo k with
                          | Some u => (u <=? 100)%Z
                                      && (negb (u =? 100)%Z || (30 <=? k))
                          | None => true
                          end) (seq 0 108) = true) as Hall
      by (vm_compute; reflexivity).
    rewrite forallb_forall in Hall. specialize (Hall j).
    rewrite Hu in Hall.
    rewrite andb_true_iff, orb_true_iff, negb_true_iff in Hall.
    rewrite Z.leb_le, Z.eqb_neq, Nat.leb_le in Hall.
    destruct Hall as [? ?]; [|lia].
    apply list_elem_of_In, elem_of_seq. lia.
  - rewrite target_value_None in Hu; [done|]. vm_compute. lia.
Qed.

Lemma solution_csv_contents_witness :
  ∃ (test : DataFrame) (w2 : @world quiet) f,
    written w2 !! 0 = Some (solution_csv, f)
    ∧ header f = ["id"; target; "Usage"]
    ∧ length (body f) = length (index test).
Proof.
  destruct (run_Ok _ _ quiet_run_returns)
    as (df & w1 & train & test & w2 & train' & w3 & Hc & Hs & Hk & _).
  exists test, w2. eexists.
  split; [exact (@solution_csv_contents quiet demo df w1 train test w2 Hc Hs)|].
  split; [reflexivity|]. simpl. apply length_fmap.
Defined.

Lemma test_csv_contents_witness :
  ∃ (w2 : @world quiet) ft,
    written w2 !! 1 = Some (test_csv, ft)
    ∧ header ft = ["voidFraction"; "density"; "num_carbon"; "id"].
Proof.
  destruct (run_Ok _ _ quiet_run_returns)
    as (df & w1 & train & test & w2 & train' & w3 & Hc & Hs & Hk & _).
  destruct (@test_csv_contents quiet demo df w1 train test w2 Hc Hs)
    as (ft & Hw & Hh & _).
  exists w2, ft. split; [exact Hw|]. rewrite Hh. vm_compute. reflexivity.
Defined.

Lemma sample_submission_contents_witness :
  ∃ (w2 : @world quiet) lo hi,
    last (draws w2) = Some (DrawUniform lo hi 100)
    ∧ target_range demo = Some (lo, hi)
    ∧ ∀ i v, target_value demo i = Some v → (lo ≤ v ≤ hi)%Z.
Proof.
  destruct (run_Ok _ _ quiet_run_returns)
    as (df & w1 & train & test & w2 & train' & w3 & Hc & Hs & Hk & _).
  destruct (@sample_submission_contents quiet demo df w1 train test w2 Hc Hs)
    as (lo & hi & u & _ & _ & _ & _ & Hd & Hr & _ & _ & _ & Hb).
  exists w2, lo, hi. split; [exact Hd|]. split; [exact Hr|exact Hb].
Defined.

Lemma held_out_selection_witness :
  ∃ (test : DataFrame) great filler,
    index test = take 1 (ranking demo) ++ great ++ filler
    ∧ length great = 5
    ∧ length filler = 94.
Proof.
  destruct (run_Ok _ _ quiet_run_returns)
    as (df & w1 & train & test & w2 & train' & w3 & Hc & Hs & Hk & _).
  destruct (@held_out_selection quiet demo df w1 train test w2 Hc Hs)
    as (great & filler & Hi & _ & Hg & _ & _ & Hf & _).
  exists test, great, filler. split; [exact Hi|]. split; [exact Hg|exact Hf].
Defined.

Lemma first_held_out_row_witness :
  ∃ train test : DataFrame, head (index test) = Some 30 ∧ 30 ∉ index train.
Proof.
  destruct (run_Ok _ _ quiet_run_returns)
    as (df & w1 & train & test & w2 & train' & w3 & Hc & Hs & Hk & _).
  exists train, test.
  apply (@first_held_out_row quiet demo df w1 train test w2 30 100 Hc Hs).
  - vm_compute. reflexivity.
  - exact demo_maximum.
Defined.
(** ** The training rows and the draws of the Corruptor *)

Lemma filter_complement_Permutation (labels idx : list nat) :
  NoDup labels → NoDup idx → (∀ i, i ∈ labels → i ∈ idx) →
  filter (λ i, i ∉ labels) idx ++ labels ≡ₚ idx.
Proof.
  intros Hl Hi Hsub. symmetry. apply NoDup_Permutation; [done| |].
  - apply NoDup_app. split_and!; [by apply NoDup_filter| |done].
    by intros i [? _]%list_elem_of_filter.
  - intros i. rewrite elem_of_app, list_elem_of_filter.
    destruct (decide (i ∈ labels)); split; auto; intros [[? ?]|?]; auto.
Qed.

Section corruptor_more.
Context {RS : RandomState} {SO : SetOrder}.

Lemma float64_columns_columns d1 d2 :
  columns d1 = columns d2 → float64_columns d1 = float64_columns d2.
Proof.
  intros Hc. unfold float64_columns, names, select_dtypes_exclude.
  by rewrite Hc.
Qed.

(** With fewer than eight rows no row is selected and the frame comes back
    as it was. *)
Lemma corruptor_small df w :
  len df < 8 →
  corruptor df w
  = (Ok df, log (DrawPermutation (len df)) (permutation (gen w) (len df)).2 w).
Proof.
  intros Hlt. unfold corruptor. rewrite bind_unfold.
  destruct (nan_indices_spec df w) as [[Hbad _]|(sel & -> & Hlen & _)].
  { rewrite Nat.div_small in Hbad by done. lia. }
  rewrite Nat.div_small in Hlen by done.
  by apply nil_length_inv in Hlen as ->.
Qed.

(** A completed run went through the four stages; the last one draws
    nothing. *)
Lemma run_trace ds w :
  run ds = (Ok (), w) →
  ∃ df w1 train test w2 train' w3,
    cleaner ds world0 = (Ok df, w1)
    ∧ splitter df w1 = (Ok (train, test), w2)
    ∧ corruptor train w2 = (Ok train', w3)
    ∧ written w = written w3 ++ [(train_csv, csv_of train')]
    ∧ draws w = draws w3
    ∧ gen w = gen w3.
Proof.
  unfold run, notebook.
  intros (df & w1 & Hc & H)%bind_Ok.
  apply bind_Ok in H as ([train test] & w2 & Hs & H).
  apply bind_Ok in H as (train' & w3 & Hk & H).
  apply to_csv_Ok in H as (? & ? & ?). by eexists _, _, _, _, _, _, _.
Qed.

(** X8.  A completed run consults the generator in this order and no
    more: the permutation of the ten candidates ranked 6th to 15th; the
    permutation of the [N - 6] rows that are not anchors; one uniform draw
    of 100 numbers; the permutation of the [N - 100] training rows; then,
    for each of the [(N - 100) / 8] selected rows, a binomial draw over as
    many trials as the frame has columns followed by the permutation of
    the eligible columns. *)
Theorem draw_order (ds : dataset) (w : world) :
  run ds = (Ok (), w) →
  ∃ lo hi,
    draws w
    = [DrawPermutation 10;
       DrawPermutation (length (ds_records ds) - 6);
       DrawUniform lo hi 100;
       DrawPermutation (length (ds_records ds) - 100)]
      ++ loop_draws ((length (ds_records ds) - 100) / 8)
           (length (frame_columns ds)) (eligible_count ds).
Proof.
  intros (df & w1 & train & test & w2 & train' & w3 & Hc & Hs & Hk & _ & Hd
          & _)%run_trace.
  destruct (splitter_outputs _ _ _ _ _ _ Hc Hs)
    as (ids & great & filler & lo & hi & u & _ & _ & _ & _ & Hnd & Hin & HN
        & Hit & Hitr & Htc & _ & _ & _ & _ & _ & Hd2 & _).
  pose proof (columns_indexed _ _ _ _ Hc) as [Hschema Hfc].
  pose proof Hc as (_ & Hidx & Hlen0 & _)%cleaner_Ok.
  pose proof Hs
    as (comb & ? & ? & ? & _ & _ & _ & _ & _ & _ & _ & _ & _ & Hsum
        & _)%splitter_frames; [|rewrite Hidx; apply NoDup_seq].
  assert (len train = length (ds_records ds) - 100) as Hlen by lia.
  apply corruptor_trace in Hk. exists lo, hi.
  rewrite Hd, Hk, Hd2, Hlen, Htc. unfold eligible_count.
  rewrite (float64_columns_columns train
             {| columns := frame_schema ds; rows := [] |}) by done.
  rewrite <-Hfc. unfold names. rewrite Hschema, length_fmap. done.
Qed.


(** The training frame of a completed split, written out: the records of
    the input that are not held out, in file order, with their [id]. *)
Lemma train_frame_csv ds df w1 train test w2 :
  cleaner ds world0 = (Ok df, w1) →
  splitter df w1 = (Ok (train, test), w2) →
  csv_of train
  = {| header := frame_columns ds;
       body := (λ i, (λ c, indexed_cell ds i c) <$> frame_columns ds)
               <$> filter (λ i, i ∉ index test)
                     (seq 0 (length (ds_records ds))) |}.
Proof.
  intros Hc Hs.
  destruct (splitter_outputs _ _ _ _ _ _ Hc Hs)
    as (ids & great & filler & lo & hi & u & _ & _ & _ & _ & _ & _ & _
        & Hit & Hitr & Htc & Hsub & _).
  pose proof (columns_indexed _ _ _ _ Hc) as [Hschema Hfc].
  rewrite Hit, <-Hitr. apply csv_of_cells.
  - unfold names. rewrite Htc, <-Hschema. exact Hfc.
  - apply len_index.
  - intros c Hcn%frame_columns_kept. by eapply frame_series.
Qed.

(** X9.  On an input of 100 to 107 records the Corruptor selects no row:
    the run completes whatever the generator returns, it makes no binomial
    draw, and [train.csv] holds the records that are not held out exactly
    as the input has them (with 100 records, only the header). *)
Theorem small_table_not_corrupted (ds : dataset) (df : DataFrame)
    (w1 : world) (train test : DataFrame) (w2 : world) :
  cleaner ds world0 = (Ok df, w1) →
  splitter df w1 = (Ok (train, test), w2) →
  length (ds_records ds) < 108 →
  ∃ w,
    run ds = (Ok (), w)
    ∧ written w
      = written w2
        ++ [(train_csv,
             {| header := frame_columns ds;
                body := (λ i, (λ c, indexed_cell ds i c) <$> frame_columns ds)
                        <$> filter (λ i, i ∉ index test)
                              (seq 0 (length (ds_records ds))) |})]
    ∧ binomial_trials (draws w) = [].
Proof.
  intros Hc Hs HN.
  pose proof Hc as (_ & Hidx & Hlen0 & _)%cleaner_Ok.
  pose proof Hs
    as (comb & ? & ? & ? & _ & _ & _ & _ & _ & _ & _ & _ & _ & Hsum
        & _)%splitter_frames; [|rewrite Hidx; apply NoDup_seq].
  assert (len train < 8) as Hsmall by lia.
  pose proof (corruptor_small train w2 Hsmall) as Hk.
  destruct (run_stages _ _ _ _ _ _ _ _ Hc Hs Hk) as (w & Hrun & Hw).
  exists w. split; [done|]. split.
  - rewrite Hw, written_log. by rewrite (train_frame_csv _ _ _ _ _ _ Hc Hs).
  - apply run_trace
      in Hrun as (df' & w1' & train0 & test0 & w2' & train' & w3 & Hc' & Hs'
                  & Hk' & _ & Hd & _).
    rewrite Hc in Hc'. injection Hc' as <- <-.
    rewrite Hs in Hs'. injection Hs' as <- <- <-.
    rewrite Hk in Hk'. injection Hk' as _ <-.
    destruct (splitter_outputs _ _ _ _ _ _ Hc Hs)
      as (ids & great & filler & lo & hi & u & _ & _ & _ & _ & _ & _ & _
          & _ & _ & _ & _ & _ & _ & _ & _ & Hd2 & _).
    by rewrite Hd, draws_log, Hd2.
Qed.

(** X10.  A completed run leaves the four files, and the [id]s of
    [train.csv] together with those of [test.csv] are the positions
    [0 .. N-1] of the input records, each once: no record is lost and none
    is in both files.  [test.csv] has 100 records and [train.csv] the
    other [N - 100]. *)
Theorem ids_partition_input (ds : dataset) (w : world) :
  run ds = (Ok (), w) →
  ∃ fs ft fb ftr,
    written w = [(solution_csv, fs); (test_csv, ft);
                 (sample_submission_csv, fb); (train_csv, ftr)]
    ∧ csv_column "id" ftr ++ csv_column "id" ft
      ≡ₚ (λ i, Int (Z.of_nat i)) <$> seq 0 (length (ds_records ds))
    ∧ length (body ft) = 100
    ∧ length (body ftr) = length (ds_records ds) - 100.
Proof.
  intros (df & w1 & train & test & w2 & train' & w3 & Hc & Hs & Hk & Hw & _
          )%run_trace.
  pose proof Hc as (-> & Hidx & Hlen0 & _)%cleaner_Ok.
  destruct (splitter_outputs _ _ _ _ _ _ Hc Hs)
    as (ids & great & filler & lo & hi & u & _ & _ & _ & _ & _ & _ & _
        & Hit & _ & _ & _ & _ & _ & _ & Hw2 & _).
  pose proof Hs
    as (comb & fs & ft & fb & Hnd & Hcl & Hcin & _ & Hit' & Htc & _ & Hitr
        & Hst & Hsum & Hws & _ & Hft & _)%splitter_frames;
    [|rewrite Hidx; apply NoDup_seq].
  pose proof Hk as (Hkc & Hki & Hser)%corruptor_frames.
  exists fs, ft, fb, (csv_of train').
  rewrite Hw, (silent_run _ _ _ _ (silent_corruptor _) Hk), Hws.
  split; [done|]. split_and!.
  - rewrite Hft, csv_column_csv_of, Hser, Hst, Hitr, fmap_default_id_cell.
    + rewrite <-fmap_app. apply fmap_Permutation.
      rewrite Hidx in Hcin |- *. by apply filter_complement_Permutation;
        [|apply NoDup_seq|].
    + unfold dtype_of. rewrite Htc.
      change (lookup_dtype "id" (columns (indexed df)))
        with (dtype_of "id" (indexed df)).
      by rewrite dtype_of_indexed_id.
    + unfold names. rewrite Hkc, Htc. apply names_indexed_id.
  - rewrite Hws in Hw2. simpl in Hw2. injection Hw2 as _ -> _.
    simpl. by rewrite length_fmap, <-Hit, Hit'.
  - unfold csv_of. simpl. rewrite length_fmap. fold (len train').
    rewrite <-len_index, Hki, len_index. lia.
Qed.

End corruptor_more.

Lemma draw_order_witness :
  ∃ lo hi,
    draws (@run quiet ElementsOrder demo).2
    = [DrawPermutation 10; DrawPermutation 102; DrawUniform lo hi 100;
       DrawPermutation 8; DrawBinomial 5 (1 # 10)%Q; DrawPermutation 3].
Proof.
  destruct (@draw_order quiet ElementsOrder demo _ quiet_run_returns)
    as (lo & hi & Hd).
  exists lo, hi. rewrite Hd. vm_compute. reflexivity.
Defined.

Lemma small_table_not_corrupted_witness :
  ∃ (w2 w : @world quiet) f,
    @run quiet ElementsOrder demo100 = (Ok (), w)
    ∧ written w = written w2 ++ [(train_csv, f)]
    ∧ binomial_trials (draws w) = [].
Proof.
  destruct (returns_inv (@cleaner quiet demo100 ≫= @splitter quiet) world0)
    as ([train test] & w2 & (df & w1 & Hc & Hs)%bind_Ok);
    [vm_compute; reflexivity|].
  destruct (@small_table_not_corrupted quiet ElementsOrder demo100 df w1
              train test w2 Hc Hs) as (w & Hrun & Hw & Hb);
    [vm_compute; lia|].
  exists w2, w. eexists. split; [exact Hrun|]. split; [exact Hw|exact Hb].
Defined.

Lemma ids_partition_input_witness :
  ∃ ft ftr,
    (test_csv, ft) ∈ written (@run quiet ElementsOrder demo).2
    ∧ (train_csv, ftr) ∈ written (@run quiet ElementsOrder demo).2
    ∧ csv_column "id" ftr ++ csv_column "id" ft
      ≡ₚ (λ i, Int (Z.of_nat i)) <$> seq 0 108.
Proof.
  destruct (@ids_partition_input quiet ElementsOrder demo _ quiet_run_returns)
    as (fs & ft & fb & ftr & Hw & Hp & _).
  exists ft, ftr. rewrite Hw. split; [|split; [|exact Hp]].
  - apply list_elem_of_further, list_elem_of_here.
  - do 3 apply list_elem_of_further. apply list_elem_of_here.
Defined.
(** ** How a run ends *)

Section run_outcomes.
Context {RS : RandomState} {SO : SetOrder}.

Lemma corrupt_rows_raises cols sel df w e w' :
  corrupt_rows cols sel df w = (Raise e, w') → e = ValueError.
Proof.
  revert df w. induction sel as [|idx sel IH]; intros df w Hrun; [done|].
  simpl in Hrun. rewrite bind_unfold in Hrun.
  destruct (corrupt_row_spec cols df idx w)
    as [[_ Hr]|(_ & nc & Hr & _)]; rewrite Hr in Hrun.
  - by injection Hrun as <- _.
  - by eapply IH.
Qed.

Lemma corruptor_raises df w e w' :
  corruptor df w = (Raise e, w') → e = ValueError.
Proof.
  unfold corruptor. rewrite bind_unfold.
  destruct (nan_indices_spec df w) as [[_ ->]|(sel & -> & _)].
  - by intros [= <- _].
  - apply corrupt_rows_raises.
Qed.

Lemma combined_indices_short df w :
  NoDup (index df) →
  (dtype_of target df = Some Float64 ∨ dtype_of target df = Some Int64) →
  len df < 100 →
  ∃ w', combined_indices df w = (Raise ValueError, w').
Proof.
  intros Hnd Hdt Hlen.
  destruct (combined_indices df w) as [[comb|e] w'] eqn:Hrun.
  { apply combined_indices_parts in Hrun as (? & ? & _ & _ & _ & _ & ? & _);
      [lia|done]. }
  exists w'. f_equal. f_equal. revert Hrun. unfold combined_indices.
  rewrite bind_unfold. unfold lift at 1. rewrite nlargest_total by done.
  rewrite bind_unfold. unfold lift at 1. rewrite nlargest_total by done.
  rewrite bind_unfold.
  match goal with |- context [sample 5 ?d w] =>
    destruct (sample 5 d w) as [[great|e0] w3] eqn:Hg
  end.
  - rewrite bind_unfold.
    match goal with |- context [np_choice ?a ?n ?w0] =>
      destruct (np_choice_spec a n w0) as [[_ ->]|(_ & l & -> & _)]
    end; [by intros [= <- _]|done].
  - intros [= <- _]. unfold sample in Hg. rewrite bind_unfold in Hg.
    match type of Hg with context [choice_positions ?n ?k ?w0] =>
      destruct (choice_positions_spec n k w0) as [[_ Hr]|(_ & idx & Hr & _)]
    end; rewrite Hr in Hg; [by injection Hg as <- _|done].
Qed.

Lemma run_cleaner_raise ds e w1 :
  cleaner ds world0 = (Raise e, w1) → run ds = (Raise e, w1).
Proof. intros Hc. unfold run, notebook. by rewrite bind_unfold, Hc. Qed.

Lemma run_splitter_raise ds df w1 e w2 :
  cleaner ds world0 = (Ok df, w1) →
  splitter df w1 = (Raise e, w2) →
  run ds = (Raise e, w2).
Proof.
  intros Hc Hs. unfold run, notebook.
  by rewrite (bind_run _ _ _ _ _ Hc), bind_unfold, Hs.
Qed.

Lemma run_corruptor_raise ds df w1 train test w2 e w3 :
  cleaner ds world0 = (Ok df, w1) →
  splitter df w1 = (Ok (train, test), w2) →
  corruptor train w2 = (Raise e, w3) →
  run ds = (Raise e, w3).
Proof.
  intros Hc Hs Hk. unfold run, notebook.
  rewrite (bind_run _ _ _ _ _ Hc), (bind_run _ _ _ _ _ Hs).
  by rewrite bind_unfold, Hk.
Qed.

(** X11.  How a run ends, by its input.  If a column that the Cleaner
    drops is absent, or the target column is absent: [KeyError], no file.
    If the target column holds strings: [TypeError], no file.  With a
    numeric target and fewer than 100 records: [ValueError] from the
    sampling, no file.  With at least 100 records, if no record has a
    target value, or if the smallest and the largest target value span a
    range that is not a finite double: [OverflowError] from the uniform
    draw, after [solution.csv] and [test.csv] were written.  Otherwise the
    run completes with the four files, unless a column-count draw of the
    Corruptor is too large: then [ValueError], with the three held-out
    files written.  The assertions of cell 6 never fail. *)
Theorem run_outcome (ds : dataset) :
  let res := (run ds).1 in
  let files := (written (run ds).2).*1 in
  if decide (Forall (λ c, c ∈ (ds_columns ds).*1) dropped_columns) then
    match lookup_dtype target (ds_columns ds) with
    | None => res = Raise (KeyError (Col target)) ∧ files = []
    | Some Object => res = Raise TypeError ∧ files = []
    | Some _ =>
        if decide (length (ds_records ds) < 100)
        then res = Raise ValueError ∧ files = []
        else
          match target_range ds with
          | None => res = Raise OverflowError ∧ files = [solution_csv; test_csv]
          | Some (lo, hi) =>
              if finite_range lo hi
              then (res = Ok () ∧ files = output_files)
                   ∨ (res = Raise ValueError ∧ files = held_out_files)
              else res = Raise OverflowError
                   ∧ files = [solution_csv; test_csv]
          end
    end
  else ∃ c, c ∈ dropped_columns ∧ (c ∉ (ds_columns ds).*1)
            ∧ res = Raise (KeyError (Col c)) ∧ files = [].
Proof.
  intros res files. subst res files.
  destruct (cleaner_cases ds world0) as [[Hall [df Hc]]|(c & Hc1 & Hc2 & Hc)].
  2:{ rewrite decide_False.
      - exists c. by rewrite (run_cleaner_raise _ _ _ Hc).
      - intros Hall. eapply Forall_forall in Hall; [|exact Hc1]. done. }
  rewrite decide_True by done.
  pose proof Hc as (_ & Hidx & Hlen & Hdt & _)%cleaner_Ok.
  assert (NoDup (index (indexed df))) as Hndi.
  { rewrite index_indexed, Hidx. apply NoDup_seq. }
  assert (dtype_of target (indexed df) = lookup_dtype target (ds_columns ds))
    as Hdti by by rewrite dtype_of_indexed.
  assert (numeric_target ds →
          if decide (length (ds_records ds) < 100)
          then (run ds).1 = Raise ValueError
               ∧ (written (run ds).2).*1 = []
          else
            match target_range ds with
            | None => (run ds).1 = Raise OverflowError
                      ∧ (written (run ds).2).*1 = [solution_csv; test_csv]
            | Some (lo, hi) =>
                if finite_range lo hi
                then ((run ds).1 = Ok ()
                      ∧ (written (run ds).2).*1 = output_files)
                     ∨ ((run ds).1 = Raise ValueError
                        ∧ (written (run ds).2).*1 = held_out_files)
                else (run ds).1 = Raise OverflowError
                     ∧ (written (run ds).2).*1 = [solution_csv; test_csv]
            end)
    as Hnum.
  { intros Hnumeric.
    assert (dtype_of target df = Some Float64 ∨ dtype_of target df = Some Int64)
      as Hnumdf by by rewrite Hdt.
    case_decide as HN.
    - destruct (combined_indices_short (indexed df) world0) as [w' Hcomb];
        [done|by rewrite dtype_of_indexed|by rewrite len_indexed, Hlen|].
      rewrite (run_splitter_raise _ _ _ _ _ Hc (splitter_raise_combined _ _ _ _ Hcomb)).
      split; [done|]. simpl.
      by rewrite (silent_run _ _ _ _ (silent_combined_indices _) Hcomb).
    - pose proof (cleaner_splitter_numeric ds df world0 Hc) as Hs.
      assert (∀ w', splitter df world0 = (Raise OverflowError, w')
                    ∧ (written w').*1
                      = (written world0).*1 ++ [solution_csv; test_csv] →
                (run ds).1 = Raise OverflowError
                ∧ (written (run ds).2).*1 = [solution_csv; test_csv])
        as Hover.
      { intros w' [Hr Hw]. by rewrite (run_splitter_raise _ _ _ _ _ Hc Hr). }
      destruct (target_range ds) as [[lo hi]|];
        [destruct (finite_range lo hi)|].
      + destruct Hs as (train & test & w2 & Hs); [lia|done|].
        destruct (appends_splitter df world0) as (fs & Hfs & Hpost).
        rewrite Hs in Hfs, Hpost. simpl in Hfs, Hpost.
        destruct (corruptor train w2) as [[train'|e] w3] eqn:Hk.
        * left. destruct (run_stages _ _ _ _ _ _ _ _ Hc Hs Hk)
            as (w & -> & Hw). split; [done|]. simpl.
          rewrite Hw, (silent_run _ _ _ _ (silent_corruptor _) Hk), Hfs.
          rewrite fmap_app, Hpost. done.
        * right. rewrite (run_corruptor_raise _ _ _ _ _ _ _ _ Hc Hs Hk).
          rewrite (corruptor_raises _ _ _ _ Hk). split; [done|]. simpl.
          by rewrite (silent_run _ _ _ _ (silent_corruptor _) Hk), Hfs.
      + destruct Hs as (w' & Hs); [lia|done|]. by apply (Hover w').
      + destruct Hs as (w' & Hs); [lia|done|]. by apply (Hover w'). }
  destruct (lookup_dtype target (ds_columns ds)) as [[| |]|] eqn:Hdt'.
  - apply Hnum. by left.
  - apply Hnum. by right.
  - rewrite (run_splitter_raise _ _ _ _ _ Hc
               (splitter_raise_combined _ _ _ _
                  (combined_indices_object _ _ Hdti))). done.
  - rewrite (run_splitter_raise _ _ _ _ _ Hc
               (splitter_raise_combined _ _ _ _
                  (combined_indices_no_column _ _ Hdti))). done.
Qed.

End run_outcomes.

(** The small dataset with two targets too far apart: the run stops in the
    uniform draw, with [solution.csv] and [test.csv] written. *)
Lemma wide_range_overflows :
  (@run quiet ElementsOrder demo_wide).1 = Raise OverflowError
  ∧ (written (@run quiet ElementsOrder demo_wide).2).*1
    = [solution_csv; test_csv].
Proof. split; vm_compute; reflexivity. Qed.

(** ** What the order of the set of eligible columns can change *)

Lemma Forall2_common_l {A B C} (P : A → B → Prop) (Q : A → C → Prop) l k1 k2 :
  Forall2 P l k1 → Forall2 Q l k2 →
  Forall2 (λ y z, ∃ x, P x y ∧ Q x z) k1 k2.
Proof.
  intros HP. revert k2. induction HP as [|x y l k1 Hxy _ IH]; intros k2 HQ.
  - apply Forall2_nil_inv_l in HQ as ->. constructor.
  - apply Forall2_cons_inv_l in HQ as (z & k2' & Hxz & HQ & ->).
    constructor; [by exists x|by apply IH].
Qed.

Section set_order.
Context {RS : RandomState}.

Lemma corrupt_rows_agree cols1 cols2 sel d1 d2 w :
  length cols1 = length cols2 →
  columns d1 = columns d2 →
  (corrupt_rows cols1 sel d1 w).2 = (corrupt_rows cols2 sel d2 w).2
  ∧ match (corrupt_rows cols1 sel d1 w).1, (corrupt_rows cols2 sel d2 w).1 with
    | Ok _, Ok _ => True
    | Raise e1, Raise e2 => e1 = e2
    | _, _ => False
    end.
Proof.
  intros Hlen. revert d1 d2 w.
  induction sel as [|idx sel IH]; intros d1 d2 w Hcols; [done|].
  cbn [corrupt_rows]. rewrite !bind_unfold.
  destruct (corrupt_row_spec cols1 d1 idx w)
    as [[Hb1 ->]|(Hb1 & nc1 & -> & _)];
    destruct (corrupt_row_spec cols2 d2 idx w)
      as [[Hb2 ->]|(Hb2 & nc2 & -> & _)];
    rewrite Hcols, Hlen in *; try lia.
  - done.
  - by apply IH.
Qed.

Lemma length_float64_columns (SO1 SO2 : SetOrder) df :
  length (@float64_columns SO1 df) = length (@float64_columns SO2 df).
Proof.
  unfold float64_columns.
  by rewrite (@set_to_list_spec SO1), (@set_to_list_spec SO2).
Qed.

Lemma corruptor_agree (SO1 SO2 : SetOrder) df w :
  (@corruptor RS SO1 df w).2 = (@corruptor RS SO2 df w).2
  ∧ match (@corruptor RS SO1 df w).1, (@corruptor RS SO2 df w).1 with
    | Ok _, Ok _ => True
    | Raise e1, Raise e2 => e1 = e2
    | _, _ => False
    end.
Proof.
  unfold corruptor. rewrite !bind_unfold.
  destruct (nan_indices df w) as [[sel|e] w1]; [|done].
  apply corrupt_rows_agree; [apply length_float64_columns|done].
Qed.

(** The selected rows of a completed run of the Corruptor hold a marker;
    the others are as they were. *)
Lemma corruptor_marks (SO : SetOrder) df w df' w' :
  corruptor df w = (Ok df', w') →
  ∃ sel w1,
    nan_indices df w = (Ok sel, w1)
    ∧ names df' = names df
    ∧ Forall2 (λ r r' : row,
                 (r.1 ∈ sel → has_missing (record_of (names df) r'))
                 ∧ (r.1 ∉ sel → r' = r))
        (rows df) (rows df').
Proof.
  intros (sel & w1 & Hsel & _ & _ & _ & Hcols & Hrows)%corruptor_Ok.
  exists sel, w1. split; [done|]. split; [unfold names; by rewrite Hcols|].
  eapply Forall2_impl; [exact Hrows|].
  intros r r' (_ & Hkeep & Hhit & _). split; [|done].
  intros (c & Hcin & Hcell)%Hhit. unfold has_missing.
  replace NaN with (default NaN (r'.2 !! c)) by by rewrite Hcell.
  apply elem_of_record_of.
  by apply elem_of_float64_columns in Hcin as [? _].
Qed.

(** X12.  Two runs on the same input with the same generator that differ
    only in the iteration order of the set of eligible columns end the same
    way (both complete, or both raise the same exception), make the same
    draws, leave the generator in the same state and write the same
    held-out files.  Their [train.csv] files have the same header and the
    same [id] column, and the same records carry a missing-value marker:
    the order decides only which eligible cells of a selected row are
    blanked. *)
Theorem set_order_confined (SO1 SO2 : SetOrder) (ds : dataset) :
  let r1 := @run RS SO1 ds in
  let r2 := @run RS SO2 ds in
  r1.1 = r2.1
  ∧ gen r1.2 = gen r2.2
  ∧ draws r1.2 = draws r2.2
  ∧ (written r1.2).*1 = (written r2.2).*1
  ∧ take 3 (written r1.2) = take 3 (written r2.2)
  ∧ ∀ f1 f2,
      last (written r1.2) = Some (train_csv, f1) →
      last (written r2.2) = Some (train_csv, f2) →
      header f1 = header f2
      ∧ csv_column "id" f1 = csv_column "id" f2
      ∧ Forall2 (λ rec1 rec2, has_missing rec1 ↔ has_missing rec2)
          (body f1) (body f2).
Proof.
  intros r1 r2. subst r1 r2. unfold run, notebook.
  rewrite !bind_unfold.
  destruct (cleaner ds world0) as [[df|e] w1] eqn:Hc.
  2:{ split_and!; try done. intros f1 f2 H1 H2. rewrite H1 in H2.
      injection H2 as <-. split_and!; [done..|].
      apply Forall_Forall2_diag, Forall_true. done. }
  rewrite !bind_unfold.
  destruct (splitter df w1) as [[[train test]|e] w2] eqn:Hs.
  2:{ split_and!; try done. intros f1 f2 H1 H2. rewrite H1 in H2.
      injection H2 as <-. split_and!; [done..|].
      apply Forall_Forall2_diag, Forall_true. done. }
  rewrite !bind_unfold.
  destruct (corruptor_agree SO1 SO2 train w2) as [Hw Hres].
  destruct (@corruptor RS SO1 train w2) as [[a|e1] w3] eqn:Hk1;
    destruct (@corruptor RS SO2 train w2) as [[b|e2] w3'] eqn:Hk2;
    simpl in Hw, Hres; try done; subst.
  2:{ split_and!; try done. intros f1 f2 H1 H2. rewrite H1 in H2.
      injection H2 as <-. split_and!; [done..|].
      apply Forall_Forall2_diag, Forall_true. done. }
  pose proof Hc as (-> & Hidx & _)%cleaner_Ok.
  pose proof Hs
    as (comb & fs & ft & fb & _ & _ & _ & _ & _ & Htc & _ & _ & Hst & _ & Hws
        & _)%splitter_frames; [|rewrite Hidx; apply NoDup_seq].
  pose proof (silent_run _ _ _ _ (silent_corruptor _) Hk2) as Hw3.
  rewrite Hws in Hw3. simpl in Hw3.
  unfold persist, to_csv. simpl. rewrite Hw3. simpl.
  split_and!; try done.
  intros f1 f2 [= <-] [= <-].
  pose proof Hk1 as (Hac & Hai & Haser)%corruptor_frames.
  pose proof Hk2 as (Hbc & Hbi & Hbser)%corruptor_frames.
  apply corruptor_marks in Hk1 as (sel & w4 & Hsel & Han & Ha).
  apply corruptor_marks in Hk2 as (sel' & w4' & Hsel' & Hbn & Hb).
  rewrite Hsel in Hsel'. injection Hsel' as <- <-.
  assert (dtype_of "id" train ≠ Some Float64) as Hid.
  { unfold dtype_of. rewrite Htc.
    change (lookup_dtype "id" (columns (indexed df)))
      with (dtype_of "id" (indexed df)).
    by rewrite dtype_of_indexed_id. }
  assert ("id" ∈ names train) as Hidn.
  { unfold names. rewrite Htc. apply names_indexed_id. }
  split_and!.
  - simpl. by rewrite Han, Hbn.
  - rewrite !csv_column_csv_of by by (rewrite ?Han, ?Hbn).
    by rewrite Haser, Hbser.
  - simpl. rewrite Han, Hbn. apply Forall2_fmap.
    eapply Forall2_impl; [exact (Forall2_common_l _ _ _ _ _ Ha Hb)|].
    intros ra rb (r & [Ha1 Ha2] & [Hb1 Hb2]). simpl.
    destruct (decide (r.1 ∈ sel)) as [Hin|Hout].
    + split; intros _; auto.
    + by rewrite (Ha2 Hout), (Hb2 Hout).
Qed.

End set_order.
(** ** The submission cell of the tutorial *)

Lemma select_columns_spec labels df :
  (∃ c, c ∈ labels ∧ (c ∉ names df)
        ∧ select_columns labels df = Raise (KeyError (Col c)))
  ∨ ((∀ c, c ∈ labels → c ∈ names df) ∧ ∃ d, select_columns labels df = Ok d).
Proof.
  unfold select_columns.
  destruct (list_find _ _) as [[k c]|] eqn:Hf.
  - left. apply list_find_Some in Hf as (Hk & Hc & _).
    exists c. split_and!; [by eapply list_elem_of_lookup_2|done|done].
  - right. split; [|by eexists]. intros c Hc.
    apply list_find_None in Hf. eapply Forall_forall in Hf; [|exact Hc].
    by apply dec_stable.
Qed.

Lemma reads_id_table f : reads_id f (id_table f).
Proof.
  split; [by left|]. unfold id_table. cbn [ds_records].
  rewrite <-list_fmap_compose. rewrite <-(list_fmap_id (csv_column "id" f)) at 2.
  apply list_fmap_ext. intros _ x _. simpl. by rewrite lookup_singleton_eq.
Qed.

Section tutorial_facts.
Context {RS : RandomState}.

(** What the cell does, by whether the table has an [id] column. *)
Lemma submission_cases (t : dataset) (w : world) :
  (("id" ∉ (ds_columns t).*1)
   ∧ submission t w = (Raise (KeyError (Col "id")), w))
  ∨ ("id" ∈ (ds_columns t).*1
     ∧ submission t w
       = (Ok (),
          {| gen := gen w;
             written :=
               written w
               ++ [(submission_csv,
                    {| header := ["id"; target];
                       body := (λ rec : gmap string cell,
                                  [default NaN (rec !! "id");
                                   Float constant_prediction])
                               <$> ds_records t |})];
             draws := draws w |})).
Proof.
  unfold submission. rewrite bind_unfold.
  destruct (select_columns_spec ["id"] (read_csv t))
    as [(c & Hc & Hn & E)|(Hin & sub0 & E)].
  { apply list_elem_of_singleton in Hc as ->. rewrite E. by left. }
  right. split; [apply Hin; by left|].
  rewrite E. cbn [lift]. rewrite bind_unfold.
  pose proof E as (Hn0 & Hi0 & Hs0)%select_columns_Ok.
  assert (len sub0 = length (ds_records t)) as Hlen.
  { by rewrite <-len_index, Hi0, index_read_csv, length_seq. }
  destruct (setitem_total target Float64
              (replicate (len sub0) (Float constant_prediction)) sub0)
    as [sub Hsub]; [apply length_replicate|].
  rewrite Hsub. cbn [lift]. unfold to_csv.
  pose proof Hsub as (Hc1 & Hi1 & Hs1)%setitem_Ok.
  do 5 f_equal.
  assert (names sub = ["id"; target]) as Hns.
  { unfold names. rewrite Hc1, names_set_dtype. fold (names sub0).
    rewrite Hn0. by rewrite decide_False
      by (apply (bool_decide_unpack _); by vm_compute). }
  rewrite (csv_of_cells sub (ds_records t)
             (λ rec c, if decide (c = "id") then default NaN (rec !! "id")
                       else Float constant_prediction) _ Hns).
  - reflexivity.
  - by rewrite <-len_index, Hi1, len_index.
  - intros c Hcn. case_decide as Hid.
    + subst c. rewrite Hs1 by done. rewrite Hs0 by left.
      by rewrite series_read_csv, <-list_fmap_compose.
    + apply elem_of_cons in Hcn as [->|Hcn]; [done|].
      apply list_elem_of_singleton in Hcn as ->.
      rewrite (setitem_series _ _ _ _ _ Hsub).
      rewrite <-list_fmap_compose, fmap_replicate. simpl.
      rewrite Hlen. symmetry. by apply const_fmap.
Qed.

(** X13.  The submission cell needs an [id] column in the table it reads.
    Without one it raises [KeyError] and writes nothing.  With one it
    writes [submission.csv] with the columns [id] and [highUptake_mol]:
    one record per record of the table, in order, with the [id] of that
    record and the constant prediction 50.0; it draws nothing from the
    generator. *)
Theorem submission_file (t : dataset) (w : world) :
  match submission t w with
  | (Ok _, w') =>
      "id" ∈ (ds_columns t).*1
      ∧ gen w' = gen w
      ∧ draws w' = draws w
      ∧ written w'
        = written w
          ++ [(submission_csv,
               {| header := ["id"; target];
                  body := (λ rec : gmap string cell,
                             [default NaN (rec !! "id");
                              Float constant_prediction])
                          <$> ds_records t |})]
  | (Raise e, w') =>
      e = KeyError (Col "id") ∧ ("id" ∉ (ds_columns t).*1) ∧ w' = w
  end.
Proof. by destruct (submission_cases t w) as [[? ->]|[? ->]]. Qed.

(** X14.  Run on the [test.csv] that the dataset notebook wrote, the
    submission cell completes, and [submission.csv] has the header of
    [sample_submission.csv] and the [id] column of [solution.csv], record
    by record: 100 records. *)
Theorem submission_matches_solution (ds : dataset) (df : DataFrame)
    (w1 : world) (train test : DataFrame) (w2 : world) (ft : csv)
    (t : dataset) (w : world) :
  cleaner ds world0 = (Ok df, w1) →
  splitter df w1 = (Ok (train, test), w2) →
  written w2 !! 1 = Some (test_csv, ft) →
  reads_id ft t →
  ∃ fs fb f w',
    written w2 !! 0 = Some (solution_csv, fs)
    ∧ written w2 !! 2 = Some (sample_submission_csv, fb)
    ∧ submission t w = (Ok (), w')
    ∧ written w' = written w ++ [(submission_csv, f)]
    ∧ header f = header fb
    ∧ csv_column "id" f = csv_column "id" fs
    ∧ length (body f) = 100.
Proof.
  intros Hc Hs Hft [Hid Hread].
  pose proof Hc as (-> & Hidx & _)%cleaner_Ok.
  destruct (splitter_outputs _ _ _ _ _ _ Hc Hs)
    as (ids & great & filler & lo & hi & u & _ & _ & _ & _ & _ & _ & _
        & Hit & _ & _ & _ & _ & _ & _ & Hw2 & _).
  pose proof Hs
    as (comb & fs & ft' & fb & _ & Hcl & _ & _ & Hit' & _ & _ & _ & _ & _
        & Hws & Hfs & Hft' & _)%splitter_frames;
    [|rewrite Hidx; apply NoDup_seq].
  simpl in Hws. rewrite Hws in Hft, Hw2. injection Hft as <-.
  injection Hw2 as _ _ Hfb.
  destruct (submission_cases t w) as [[? _]|[_ E]]; [done|].
  exists fs, fb. eexists. eexists. rewrite Hws.
  split_and!; [done|done|exact E|done|by rewrite Hfb| |].
  - rewrite Hfs, <-Hft', <-Hread. unfold csv_column. simpl.
    rewrite <-list_fmap_compose. done.
  - simpl. rewrite length_fmap.
    rewrite <-(length_fmap (λ rec : gmap string cell, default NaN (rec !! "id"))).
    by rewrite Hread, Hft', length_fmap.
Qed.

End tutorial_facts.

Lemma submission_matches_solution_witness :
  ∃ (w2 : @world quiet) fs f (w' : @world quiet),
    written w2 !! 0 = Some (solution_csv, fs)
    ∧ written w' = [(submission_csv, f)]
    ∧ csv_column "id" f = csv_column "id" fs
    ∧ length (body f) = 100.
Proof.
  destruct (run_Ok _ _ quiet_run_returns)
    as (df & w1 & train & test & w2 & train' & w3 & Hc & Hs & Hk & _).
  destruct (splitter_outputs _ _ _ _ _ _ Hc Hs)
    as (ids & great & filler & lo & hi & u & _ & _ & _ & _ & _ & _ & _
        & _ & _ & _ & _ & _ & _ & _ & Hw2 & _).
  assert (∃ ft, written w2 !! 1 = Some (test_csv, ft)) as [ft Hft]
    by (rewrite Hw2; by eexists).
  destruct (@submission_matches_solution quiet demo df w1 train test w2 ft
              (id_table ft) world0 Hc Hs Hft (reads_id_table ft))
    as (fs & fb & f & w' & Hfs & _ & _ & Hw' & _ & Hid & Hlen).
  exists w2, fs, f, w'.
  split; [exact Hfs|]. split; [exact Hw'|]. split; [exact Hid|exact Hlen].
Defined.
(** ** One pass of the loop of cell 7 *)

Section loop_body.
Context {RS : RandomState} {SO : SetOrder}.

(** X15.  One pass of the loop of cell 7, with the eligible columns of a
    frame [df0] computed before the loop, draws [B] from a binomial over as
    many trials as the current frame has columns.  If [B + 1] exceeds the
    number of eligible columns the pass raises [ValueError] after that one
    draw; otherwise it draws one permutation of the eligible columns and
    sets to the missing-value marker the cells of the rows labelled [idx]
    in [B + 1] distinct columns, all of them eligible (declared float64 in
    [df0]).  It writes no file. *)
Theorem corrupt_row_outcome (df0 df : DataFrame) (idx : nat) (w : world) :
  let cols := float64_columns df0 in
  let n := length (columns df) in
  let b := (binomial (gen w) n (1 # 10)%Q).1 in
  match corrupt_row cols df idx w with
  | (Ok df', w') =>
      b + 1 ≤ length cols
      ∧ draws w'
        = draws w ++ [DrawBinomial n (1 # 10)%Q; DrawPermutation (length cols)]
      ∧ written w' = written w
      ∧ ∃ nan_columns,
          df' = loc_set idx nan_columns NaN df
          ∧ length nan_columns = b + 1
          ∧ NoDup nan_columns
          ∧ Forall (λ c, c ∈ cols ∧ dtype_of c df0 = Some Float64) nan_columns
  | (Raise e, w') =>
      e = ValueError
      ∧ length cols < b + 1
      ∧ draws w' = draws w ++ [DrawBinomial n (1 # 10)%Q]
      ∧ written w' = written w
  end.
Proof.
  intros cols n b.
  destruct (corrupt_row_spec cols df idx w)
    as [[Hlt ->]|(Hle & nc & -> & Hlen & Hsub & Hnd)].
  - done.
  - split_and!; [done| |done|].
    + rewrite !draws_log. by rewrite <-(assoc_L (++)).
    + exists nc. split_and!; [done|done|apply Hnd, NoDup_float64_columns|].
      apply Forall_forall. intros c Hc%Hsub. split; [done|].
      by apply float64_columns_dtype.
Qed.

End loop_body.

(** ** The frame handed to the Corruptor *)

Section training_frame.
Context {RS : RandomState}.

(** X16.  The frame that the Splitter hands to the Corruptor holds the
    [N - 100] records of the input that are not held out, in file order:
    written out, it has the columns of the frame ([id] included) and, for
    each such record, the cells of the input record and its position under
    [id]. *)
Theorem training_frame_contents (ds : dataset) (df : DataFrame) (w1 : world)
    (train test : DataFrame) (w2 : world) :
  cleaner ds world0 = (Ok df, w1) →
  splitter df w1 = (Ok (train, test), w2) →
  len train = length (ds_records ds) - 100
  ∧ index train
    = filter (λ i, i ∉ index test) (seq 0 (length (ds_records ds)))
  ∧ csv_of train
    = {| header := frame_columns ds;
         body := (λ i, (λ c, indexed_cell ds i c) <$> frame_columns ds)
                 <$> index train |}.
Proof.
  intros Hc Hs.
  pose proof Hc as (_ & Hidx & Hlen & _)%cleaner_Ok.
  pose proof Hs
    as (comb & ? & ? & ? & _ & _ & _ & _ & Hit & _ & _ & Hitr & _ & Hsum
        & _)%splitter_frames; [|rewrite Hidx; apply NoDup_seq].
  assert (index train
          = filter (λ i, i ∉ index test) (seq 0 (length (ds_records ds))))
    as Hindex by by rewrite Hitr, Hit, Hidx.
  split_and!; [lia|done|].
  rewrite Hindex. by eapply train_frame_csv.
Qed.

End training_frame.

Lemma training_frame_contents_witness :
  ∃ train : DataFrame,
    len train = 8
    ∧ header (csv_of train)
      = ["voidFraction"; "density"; "num_carbon"; target; "id"].
Proof.
  destruct (run_Ok _ _ quiet_run_returns)
    as (df & w1 & train & test & w2 & train' & w3 & Hc & Hs & Hk & _).
  destruct (@training_frame_contents quiet demo df w1 train test w2 Hc Hs)
    as (Hlen & _ & Hcsv).
  exists train. split; [exact Hlen|]. rewrite Hcsv. vm_compute. reflexivity.
Defined.
(** ** The held-out rows as a function of the generator *)

Lemma remove_dups_NoDup_id {A} `{EqDecision A} (l : list A) :
  NoDup l → remove_dups l = l.
Proof.
  induction 1 as [|x l Hx _ IH]; [done|]. simpl.
  destruct (decide_rel elem_of x l); [done|]. by rewrite IH.
Qed.

Lemma merge_sort_sorted_id (l : list nat) :
  StronglySorted le l → merge_sort le l = l.
Proof.
  intros Hl. apply (Sorted_unique le).
  - apply Sorted_merge_sort. apply _.
  - by apply StronglySorted_Sorted.
  - apply merge_sort_Permutation.
Qed.

Lemma seq_sorted j n : StronglySorted le (seq j n).
Proof.
  revert j. induction n as [|n IH]; intros j; simpl; constructor; [done|].
  apply Forall_seq. lia.
Qed.

Lemma index_difference_seq n other :
  index_difference (seq 0 n) other = filter (λ i, i ∉ other) (seq 0 n).
Proof.
  unfold index_difference.
  rewrite remove_dups_NoDup_id by apply NoDup_filter, NoDup_seq.
  apply merge_sort_sorted_id, StronglySorted_filter, seq_sorted.
Qed.

Section recipe.
Context {RS : RandomState}.

Lemma choice_positions_eq n size w :
  size ≤ n →
  choice_positions n size w
  = (Ok (take size (permutation (gen w) n).1),
     log (DrawPermutation n) (permutation (gen w) n).2 w).
Proof. intros Hle. unfold choice_positions. by rewrite decide_False by lia. Qed.

Lemma np_choice_eq {A} (a : list A) size w :
  size ≤ length a →
  np_choice a size w
  = (Ok (pick a (take size (permutation (gen w) (length a)).1)),
     log (DrawPermutation (length a)) (permutation (gen w) (length a)).2 w).
Proof.
  intros Hle. unfold np_choice. by rewrite bind_unfold, choice_positions_eq.
Qed.

Lemma sample_eq n df w :
  n ≤ len df →
  sample n df w
  = (Ok {| columns := columns df;
           rows := pick (rows df) (take n (permutation (gen w) (len df)).1) |},
     log (DrawPermutation (len df)) (permutation (gen w) (len df)).2 w).
Proof.
  intros Hle. unfold sample. by rewrite bind_unfold, choice_positions_eq.
Qed.

Lemma combined_indices_formula df w comb w' :
  NoDup (index df) →
  combined_indices df w = (Ok comb, w') →
  let R := (ranked target df).*1 in
  let p1 := permutation (gen w) 10 in
  let p2 := permutation p1.2 (len df - 6) in
  let anchors := take 1 R ++ pick (drop 5 (take 15 R)) (take 5 p1.1) in
  comb = anchors ++ pick (index_difference (index df) anchors) (take 94 p2.1)
  ∧ gen w' = p2.2.
Proof.
  intros Hnd Hrun R p1 p2 anchors.
  pose proof Hrun
    as (great & filler & _ & _ & _ & _ & HN & Hgen & Hdr & _
        )%combined_indices_parts; [|done].
  split; [|exact Hgen].
  assert (length R = len df) as HR.
  { unfold R. by rewrite length_fmap, ranked_Permutation. }
  unfold combined_indices in Hrun.
  apply bind_Ok in Hrun as (best & ? & [Hbest ->]%lift_Ok & Hrun).
  apply bind_Ok in Hrun as (top & ? & [Htop ->]%lift_Ok & Hrun).
  apply nlargest_Ok in Hbest as [_ Hbest].
  apply nlargest_Ok in Htop as [Htc Htop].
  assert (index best = take 1 R) as Hb
    by (unfold index; by rewrite Hbest, fmap_take).
  assert (len (slice_from 5 top) = 10) as Hten.
  { unfold len. simpl. rewrite Htop, length_drop, length_take.
    rewrite <-(length_fmap fst). fold R. lia. }
  rewrite bind_unfold, sample_eq in Hrun by lia. rewrite Hten in Hrun.
  rewrite bind_unfold in Hrun. fold p1 in Hrun.
  match type of Hrun with context [index ?g] =>
    match g with
    | {| columns := _; rows := pick _ _ |} =>
        assert (index g = pick (drop 5 (take 15 R)) (take 5 p1.1)) as Hg
    end
  end.
  { unfold index, pick. simpl. rewrite fmap_omap_lookup.
    by rewrite Htop, fmap_drop, fmap_take. }
  rewrite Hb, Hg in Hrun. fold anchors in Hrun.
  assert (length p1.1 = 10) as Hp1.
  { unfold p1. by rewrite permutation_spec, length_seq. }
  assert (length anchors = 6) as Hsix.
  { unfold anchors. rewrite length_app, length_take, HR.
    unfold pick. rewrite length_omap_lookup.
    - rewrite length_take. lia.
    - apply Forall_take.
      assert (Forall (λ i, i < 10) p1.1) as Hp.
      { unfold p1. rewrite permutation_spec. apply Forall_seq. lia. }
      eapply Forall_impl; [exact Hp|]. intros i Hi. simpl in Hi.
      rewrite length_drop, length_take, HR. lia. }
  rewrite Hsix in Hrun.
  destruct (decide (100 - 6 ≤ length (index_difference (index df) anchors)))
    as [Hle|Hgt].
  - rewrite np_choice_eq in Hrun by done. injection Hrun as <- <-.
    rewrite !draws_log, <-(assoc_L (++)) in Hdr.
    apply app_inv_head in Hdr. injection Hdr as ->. done.
  - exfalso. revert Hrun. unfold np_choice, choice_positions.
    rewrite decide_True by lia. done.
Qed.


(** X17.  The held-out side of a completed split as a function of the
    generator.  With [p1] the permutation of 10 drawn from the seeded
    generator and [p2] the permutation of [N - 6] drawn next, the anchors
    are the record ranked first and the records at the first five
    positions of [p1] among those ranked 6th to 15th; the filler is the
    records at the first 94 positions of [p2] among the other records taken
    in file order; and the predictions of [sample_submission.csv] are the
    uniform draw that follows. *)
Theorem held_out_recipe (ds : dataset) (df : DataFrame) (w1 : world)
    (train test : DataFrame) (w2 : world) :
  cleaner ds world0 = (Ok df, w1) →
  splitter df w1 = (Ok (train, test), w2) →
  let N := length (ds_records ds) in
  let p1 := permutation (seed 42) 10 in
  let p2 := permutation p1.2 (N - 6) in
  let anchors :=
    take 1 (ranking ds)
    ++ pick (drop 5 (take 15 (ranking ds))) (take 5 p1.1) in
  let pool := filter (λ i, i ∉ anchors) (seq 0 N) in
  index test = anchors ++ pick pool (take 94 p2.1)
  ∧ ∃ lo hi,
      written w2 !! 2
      = Some (sample_submission_csv,
              {| header := ["id"; target];
                 body := (λ p : nat * Z, [Int (Z.of_nat p.1); Float p.2])
                         <$> zip (index test) (uniform p2.2 lo hi 100).1 |})
      ∧ gen w2 = (uniform p2.2 lo hi 100).2.
Proof.
  intros Hc Hs N p1 p2 anchors pool.
  pose proof Hc as (_ & Hidx & Hlen & _)%cleaner_Ok.
  assert (NoDup (index (indexed df))) as Hndi.
  { rewrite index_indexed, Hidx. apply NoDup_seq. }
  destruct (splitter_outputs _ _ _ _ _ _ Hc Hs)
    as (ids & great & filler & lo & hi & u & _ & _ & _ & _ & _ & _ & _ & Hit
        & _ & _ & _ & _ & _ & _ & Hw & _ & Hu & Hg & _).
  pose proof Hs as (comb & w1' & ? & ? & ? & ? & ? & ? & ? & Hcomb
                    & Hloc & _)%splitter_trace.
  pose proof Hloc as [_ Hrows]%loc_Ok.
  apply loc_rows_Ok in Hrows as [Hlab _]; [|done].
  apply combined_indices_formula in Hcomb as [Hcomb _]; [|done].
  pose proof Hc as (-> & _)%cleaner_Ok.
  rewrite (ranking_indexed _ _ _ _ Hc), index_indexed, Hidx in Hcomb.
  rewrite index_difference_seq, len_indexed, Hlen in Hcomb.
  split.
  - unfold index at 1. rewrite Hlab. exact Hcomb.
  - exists lo, hi. rewrite Hw, Hit, Hu. split; [done|exact Hg].
Qed.

End recipe.

Lemma held_out_recipe_witness :
  ∃ test : DataFrame, take 6 (index test) = [30; 8; 38; 68; 98; 27].
Proof.
  destruct (run_Ok _ _ quiet_run_returns)
    as (df & w1 & train & test & w2 & train' & w3 & Hc & Hs & Hk & _).
  destruct (@held_out_recipe quiet demo df w1 train test w2 Hc Hs)
    as [Hindex _].
  exists test. rewrite Hindex.
  rewrite (take_app_length' _ _ 6) by (vm_compute; reflexivity).
  vm_compute. reflexivity.
Defined.
